(** * news_collection: the collector pipeline

    A shallow embedding of [news_collection/collector.py],
    [news_collection/database.py] and [news_collection/image_handler_old.py]:
    the rule evaluator ([should_collect_message]), the per-post pipeline
    ([process_message], [process_single_photo]), the channel pass
    ([process_channel]) and the channel loop of [run], over an explicit
    model of the PostgreSQL tables.  Further on: the store operations the
    collector does not call ([add_channel], [find_duplicates_batch],
    [bulk_insert_messages]), the SQLite backend's variants
    ([news_collection/database_sqlite.py]), and of the viewer the lookup of
    a duplicate's original ([news_viewer/database_reader.py]) and the
    paging, grouping and favourites of
    [news_viewer/backend/routes/news.py].

    Conventions.
    - Python [int] is [Z]; [str] is [string] (one character per code point);
      a [datetime] is its instant, a [Z]; [None]-able values are [option].
    - Library code the repository calls but does not define ([str.lower],
      [hashlib.md5], Telethon's message iterator and media download, Pillow)
      is a field of the record [Externals]: every theorem holds for each
      choice of these functions.
    - An [async] method is a computation in the monad [M]: it threads the
      store, and may raise.  Each store or platform call passes through
      [io_point], where a scheduled fault makes it raise. *)

From Stdlib Require Import ZArith List String Ascii Bool Lia.
From Stdlib Require Import DecimalString DecimalZ DecimalPos Permutation.
Import ListNotations.
Local Open Scope Z_scope.
Local Open Scope string_scope.

Set Implicit Arguments.

(* ===================================================================== *)
(** ** Python built-ins used by the collector *)

(** [str(n)] for an [int]. *)
Definition str_of_int (n : Z) : string := NilZero.string_of_int (Z.to_int n).

(** [len(s)]. *)
Definition len (s : string) : Z := Z.of_nat (String.length s).

(** Truthiness of a [str]: non-empty. *)
Definition str_truthy (s : string) : bool :=
  match s with EmptyString => false | String _ _ => true end.

(** [x or ""] for an optional string. *)
Definition or_empty (x : option string) : string :=
  match x with
  | Some s => s
  | None => ""
  end.

(** [p in t] on strings: [p] occurs in [t] as a contiguous run. *)
Fixpoint str_in (p t : string) : bool :=
  if prefix p t then true
  else match t with
       | EmptyString => false
       | String _ t' => str_in p t'
       end.

(** ASCII restriction of [str.lower], used for concrete runs only. *)
Definition ascii_lower_char (c : ascii) : ascii :=
  let n := nat_of_ascii c in
  if (Nat.leb 65 n && Nat.leb n 90)%bool then ascii_of_nat (n + 32) else c.

Fixpoint ascii_lower (s : string) : string :=
  match s with
  | EmptyString => EmptyString
  | String c s' => String (ascii_lower_char c) (ascii_lower s')
  end.

Definition option_Z_eqb (a b : option Z) : bool :=
  match a, b with
  | Some x, Some y => Z.eqb x y
  | None, None => true
  | _, _ => false
  end.

Definition option_string_eqb (a b : option string) : bool :=
  match a, b with
  | Some x, Some y => String.eqb x y
  | None, None => true
  | _, _ => false
  end.

(* ===================================================================== *)
(** ** Posts, as the platform client delivers them *)

(** [message.fwd_from.from_id]. *)
Inductive Peer : Type :=
| PeerChannel (channel_id : Z)
| PeerUser (user_id : Z)
| PeerChat (chat_id : Z).

(** [message.fwd_from]: the forward header. *)
Record MessageFwdHeader : Type := {
  from_id : option Peer;
  channel_post : option Z
}.

(** [message.photo]: only its [id] is read. *)
Record Photo : Type := { photo_id : Z }.

(** [message.media]: a photo, or any other media (video, file, ...).  On
    the platform the photo object of a [MessageMediaPhoto] is optional (an
    expired or empty photo): [message.photo] is then [None]. *)
Inductive MessageMedia : Type :=
| MessageMediaPhoto (photo : option Photo)
| MessageMediaOther.

Record Message : Type := {
  m_id : Z;
  m_text : option string;
  m_date : Z;
  m_media : option MessageMedia;
  m_fwd_from : option MessageFwdHeader;
  m_grouped_id : option Z
}.

(** [has_photo(message)]: [isinstance(message.media, MessageMediaPhoto)]. *)
Definition has_photo (message : Message) : bool :=
  match m_media message with
  | Some (MessageMediaPhoto _) => true
  | _ => false
  end.

(** Truthiness of [message.media]. *)
Definition media_truthy (message : Message) : bool :=
  match m_media message with
  | Some _ => true
  | None => false
  end.

(* ===================================================================== *)
(** ** Exclusion rules and configuration *)

(** A row of [get_active_exclusion_rules]. *)
Record ExclusionRule : Type := {
  pattern : string;
  rule_type : string;
  is_case_sensitive : bool
}.

(** The attributes of [Config] the pipeline reads. *)
Record Config : Type := {
  MIN_TEXT_LENGTH : Z;
  START_DATE : Z;
  MAX_IMAGE_WIDTH : Z;
  IMAGE_QUALITY : Z;
  KEEP_WEBP : bool
}.

(** Outcome of a call that may raise. *)
Inductive exn : Type :=
| StoreError
| PlatformError
| AssetError (what : string)
| AttributeError (what : string)
| DataError.

Inductive result (A : Type) : Type :=
| Ret (a : A)
| Raise (e : exn).
Arguments Ret {A} a.
Arguments Raise {A} e.

(** A decoded Pillow image: [img.format], [img.mode], [img.size]. *)
Record PILImage : Type := {
  img_format : option string;
  img_mode : string;
  img_width : Z;
  img_height : Z
}.

(** Library functions outside the repository. *)
Record Externals : Type := {
  (** [str.lower] *)
  str_lower : string -> string;
  (** [hashlib.md5(text.encode('utf-8')).hexdigest()] *)
  md5_hexdigest : string -> string;
  (** [client.iter_messages(name, offset_date=..., reverse=True)] *)
  iter_messages : string -> Z -> list Message;
  (** [client.download_media(message.photo, file=bytes)] *)
  download_media : option Photo -> result (option string);
  (** [Image.open(io.BytesIO(photo_bytes))] *)
  image_open : string -> result PILImage;
  (** Pillow reads the pixel data when an operation first needs it
      ([convert], [split], [paste], [resize]); a truncated or corrupt file
      raises there *)
  image_load : PILImage -> result unit;
  (** [int(original_height * (max_width / original_width))] in floats *)
  scaled_height : Z -> Z -> Z -> Z;
  (** [get_image_dir]: the [strftime] date directory, created on disk *)
  image_dir : Z -> string -> result string;
  (** [img.save(path, fmt, ...)] then [path.stat().st_size] *)
  image_save : string -> PILImage -> string -> result Z
}.

(* ===================================================================== *)
(** ** The rule evaluator *)

Section RuleEvaluator.

Variable cfg : Config.
Variable ext : Externals.

(** [Database.should_exclude_message]: the first matching rule excludes. *)
Fixpoint should_exclude_message (message_text : string)
         (rules : list ExclusionRule) : bool :=
  match rules with
  | [] => false
  | rule :: rest =>
      let text_to_check :=
        if is_case_sensitive rule then message_text
        else str_lower ext message_text in
      let pattern_to_check :=
        if is_case_sensitive rule then pattern rule
        else str_lower ext (pattern rule) in
      if String.eqb (rule_type rule) "exact" then
        if String.eqb text_to_check pattern_to_check then true
        else should_exclude_message message_text rest
      else if String.eqb (rule_type rule) "contains" then
        if str_in pattern_to_check text_to_check then true
        else should_exclude_message message_text rest
      else should_exclude_message message_text rest
  end.

(** [NewsCollector.should_collect_message]: [(should_collect, reason)]. *)
Definition should_collect_message (exclusion_rules : list ExclusionRule)
           (message : Message) : bool * string :=
  let message_has_photo := has_photo message in
  let message_text := or_empty (m_text message) in
  let text_length := len message_text in
  if (str_truthy message_text
      && should_exclude_message message_text exclusion_rules)%bool
  then (false, "matched exclusion rule")
  else if message_has_photo then (true, "has photo")
  else if (media_truthy message && negb message_has_photo)%bool then
    if Z.ltb text_length (MIN_TEXT_LENGTH cfg)
    then (false, "has media but text too short ("
                   ++ str_of_int text_length ++ " < "
                   ++ str_of_int (MIN_TEXT_LENGTH cfg) ++ ")")
    else (true, "has media with sufficient text")
  else if Z.ltb text_length (MIN_TEXT_LENGTH cfg)
  then (false, "text too short ("
                 ++ str_of_int text_length ++ " < "
                 ++ str_of_int (MIN_TEXT_LENGTH cfg) ++ ")")
  else (true, "text message with sufficient length").

End RuleEvaluator.

(* ===================================================================== *)
(** ** The persistent store *)

(** A row of [messages]; also the [message_data] dict of
    [process_message].  The 0/1 columns are [bool]. *)
Record MessageRow : Type := {
  channel_id : Z;
  message_id : Z;
  message_text : option string;
  message_datetime : Z;
  has_media : bool;
  is_duplicate : bool;
  is_forwarded : bool;
  duplicate_of_channel_id : option Z;
  duplicate_of_message_id : option Z;
  forward_from_channel_id : option Z;
  forward_from_message_id : option Z;
  text_hash : option string;
  grouped_id : option Z
}.

(** A row of [images]. *)
Record ImageRow : Type := {
  message_channel_id : Z;
  message_message_id : Z;
  file_id : string;
  file_path : string;
  original_size : Z;
  compressed_size : Z;
  width : Z;
  height : Z
}.

(** A row of [channels], as [get_all_channels] returns it
    ([display_name] and [category] are never read by the collector). *)
Record ChannelRow : Type := {
  telegram_channel_id : Z;
  name : string;
  last_fetched_datetime : option Z
}.

(** A row of [exclusion_rules]. *)
Record ExclusionRuleRow : Type := {
  rule_id : Z;
  rule : ExclusionRule;
  is_active : bool
}.

(** What the collector does to the outside world, in program order. *)
Inductive event : Type :=
| EvFindDuplicate (h : string)
| EvInsertMessage (cid mid : Z)
| EvImageExists (fid : string)
| EvDownload (fid : string)
| EvInsertImage (fid : string)
| EvUpdateLastFetched (cid t : Z)
| EvProcessingChannel (cid : Z)
| EvChannelCompleted (cid processed collected : Z)
| EvChannelError (cid : Z).

(** The tables, the faults still to come (one entry per store or platform
    call, [true] makes the call raise; none left: no fault), and the trace
    of effects so far, oldest first. *)
Record Store : Type := mkStore {
  messages : list MessageRow;
  images : list ImageRow;
  channels : list ChannelRow;
  exclusion_rules : list ExclusionRuleRow;
  faults : list bool;
  trace : list event
}.

Definition set_messages (l : list MessageRow) (s : Store) : Store :=
  mkStore l (images s) (channels s) (exclusion_rules s) (faults s) (trace s).
Definition set_images (l : list ImageRow) (s : Store) : Store :=
  mkStore (messages s) l (channels s) (exclusion_rules s) (faults s) (trace s).
Definition set_channels (l : list ChannelRow) (s : Store) : Store :=
  mkStore (messages s) (images s) l (exclusion_rules s) (faults s) (trace s).
Definition set_faults (l : list bool) (s : Store) : Store :=
  mkStore (messages s) (images s) (channels s) (exclusion_rules s) l (trace s).
Definition set_trace (l : list event) (s : Store) : Store :=
  mkStore (messages s) (images s) (channels s) (exclusion_rules s) (faults s) l.

(* ===================================================================== *)
(** ** The monad of the [async] methods: store passing with exceptions *)

Definition M (A : Type) : Type := Store -> result A * Store.

Definition ret {A} (a : A) : M A := fun s => (Ret a, s).

Definition raise {A} (e : exn) : M A := fun s => (Raise e, s).

Definition bind {A B} (c : M A) (k : A -> M B) : M B :=
  fun s =>
    match c s with
    | (Ret a, s') => k a s'
    | (Raise e, s') => (Raise e, s')
    end.

(** [try: c except Exception as e: h e].  The store is not rolled back. *)
Definition try_except {A} (c : M A) (h : exn -> M A) : M A :=
  fun s =>
    match c s with
    | (Ret a, s') => (Ret a, s')
    | (Raise e, s') => h e s'
    end.

(** A pure call that may raise. *)
Definition lift {A} (r : result A) : M A := fun s => (r, s).

Declare Scope monad_scope.
Delimit Scope monad_scope with monad.
Notation "x <- c ;; k" := (bind c (fun x => k))
  (at level 61, c at next level, right associativity) : monad_scope.
Notation "c ;; k" := (bind c (fun _ => k))
  (at level 61, right associativity) : monad_scope.
Local Open Scope monad_scope.

(** Appends one effect to the trace. *)
Definition emit (e : event) : M unit :=
  fun s => (Ret tt, set_trace (trace s ++ [e]) s).

(** A call that leaves the process (store query, platform request):
    consumes one scheduled fault and raises [e] if it is set. *)
Definition io_point (e : exn) : M unit :=
  fun s =>
    match faults s with
    | [] => (Ret tt, s)
    | true :: fs => (Raise e, set_faults fs s)
    | false :: fs => (Ret tt, set_faults fs s)
    end.

(* ===================================================================== *)
(** ** [Database]: the queries the collector issues *)

(** [get_all_channels]: [SELECT ... FROM channels], without [ORDER BY].
    The list [channels] stands for the rows of the table; the order in
    which the store hands them out may change when a row is rewritten, and
    the list does not follow that.  A statement about a whole run
    speaks of the rows one call of [get_all_channels] returned, or of the
    table up to the order of its rows. *)
Definition get_all_channels : M (list ChannelRow) :=
  io_point StoreError ;;
  fun s => (Ret (channels s), s).

(** [update_channel_last_fetched]:
    [UPDATE channels SET last_fetched_datetime = $1
     WHERE telegram_channel_id = $2]. *)
Definition set_last_fetched (cid : Z) (datetime_obj : Z)
           (c : ChannelRow) : ChannelRow :=
  if Z.eqb (telegram_channel_id c) cid
  then {| telegram_channel_id := telegram_channel_id c;
          name := name c;
          last_fetched_datetime := Some datetime_obj |}
  else c.

Definition update_channel_last_fetched (cid : Z) (datetime_obj : Z) : M unit :=
  io_point StoreError ;;
  emit (EvUpdateLastFetched cid datetime_obj) ;;
  fun s =>
    (Ret tt, set_channels (map (set_last_fetched cid datetime_obj) (channels s)) s).

(** [get_active_exclusion_rules]:
    [SELECT ... FROM exclusion_rules WHERE is_active = 1 ORDER BY id];
    the table is kept in [id] order. *)
Definition get_active_exclusion_rules : M (list ExclusionRule) :=
  io_point StoreError ;;
  fun s => (Ret (map rule (filter is_active (exclusion_rules s))), s).

(** The [WHERE] clause of [find_duplicate]:
    [text_hash = $1 AND is_duplicate = 0]. *)
Definition duplicate_candidate (h : string) (r : MessageRow) : bool :=
  (option_string_eqb (text_hash r) (Some h) && negb (is_duplicate r))%bool.

(** [SELECT channel_id, message_id FROM messages WHERE ... LIMIT 1]:
    the first candidate in insertion order. *)
Definition select_duplicate (h : string) (rows : list MessageRow)
  : option (Z * Z) :=
  match find (duplicate_candidate h) rows with
  | Some r => Some (channel_id r, message_id r)
  | None => None
  end.

(** [find_duplicate]. *)
Definition find_duplicate (h : string) : M (option (Z * Z)) :=
  io_point StoreError ;;
  emit (EvFindDuplicate h) ;;
  fun s => (Ret (select_duplicate h (messages s)), s).

(** The primary key of [messages]. *)
Definition same_key (cid mid : Z) (r : MessageRow) : bool :=
  (Z.eqb (channel_id r) cid && Z.eqb (message_id r) mid)%bool.

Definition lookup_message (cid mid : Z) (rows : list MessageRow)
  : option MessageRow :=
  find (same_key cid mid) rows.

(** [INSERT INTO messages ... ON CONFLICT (channel_id, message_id)
    DO NOTHING]. *)
Definition insert_message_row (r : MessageRow) (rows : list MessageRow)
  : list MessageRow :=
  if existsb (same_key (channel_id r) (message_id r)) rows
  then rows
  else rows ++ [r].

(** [insert_message]. *)
Definition insert_message (r : MessageRow) : M unit :=
  io_point StoreError ;;
  emit (EvInsertMessage (channel_id r) (message_id r)) ;;
  fun s => (Ret tt, set_messages (insert_message_row r (messages s)) s).

(** [SELECT 1 FROM images WHERE file_id = $1]. *)
Definition has_file_id (fid : string) (rows : list ImageRow) : bool :=
  existsb (fun i => String.eqb (file_id i) fid) rows.

(** [image_exists]. *)
Definition image_exists (fid : string) : M bool :=
  io_point StoreError ;;
  emit (EvImageExists fid) ;;
  fun s => (Ret (has_file_id fid (images s)), s).

(** [INSERT INTO images ... ON CONFLICT (file_id) DO NOTHING]. *)
Definition insert_image_row (i : ImageRow) (rows : list ImageRow)
  : list ImageRow :=
  if has_file_id (file_id i) rows then rows else rows ++ [i].

(** [insert_image]. *)
Definition insert_image (i : ImageRow) : M unit :=
  io_point StoreError ;;
  emit (EvInsertImage (file_id i)) ;;
  fun s => (Ret tt, set_images (insert_image_row i (images s)) s).

(* ===================================================================== *)
(** ** [ImageHandler] *)

(** [message.photo]. *)
Definition message_photo (message : Message) : option Photo :=
  match m_media message with
  | Some (MessageMediaPhoto p) => p
  | _ => None
  end.

(** [c.isalnum()], as Python decides it on the code points a [string]
    holds (those below 256): the ASCII digits and letters, the superscripts
    and fractions [0xB2 0xB3 0xB9 0xBC 0xBD 0xBE], and the Latin-1 letters
    ([0xAA 0xB5 0xBA], [0xC0]-[0xFF] but the signs [0xD7] and [0xF7]). *)
Definition isalnum (c : ascii) : bool :=
  let n := nat_of_ascii c in
  ((Nat.leb 48 n && Nat.leb n 57) || (Nat.leb 65 n && Nat.leb n 90)
   || (Nat.leb 97 n && Nat.leb n 122)
   || Nat.eqb n 170 || (Nat.leb 178 n && Nat.leb n 179) || Nat.eqb n 181
   || (Nat.leb 185 n && Nat.leb n 186) || (Nat.leb 188 n && Nat.leb n 190)
   || (Nat.leb 192 n && Nat.leb n 214) || (Nat.leb 216 n && Nat.leb n 246)
   || (Nat.leb 248 n && Nat.leb n 255))%bool.

(** [c.isalnum() or c in "-_"]. *)
Definition filesystem_safe (c : ascii) : bool :=
  (isalnum c || Nat.eqb (nat_of_ascii c) 45 || Nat.eqb (nat_of_ascii c) 95)%bool.

Fixpoint sanitize (s : string) : string :=
  match s with
  | EmptyString => EmptyString
  | String c s' =>
      String (if filesystem_safe c then c else "_"%char) (sanitize s')
  end.

Section ImageHandler.

Variable cfg : Config.
Variable ext : Externals.

(** [get_file_path], relative to [base_dir]. *)
Definition get_file_path (message_datetime : Z) (channel_name fid extension : string)
  : result string :=
  let safe_file_id := sanitize fid in
  let filename := safe_file_id ++ "." ++ extension in
  match image_dir ext message_datetime channel_name with
  | Ret d => Ret (d ++ "/" ++ filename)
  | Raise e => Raise e
  end.

(** The colour-model normalisation before JPEG encoding. *)
Definition to_rgb (img : PILImage) : PILImage :=
  if (String.eqb (img_mode img) "RGBA" || String.eqb (img_mode img) "LA"
      || String.eqb (img_mode img) "P")%bool
  then {| img_format := None; img_mode := "RGB";
          img_width := img_width img; img_height := img_height img |}
  else if negb (String.eqb (img_mode img) "RGB")
  then {| img_format := None; img_mode := "RGB";
          img_width := img_width img; img_height := img_height img |}
  else img.

(** [img.resize((w, h), Image.Resampling.LANCZOS)]: Pillow raises
    [ValueError] unless both sides are positive. *)
Definition image_resize (img : PILImage) (w h : Z) : result PILImage :=
  if (Z.leb w 0 || Z.leb h 0)%bool
  then Raise (AssetError "height and width must be > 0")
  else Ret {| img_format := None; img_mode := img_mode img;
              img_width := w; img_height := h |}.

(** The body of the [try] block of [download_and_compress_photo]. *)
Definition download_and_compress_body (message : Message)
           (channel_name fid : string)
  : M (option (string * Z * Z * Z * Z)) :=
  emit (EvDownload fid) ;;
  photo_bytes <- lift (download_media ext (message_photo message)) ;;
  match photo_bytes with
  | None => ret None
  | Some bytes =>
      if negb (str_truthy bytes) then ret None
      else
        let original_size := len bytes in
        img <- lift (image_open ext bytes) ;;
        let original_width := img_width img in
        let original_height := img_height img in
        let img_format_name :=
          match img_format img with
          | Some f => if str_truthy f then str_lower ext f else "jpeg"
          | None => "jpeg"
          end in
        let keep := (String.eqb img_format_name "webp" && KEEP_WEBP cfg)%bool in
        let extension := if keep then "webp" else "jpg" in
        let should_compress := negb keep in
        let converts :=
          (should_compress && negb (String.eqb (img_mode img) "RGB"))%bool in
        let resizes := Z.ltb (MAX_IMAGE_WIDTH cfg) original_width in
        (if (converts || resizes)%bool then lift (image_load ext img)
         else ret tt) ;;
        let img1 := if keep then img else to_rgb img in
        img2 <- (if resizes
                 then lift (image_resize img1 (MAX_IMAGE_WIDTH cfg)
                              (scaled_height ext original_height
                                 (MAX_IMAGE_WIDTH cfg) original_width))
                 else ret img1) ;;
        path <- lift (get_file_path (m_date message) channel_name fid extension) ;;
        csize <- lift (image_save ext path img2
                         (if should_compress then "JPEG" else "WEBP")) ;;
        ret (Some (path, original_size, csize, img_width img2, img_height img2))
  end.

(** [ImageHandler.download_and_compress_photo]:
    [try: ... except Exception: return None]. *)
Definition download_and_compress_photo (message : Message)
           (channel_name fid : string)
  : M (option (string * Z * Z * Z * Z)) :=
  try_except (download_and_compress_body message channel_name fid)
             (fun _ => ret None).

End ImageHandler.

(* ===================================================================== *)
(** ** [NewsCollector] *)

(** [message.fwd_from is not None]. *)
Definition is_forward (message : Message) : bool :=
  match m_fwd_from message with
  | Some _ => true
  | None => false
  end.

(** The forward source channel: set when [from_id] is a [PeerChannel]. *)
Definition extract_forward_channel (message : Message) : option Z :=
  match m_fwd_from message with
  | Some fwd =>
      match from_id fwd with
      | Some (PeerChannel c) => Some c
      | _ => None
      end
  | None => None
  end.

(** The forward source post: [channel_post] when it is truthy. *)
Definition extract_forward_post (message : Message) : option Z :=
  match m_fwd_from message with
  | Some fwd =>
      match channel_post fwd with
      | Some p => if Z.eqb p 0 then None else Some p
      | None => None
      end
  | None => None
  end.

(** [message.grouped_id if message.grouped_id else None]. *)
Definition extract_grouped_id (message : Message) : option Z :=
  match m_grouped_id message with
  | Some g => if Z.eqb g 0 then None else Some g
  | None => None
  end.

(** The loop state of [process_channel]:
    [(latest_message_time, processed_count, collected_count)]. *)
Definition pass_state : Type := (option Z * Z * Z)%type.

Section Collector.

Variable cfg : Config.
Variable ext : Externals.

(** [self.exclusion_rules], loaded once by [initialize]. *)
Variable rules : list ExclusionRule.

(** [NewsCollector.process_single_photo].  [collector.py] imports its
    [ImageHandler] from [image_handler], which is not among the sources;
    [download_and_compress_photo] of [image_handler_old.py], of the same
    name and signature, stands for the method it calls. *)
Definition process_single_photo (message : Message) (cid : Z)
           (channel_name : string) : M unit :=
  match message_photo message with
  | None => raise (AttributeError "'NoneType' object has no attribute 'id'")
  | Some p =>
      let fid := str_of_int (photo_id p) in
      known <- image_exists fid ;;
      if known then ret tt
      else
        image_data <- download_and_compress_photo cfg ext message channel_name fid ;;
        match image_data with
        | Some (path, osize, csize, w, h) =>
            insert_image {| message_channel_id := cid;
                            message_message_id := m_id message;
                            file_id := fid;
                            file_path := path;
                            original_size := osize;
                            compressed_size := csize;
                            width := w;
                            height := h |}
        | None => ret tt
        end
  end.

(** The duplicate check of [process_message]:
    [(text_hash, is_duplicate, duplicate_of_channel_id,
      duplicate_of_message_id, message_text)]. *)
Definition duplicate_check (is_forwarded : bool) (message_text : option string)
  : M (option string * bool * option Z * option Z * option string) :=
  match message_text with
  | Some t =>
      if (negb is_forwarded && str_truthy t)%bool then
        let h := md5_hexdigest ext t in
        duplicate <- find_duplicate h ;;
        match duplicate with
        | Some (dc, dm) => ret (Some h, true, Some dc, Some dm, None)
        | None => ret (Some h, false, None, None, Some t)
        end
      else ret (None, false, None, None, Some t)
  | None => ret (None, false, None, None, None)
  end.

(** [NewsCollector.process_message]. *)
Definition process_message (message : Message) (cid : Z)
           (channel_name : string) : M (option MessageRow) :=
  let (should_collect, _) := should_collect_message cfg ext rules message in
  if negb should_collect then ret None
  else
    let message_text := or_empty (m_text message) in
    let message_has_photo := has_photo message in
    let is_forwarded := is_forward message in
    let message_text' := if is_forwarded then None else Some message_text in
    checked <- duplicate_check is_forwarded message_text' ;;
    let '(hash, is_dup, dup_c, dup_m, stored_text) := checked in
    let message_data :=
      {| channel_id := cid;
         message_id := m_id message;
         message_text := stored_text;
         message_datetime := m_date message;
         has_media := message_has_photo;
         is_duplicate := is_dup;
         is_forwarded := is_forwarded;
         duplicate_of_channel_id := dup_c;
         duplicate_of_message_id := dup_m;
         forward_from_channel_id := extract_forward_channel message;
         forward_from_message_id := extract_forward_post message;
         text_hash := hash;
         grouped_id := extract_grouped_id message |} in
    insert_message message_data ;;
    (if (message_has_photo && negb is_forwarded)%bool
     then process_single_photo message cid channel_name
     else ret tt) ;;
    ret (Some message_data).

(** The [async for] of [process_channel]: each step asks the platform for
    the next post, the last one finds the stream exhausted. *)
Fixpoint collect_loop (stream : list Message) (cid : Z)
         (channel_name : string) (st : pass_state) : M pass_state :=
  match stream with
  | [] => io_point PlatformError ;; ret st
  | message :: rest =>
      io_point PlatformError ;;
      let '(latest_message_time, processed_count, collected_count) := st in
      message_data <- process_message message cid channel_name ;;
      match message_data with
      | Some d =>
          collect_loop rest cid channel_name
            (Some (message_datetime d), processed_count + 1, collected_count + 1)
      | None =>
          collect_loop rest cid channel_name
            (latest_message_time, processed_count + 1, collected_count)
      end
  end.

(** [offset_date] of [process_channel]. *)
Definition offset_date (channel_info : ChannelRow) : Z :=
  match last_fetched_datetime channel_info with
  | Some t => t
  | None => START_DATE cfg
  end.

(** The [try] block of [process_channel]. *)
Definition channel_pass (channel_info : ChannelRow) : M pass_state :=
  let cid := telegram_channel_id channel_info in
  let channel_name := name channel_info in
  st <- collect_loop (iter_messages ext channel_name (offset_date channel_info))
          cid channel_name (None, 0, 0) ;;
  let '(latest_message_time, processed_count, collected_count) := st in
  match latest_message_time with
  | Some t => update_channel_last_fetched cid t
  | None => ret tt
  end ;;
  emit (EvChannelCompleted cid processed_count collected_count) ;;
  ret st.

(** [NewsCollector.process_channel]. *)
Definition process_channel (channel_info : ChannelRow) : M unit :=
  emit (EvProcessingChannel (telegram_channel_id channel_info)) ;;
  try_except (channel_pass channel_info ;; ret tt)
             (fun _ => emit (EvChannelError (telegram_channel_id channel_info))).

(** [for channel_info in channels: await self.process_channel(channel_info)]. *)
Fixpoint process_channels (chans : list ChannelRow) : M unit :=
  match chans with
  | [] => ret tt
  | channel_info :: rest =>
      process_channel channel_info ;; process_channels rest
  end.

End Collector.

(** [NewsCollector.run]: load the rules and the channel list, then process
    each channel in turn; a failure before the loop is fatal. *)
Definition run (cfg : Config) (ext : Externals) : M unit :=
  rules <- get_active_exclusion_rules ;;
  io_point PlatformError ;;
  chans <- get_all_channels ;;
  match chans with
  | [] => ret tt
  | _ => process_channels cfg ext rules chans
  end.

(* ===================================================================== *)
(** ** Observations on posts, stores and traces used in the statements *)

(** The text the evaluator looks at: [message.text or ""]. *)
Definition text_of (message : Message) : string := or_empty (m_text message).

(** The exclusion test as [should_collect_message] applies it. *)
Definition excluded (ext : Externals) (rules : list ExclusionRule)
           (message : Message) : bool :=
  (str_truthy (text_of message)
   && should_exclude_message ext (text_of message) rules)%bool.

(** The decision of the rule evaluator, without the reason. *)
Definition collects (cfg : Config) (ext : Externals)
           (rules : list ExclusionRule) (message : Message) : bool :=
  fst (should_collect_message cfg ext rules message).

(** The watermark updates recorded in a trace. *)
Definition watermark_updates (tr : list event) : list (Z * Z) :=
  flat_map (fun e => match e with
                     | EvUpdateLastFetched c t => [(c, t)]
                     | _ => []
                     end) tr.

(** The channels whose pass was entered. *)
Definition channel_starts (tr : list event) : list Z :=
  flat_map (fun e => match e with
                     | EvProcessingChannel c => [c]
                     | _ => []
                     end) tr.

(** The channels whose pass was aborted. *)
Definition channel_errors (tr : list event) : list Z :=
  flat_map (fun e => match e with
                     | EvChannelError c => [c]
                     | _ => []
                     end) tr.

(** Asset work: the image-existence query, the download, the image insert. *)
Definition is_asset_event (e : event) : bool :=
  match e with
  | EvImageExists _ | EvDownload _ | EvInsertImage _ => true
  | _ => false
  end.

Definition asset_events (tr : list event) : list event :=
  filter is_asset_event tr.

(** The fingerprint lookups recorded in a trace. *)
Definition fingerprint_lookups (tr : list event) : list string :=
  flat_map (fun e => match e with
                     | EvFindDuplicate h => [h]
                     | _ => []
                     end) tr.

(** The downloads started for a file id. *)
Definition downloads_of (fid : string) (tr : list event) : list event :=
  filter (fun e => match e with
                   | EvDownload f => String.eqb f fid
                   | _ => false
                   end) tr.

(** The watermark of a channel in the [channels] table. *)
Definition watermark (cid : Z) (rows : list ChannelRow) : option Z :=
  match find (fun c => Z.eqb (telegram_channel_id c) cid) rows with
  | Some c => last_fetched_datetime c
  | None => None
  end.

(** The posts of a stream the rule evaluator keeps. *)
Definition collected_of (cfg : Config) (ext : Externals)
           (rules : list ExclusionRule) (stream : list Message) : list Message :=
  filter (collects cfg ext rules) stream.

(** The greatest of a list of timestamps, from a lower bound. *)
Definition max_date (lo : Z) (ds : list Z) : Z := fold_right Z.max lo ds.


(** A computation never leaves the relation [R] between the store it starts
    from and the store it ends in, whether it returns or raises. *)
Definition stable {A} (R : Store -> Store -> Prop) (c : M A) : Prop :=
  forall s, R s (snd (c s)).

(** A relation on stores that every fault-consuming step respects. *)
Record frame (R : Store -> Store -> Prop) : Prop := {
  frame_refl : forall s, R s s;
  frame_trans : forall a b c, R a b -> R b c -> R a c;
  frame_faults : forall s l, R s (set_faults l s)
}.

(** [f] reads the same after as before. *)
Definition keeps {X} (f : Store -> X) : Store -> Store -> Prop :=
  fun s s' => f s' = f s.

(** The list [f] only gains entries at its end. *)
Definition grows {X} (f : Store -> list X) : Store -> Store -> Prop :=
  fun s s' => exists l, f s' = (f s ++ l)%list.

(** Every row of [messages] satisfies [P] after, if it did before. *)
Definition keeps_rows (P : MessageRow -> Prop) : Store -> Store -> Prop :=
  fun s s' => Forall P (messages s) -> Forall P (messages s').

(** What [download_and_compress_photo] hands back: it reads nothing of the
    store. *)
Definition asset_data (cfg : Config) (ext : Externals) (message : Message)
           (channel_name fid : string) : option (string * Z * Z * Z * Z) :=
  match fst (download_and_compress_photo cfg ext message channel_name fid
               {| messages := []; images := []; channels := [];
                  exclusion_rules := []; faults := []; trace := [] |}) with
  | Ret d => d
  | Raise _ => None
  end.

(** The record [process_message] builds for a collected post when the
    [messages] table holds [rows]. *)
Definition message_data_for (ext : Externals) (rows : list MessageRow)
           (message : Message) (cid : Z) : MessageRow :=
  let fingerprinted :=
    (negb (is_forward message) && str_truthy (text_of message))%bool in
  let h := md5_hexdigest ext (text_of message) in
  let duplicate := if fingerprinted then select_duplicate h rows else None in
  {| channel_id := cid;
     message_id := m_id message;
     message_text :=
       if is_forward message then None
       else match duplicate with
            | Some _ => None
            | None => Some (text_of message)
            end;
     message_datetime := m_date message;
     has_media := has_photo message;
     is_duplicate := match duplicate with Some _ => true | None => false end;
     is_forwarded := is_forward message;
     duplicate_of_channel_id := option_map fst duplicate;
     duplicate_of_message_id := option_map snd duplicate;
     forward_from_channel_id := extract_forward_channel message;
     forward_from_message_id := extract_forward_post message;
     text_hash := if fingerprinted then Some h else None;
     grouped_id := extract_grouped_id message |}.

(** The [images] table after the photo stage of a collected post. *)
Definition images_after (cfg : Config) (ext : Externals)
           (imgs : list ImageRow) (message : Message) (cid : Z)
           (channel_name : string) : list ImageRow :=
  match message_photo message with
  | Some p =>
      if is_forward message then imgs
      else
        let fid := str_of_int (photo_id p) in
        if has_file_id fid imgs then imgs
        else match asset_data cfg ext message channel_name fid with
             | Some (path, osize, csize, w, h) =>
                 insert_image_row
                   {| message_channel_id := cid;
                      message_message_id := m_id message;
                      file_id := fid; file_path := path;
                      original_size := osize; compressed_size := csize;
                      width := w; height := h |} imgs
             | None => imgs
             end
  | None => imgs
  end.

(** The two tables after one post went through the pipeline without a
    store fault. *)
Definition tables_after (cfg : Config) (ext : Externals)
           (rules : list ExclusionRule) (cid : Z) (channel_name : string)
           (tabs : list MessageRow * list ImageRow) (message : Message)
  : list MessageRow * list ImageRow :=
  if collects cfg ext rules message
  then (insert_message_row (message_data_for ext (fst tabs) message cid) (fst tabs),
        images_after cfg ext (snd tabs) message cid channel_name)
  else tabs.

(** The effects of the photo stage, in order. *)
Definition photo_events (cfg : Config) (ext : Externals)
           (imgs : list ImageRow) (message : Message)
           (channel_name : string) : list event :=
  match message_photo message with
  | Some p =>
      let fid := str_of_int (photo_id p) in
      EvImageExists fid ::
        (if has_file_id fid imgs then []
         else EvDownload fid ::
                match asset_data cfg ext message channel_name fid with
                | Some _ => [EvInsertImage fid]
                | None => []
                end)
  | None => []
  end.

(** The effects of one post going through the pipeline without a store
    fault, in order. *)
Definition post_events (cfg : Config) (ext : Externals)
           (rules : list ExclusionRule) (cid : Z) (channel_name : string)
           (tabs : list MessageRow * list ImageRow) (message : Message)
  : list event :=
  if collects cfg ext rules message then
    ((if (negb (is_forward message) && str_truthy (text_of message))%bool
      then [EvFindDuplicate (md5_hexdigest ext (text_of message))]
      else [])
     ++ [EvInsertMessage cid (m_id message)]
     ++ (if (has_photo message && negb (is_forward message))%bool
         then photo_events cfg ext (snd tabs) message channel_name
         else []))%list
  else [].

(** The two tables after a whole stream. *)
Definition tables_after_stream (cfg : Config) (ext : Externals)
           (rules : list ExclusionRule) (cid : Z) (channel_name : string)
           (stream : list Message) (tabs : list MessageRow * list ImageRow)
  : list MessageRow * list ImageRow :=
  fold_left (tables_after cfg ext rules cid channel_name) stream tabs.

(** The loop state after a whole stream. *)
Definition pass_state_after (cfg : Config) (ext : Externals)
           (rules : list ExclusionRule) (stream : list Message)
           (st : pass_state) : pass_state :=
  fold_left (fun st m =>
               let '(latest, processed, collected) := st in
               if collects cfg ext rules m
               then (Some (m_date m), processed + 1, collected + 1)
               else (latest, processed + 1, collected))
            stream st.

(** What [message.photo.id] raises when [message.photo] is [None]. *)
Definition photo_missing_error : exn :=
  AttributeError "'NoneType' object has no attribute 'id'".

(** A post whose photo stage raises at [message.photo.id]: a collected
    post with photo media, not a forward, whose photo object is missing. *)
Definition aborts (cfg : Config) (ext : Externals)
           (rules : list ExclusionRule) (message : Message) : bool :=
  (collects cfg ext rules message && has_photo message
   && negb (is_forward message)
   && match message_photo message with
      | Some _ => false
      | None => true
      end)%bool.

(** The posts of a stream a pass gets to when no call faults: all of them,
    or those up to the first whose photo stage raises. *)
Fixpoint reached (cfg : Config) (ext : Externals)
         (rules : list ExclusionRule) (stream : list Message)
  : list Message :=
  match stream with
  | [] => []
  | m :: rest =>
      if aborts cfg ext rules m then [m]
      else m :: reached cfg ext rules rest
  end.

(** No post of the stream has its photo object missing. *)
Definition completes (cfg : Config) (ext : Externals)
           (rules : list ExclusionRule) (stream : list Message) : bool :=
  forallb (fun m => negb (aborts cfg ext rules m)) stream.

(** The posts a run gets to when no call faults, channel after channel:
    each with the channel id and name it is processed under. *)
Definition backlog_items (cfg : Config) (ext : Externals)
           (rules : list ExclusionRule)
           (chans : list ChannelRow) : list (Z * string * Message) :=
  flat_map (fun ci =>
              map (fun m => (telegram_channel_id ci, name ci, m))
                  (reached cfg ext rules
                     (iter_messages ext (name ci) (offset_date cfg ci))))
           chans.

Definition tables_after_item (cfg : Config) (ext : Externals)
           (rules : list ExclusionRule)
           (tabs : list MessageRow * list ImageRow)
           (item : Z * string * Message) : list MessageRow * list ImageRow :=
  let '(cid, channel_name, m) := item in
  tables_after cfg ext rules cid channel_name tabs m.

Definition tables_after_items (cfg : Config) (ext : Externals)
           (rules : list ExclusionRule) (items : list (Z * string * Message))
           (tabs : list MessageRow * list ImageRow)
  : list MessageRow * list ImageRow :=
  fold_left (tables_after_item cfg ext rules) items tabs.

(** A post the two tables have nothing left to learn from: it is dropped
    by the rule evaluator, or its key is stored and its photo is a
    forward's, is stored, or cannot be fetched. *)
Definition settled (cfg : Config) (ext : Externals)
           (rules : list ExclusionRule)
           (tabs : list MessageRow * list ImageRow)
           (item : Z * string * Message) : Prop :=
  let '(cid, channel_name, m) := item in
  collects cfg ext rules m = true ->
  existsb (same_key cid (m_id m)) (fst tabs) = true
  /\ match message_photo m with
     | Some p =>
         is_forward m = true
         \/ has_file_id (str_of_int (photo_id p)) (snd tabs) = true
         \/ asset_data cfg ext m channel_name (str_of_int (photo_id p)) = None
     | None => True
     end.

(** [r] is the one stored record the duplicate lookup can answer for the
    fingerprint [h]. *)
Definition sole_original (h : string) (r : MessageRow)
           (rows : list MessageRow) : Prop :=
  In r rows
  /\ duplicate_candidate h r = true
  /\ forall r', In r' rows -> duplicate_candidate h r' = true -> r' = r.

(** The post a record came from carried text: the record still holds a
    non-empty text, or it is a duplicate, whose text was dropped. *)
Definition text_bearing (r : MessageRow) : Prop :=
  is_duplicate r = true
  \/ exists t, message_text r = Some t /\ t <> "".

(** The fingerprint rule the stored records obey: a fingerprint exactly on
    the records of non-forward, text-bearing posts, duplicates included;
    a duplicate has no text; a forward has neither text nor fingerprint. *)
Definition fingerprint_rule (r : MessageRow) : Prop :=
  (text_hash r <> None <-> is_forwarded r = false /\ text_bearing r)
  /\ (is_duplicate r = true -> text_hash r <> None /\ message_text r = None)
  /\ (is_forwarded r = true -> text_hash r = None /\ message_text r = None).

(* ===================================================================== *)
(** ** Concrete posts, rules and platforms used in the examples *)

(** The default configuration of [config.py]. *)
Definition default_cfg : Config :=
  {| MIN_TEXT_LENGTH := 50;
     START_DATE := 0;
     MAX_IMAGE_WIDTH := 1280;
     IMAGE_QUALITY := 75;
     KEEP_WEBP := true |}.

(** A platform that serves [backlog] after the offset date and decodes
    every photo as an 800x600 RGB JPEG. *)
Definition sample_ext (backlog : list Message) : Externals :=
  {| str_lower := ascii_lower;
     md5_hexdigest := fun t => "md5:" ++ t;
     iter_messages := fun _ offset => filter (fun m => Z.ltb offset (m_date m)) backlog;
     download_media := fun p =>
       match p with
       | Some _ => Ret (Some "rawbytes")
       | None => Ret None
       end;
     image_open := fun _ =>
       Ret {| img_format := Some "JPEG"; img_mode := "RGB";
              img_width := 800; img_height := 600 |};
     image_load := fun _ => Ret tt;
     scaled_height := fun h mw w => h * mw / w;
     image_dir := fun _ channel_name => Ret ("2025/05/01/" ++ channel_name);
     image_save := fun _ _ _ => Ret 4 |}.

(** The same platform serving a strip of 3000 by 1 pixels, which scales to
    a height of zero. *)
Definition strip_ext (backlog : list Message) : Externals :=
  {| str_lower := ascii_lower;
     md5_hexdigest := fun t => "md5:" ++ t;
     iter_messages := fun _ offset => filter (fun m => Z.ltb offset (m_date m)) backlog;
     download_media := fun p =>
       match p with
       | Some _ => Ret (Some "rawbytes")
       | None => Ret None
       end;
     image_open := fun _ =>
       Ret {| img_format := Some "JPEG"; img_mode := "RGB";
              img_width := 3000; img_height := 1 |};
     image_load := fun _ => Ret tt;
     scaled_height := fun h mw w => h * mw / w;
     image_dir := fun _ channel_name => Ret ("2025/05/01/" ++ channel_name);
     image_save := fun _ _ _ => Ret 4 |}.

(** The same platform with every media download failing. *)
Definition offline_ext (backlog : list Message) : Externals :=
  {| str_lower := ascii_lower;
     md5_hexdigest := fun t => "md5:" ++ t;
     iter_messages := fun _ offset => filter (fun m => Z.ltb offset (m_date m)) backlog;
     download_media := fun _ => Raise (AssetError "connection reset");
     image_open := fun _ => Raise (AssetError "cannot identify image file");
     image_load := fun _ => Raise (AssetError "image file is truncated");
     scaled_height := fun h mw w => h * mw / w;
     image_dir := fun _ channel_name => Ret ("2025/05/01/" ++ channel_name);
     image_save := fun _ _ _ => Raise (AssetError "disk full") |}.

Definition empty_store : Store :=
  {| messages := []; images := []; channels := [];
     exclusion_rules := []; faults := []; trace := [] |}.

(** A 50-character text, and the same text one character short. *)
Definition text50 : string := "Flood warning issued for the delta region tonight.".
Definition text49 : string := "Flood warning issued for the delta region tonight".

Definition text_post (i : Z) (t : string) (d : Z) : Message :=
  {| m_id := i; m_text := Some t; m_date := d; m_media := None;
     m_fwd_from := None; m_grouped_id := None |}.

Definition photo_post (i : Z) (t : option string) (d : Z) (p : Z) : Message :=
  {| m_id := i; m_text := t; m_date := d;
     m_media := Some (MessageMediaPhoto (Some {| photo_id := p |}));
     m_fwd_from := None; m_grouped_id := None |}.

(** A photo post whose photo object is missing. *)
Definition expired_photo_post (i : Z) (t : option string) (d : Z) : Message :=
  {| m_id := i; m_text := t; m_date := d;
     m_media := Some (MessageMediaPhoto None);
     m_fwd_from := None; m_grouped_id := None |}.

(** [message] with its forward header replaced. *)
Definition with_fwd_from (f : option MessageFwdHeader) (message : Message)
  : Message :=
  {| m_id := m_id message; m_text := m_text message; m_date := m_date message;
     m_media := m_media message; m_fwd_from := f;
     m_grouped_id := m_grouped_id message |}.

Definition forwarded (c p : Z) (message : Message) : Message :=
  with_fwd_from (Some {| from_id := Some (PeerChannel c);
                         channel_post := Some p |}) message.

(** An active rule of kind [exact] whose pattern is the empty string. *)
Definition empty_exact_rule : ExclusionRule :=
  {| pattern := ""; rule_type := "exact"; is_case_sensitive := false |}.

Definition subscribe_rule : ExclusionRule :=
  {| pattern := "Subscribe now"; rule_type := "contains";
     is_case_sensitive := false |}.

(** One channel and a small backlog: an original, a photo post, a repost
    of the original's text, a forwarded photo post, a post too short. *)
Definition sample_channel : ChannelRow :=
  {| telegram_channel_id := 42; name := "delta_news";
     last_fetched_datetime := None |}.

Definition sample_backlog : list Message :=
  [ text_post 1 text50 100;
    photo_post 2 (Some "Bridge reopened") 110 7001;
    text_post 3 text50 120;
    forwarded 900 5 (photo_post 4 (Some text50) 130 7002);
    text_post 5 "Short note" 140 ].

Definition sample_store : Store :=
  {| messages := []; images := []; channels := [sample_channel];
     exclusion_rules :=
       [ {| rule_id := 1; rule := subscribe_rule; is_active := true |} ];
     faults := []; trace := [] |}.

(** The store the sample run leaves, and the record of its first post. *)
Definition sample_replayed : Store :=
  snd (process_channels default_cfg (sample_ext sample_backlog)
         [subscribe_rule] [sample_channel] sample_store).

Definition sample_row1 : MessageRow :=
  message_data_for (sample_ext sample_backlog) [] (text_post 1 text50 100) 42.


(* ===================================================================== *)
(** ** [Database]: the operations the collector loop does not call *)

(** The primary key of [channels]. *)
Definition has_channel (cid : Z) (rows : list ChannelRow) : bool :=
  existsb (fun c => Z.eqb (telegram_channel_id c) cid) rows.

(** [INSERT INTO channels (telegram_channel_id, name, display_name,
    category) ... ON CONFLICT (telegram_channel_id) DO NOTHING]: the new
    row has no [last_fetched_datetime].  The table model keeps the columns
    the collector reads. *)
Definition add_channel_row (channel_name : string) (cid : Z)
           (rows : list ChannelRow) : list ChannelRow :=
  if has_channel cid rows then rows
  else rows ++ [ {| telegram_channel_id := cid; name := channel_name;
                    last_fetched_datetime := None |} ].

(** [Database.add_channel]. *)
Definition add_channel (channel_name : string) (cid : Z) : M unit :=
  io_point StoreError ;;
  fun s => (Ret tt, set_channels (add_channel_row channel_name cid (channels s)) s).

(** A Python [dict] with [str] keys: insertion order kept, one entry per
    key. *)
Definition dict (V : Type) : Type := list (string * V).

(** [d[k] = v]: overwrite in place, or append. *)
Fixpoint dict_set {V} (k : string) (v : V) (d : dict V) : dict V :=
  match d with
  | [] => [(k, v)]
  | (k', v') :: d' =>
      if String.eqb k' k then (k', v) :: d'
      else (k', v') :: dict_set k v d'
  end.

(** [d.get(k)]. *)
Fixpoint dict_get {V} (k : string) (d : dict V) : option V :=
  match d with
  | [] => None
  | (k', v') :: d' => if String.eqb k' k then Some v' else dict_get k d'
  end.

(** The [WHERE] clause of [find_duplicates_batch]:
    [text_hash = ANY($1) AND is_duplicate = 0]. *)
Definition batch_candidate (text_hashes : list string) (r : MessageRow) : bool :=
  (match text_hash r with
   | Some h => existsb (String.eqb h) text_hashes
   | None => false
   end && negb (is_duplicate r))%bool.

(** [{row['text_hash']: (row['channel_id'], row['message_id'])
     for row in rows}]. *)
Definition rows_to_dict (rows : list MessageRow) : dict (Z * Z) :=
  fold_left (fun d r =>
               match text_hash r with
               | Some h => dict_set h (channel_id r, message_id r) d
               | None => d
               end)
            rows [].

(** [Database.find_duplicates_batch]: no query for an empty list. *)
Definition find_duplicates_batch (text_hashes : list string)
  : M (dict (Z * Z)) :=
  match text_hashes with
  | [] => ret []
  | _ =>
      io_point StoreError ;;
      fun s =>
        (Ret (rows_to_dict (filter (batch_candidate text_hashes) (messages s))),
         s)
  end.

(** The rows of [executemany] over the insert-or-ignore statement. *)
Definition bulk_insert_rows (new_rows rows : list MessageRow)
  : list MessageRow :=
  fold_left (fun acc r => insert_message_row r acc) new_rows rows.

(** [Database.bulk_insert_messages]: nothing is sent for an empty list. *)
Definition bulk_insert_messages (new_rows : list MessageRow) : M unit :=
  match new_rows with
  | [] => ret tt
  | _ =>
      io_point StoreError ;;
      fun s => (Ret tt, set_messages (bulk_insert_rows new_rows (messages s)) s)
  end.

(* ===================================================================== *)
(** ** [database_sqlite.Database]: where it differs *)

Section Sqlite.

Variable ext : Externals.

(** [should_exclude_message] of the SQLite backend:
    [if not message_text or not rules: return False], then the same loop
    over the rules. *)
Definition sqlite_should_exclude_message (message_text : string)
           (rules : list ExclusionRule) : bool :=
  if (negb (str_truthy message_text)
      || match rules with [] => true | _ :: _ => false end)%bool
  then false
  else should_exclude_message ext message_text rules.

(** [calculate_text_hash] of the SQLite backend: [""] for an empty text. *)
Definition sqlite_calculate_text_hash (text : string) : string :=
  if negb (str_truthy text) then "" else md5_hexdigest ext text.

(** [find_duplicate] of the SQLite backend:
    [if not text_hash: return None], then the same query. *)
Definition sqlite_find_duplicate (h : string) : M (option (Z * Z)) :=
  if negb (str_truthy h) then ret None
  else find_duplicate h.

End Sqlite.

(* ===================================================================== *)
(** ** Properties of tables used in the statements *)

(** The key of a stored post. *)
Definition message_key (r : MessageRow) : Z * Z :=
  (channel_id r, message_id r).

(** No two rows of [messages] share a key. *)
Definition unique_keys (rows : list MessageRow) : Prop :=
  NoDup (map message_key rows).

(** No two rows of [images] share a file id. *)
Definition unique_file_ids (rows : list ImageRow) : Prop :=
  NoDup (map file_id rows).

(** At most one record per fingerprint can answer the duplicate lookup. *)
Definition unique_originals (rows : list MessageRow) : Prop :=
  forall h r1 r2,
    In r1 rows -> In r2 rows ->
    duplicate_candidate h r1 = true -> duplicate_candidate h r2 = true ->
    r1 = r2.

(** Every image belongs to a stored post. *)
Definition images_owned (s : Store) : Prop :=
  forall i, In i (images s) ->
            existsb (same_key (message_channel_id i) (message_message_id i))
                    (messages s) = true.

(** [Q] holds of [messages] after, if it held before. *)
Definition keeps_table (Q : list MessageRow -> Prop)
  : Store -> Store -> Prop :=
  fun s s' => Q (messages s) -> Q (messages s').

(** [Q] holds of [images] after, if it held before. *)
Definition keeps_image_table (Q : list ImageRow -> Prop)
  : Store -> Store -> Prop :=
  fun s s' => Q (images s) -> Q (images s').

(** [Q] holds of the store after, if it held before. *)
Definition keeps_store (Q : Store -> Prop) : Store -> Store -> Prop :=
  fun s s' => Q s -> Q s'.

(** A store holding the record of the first sample post only. *)
Definition one_post_store : Store :=
  {| messages := [sample_row1]; images := []; channels := [sample_channel];
     exclusion_rules := []; faults := []; trace := [] |}.

(** One [insert_message] per row, in order. *)
Fixpoint insert_each (rows : list MessageRow) : M unit :=
  match rows with
  | [] => ret tt
  | r :: rest => insert_message r ;; insert_each rest
  end.

(** Every record marked duplicate names a stored original: a record with
    the key in its [duplicate_of] columns, the same fingerprint and an
    unset [is_duplicate] flag. *)
Definition targets_resolve (rows : list MessageRow) : Prop :=
  forall r,
    In r rows -> is_duplicate r = true ->
    exists o,
      In o rows
      /\ duplicate_of_channel_id r = Some (channel_id o)
      /\ duplicate_of_message_id r = Some (message_id o)
      /\ is_duplicate o = false
      /\ text_hash o = text_hash r
      /\ text_hash r <> None.

(** Every stored post belongs to a channel of the table. *)
Definition posts_have_channels (s : Store) : Prop :=
  forall r, In r (messages s) ->
            has_channel (channel_id r) (channels s) = true.

(** The channel table keeps its ids and names, and every post that is new
    in [messages] belongs to a channel of [allowed]. *)
Definition within (allowed : list Z) : Store -> Store -> Prop :=
  fun s s' =>
    map telegram_channel_id (channels s') = map telegram_channel_id (channels s)
    /\ map name (channels s') = map name (channels s)
    /\ forall r, In r (messages s') ->
                 In r (messages s) \/ In (channel_id r) allowed.

(* ===================================================================== *)
(** ** The viewer's reader (news_viewer/database_reader.py) *)

(** The row [get_original_message] hands back; of the joined channel the
    table model has the name. *)
Record OriginalMessage : Type := {
  om_channel_id : Z;
  om_message_id : Z;
  om_message_text : option string;
  om_message_datetime : Z;
  om_channel_name : string
}.

(** [FROM messages m JOIN channels c ON m.channel_id = c.telegram_channel_id
     WHERE m.channel_id = $1 AND m.message_id = $2]. *)
Definition original_rows (cid mid : Z) (s : Store) : list OriginalMessage :=
  flat_map
    (fun m =>
       map (fun c => {| om_channel_id := channel_id m;
                        om_message_id := message_id m;
                        om_message_text := message_text m;
                        om_message_datetime := message_datetime m;
                        om_channel_name := name c |})
           (filter (fun c => Z.eqb (channel_id m) (telegram_channel_id c))
                   (channels s)))
    (filter (same_key cid mid) (messages s)).

(** [DatabaseReader.get_original_message]: [fetchrow], then
    [dict(row) if row else None]. *)
Definition get_original_message (cid mid : Z) : M (option OriginalMessage) :=
  io_point StoreError ;;
  fun s => (Ret (hd_error (original_rows cid mid s)), s).

(* ===================================================================== *)
(** ** The viewer's news routes (news_viewer/backend/routes/news.py) *)

(** [offset = (page - 1) * page_size]. *)
Definition page_offset (page page_size : Z) : Z := (page - 1) * page_size.

(** [total_pages = (total + page_size - 1) // page_size]. *)
Definition total_pages (total page_size : Z) : Z :=
  (total + page_size - 1) / page_size.

(** An entry of the [images] column of a fetched row, decoded. *)
Record NewsImage : Type := {
  ni_id : Z;
  ni_file_path : string;
  ni_width : Z;
  ni_height : Z
}.

(** A row of [messages_query], its [images] column decoded. *)
Record NewsRow : Type := {
  nr_id : Z;
  nr_channel_id : Z;
  nr_message_id : Z;
  nr_message_text : option string;
  nr_message_datetime : Z;
  nr_has_media : Z;
  nr_grouped_id : option Z;
  nr_is_favorited : bool;
  nr_channel_name : option string;
  nr_channel_display_name : option string;
  nr_group_key : string;
  nr_images : list NewsImage
}.

(** An entry of [grouped_data]. *)
Record NewsGroup : Type := {
  ng_id : Z;
  ng_channel_id : Z;
  ng_message_id : Z;
  ng_message_text : string;
  ng_message_datetime : string;
  ng_has_media : bool;
  ng_grouped_id : option Z;
  ng_is_favorited : bool;
  ng_channel_name : option string;
  ng_channel_display_name : option string;
  ng_images : list NewsImage
}.

(** [group["images"] = images]. *)
Definition with_images (images : list NewsImage) (g : NewsGroup) : NewsGroup :=
  {| ng_id := ng_id g; ng_channel_id := ng_channel_id g;
     ng_message_id := ng_message_id g;
     ng_message_text := ng_message_text g;
     ng_message_datetime := ng_message_datetime g;
     ng_has_media := ng_has_media g; ng_grouped_id := ng_grouped_id g;
     ng_is_favorited := ng_is_favorited g;
     ng_channel_name := ng_channel_name g;
     ng_channel_display_name := ng_channel_display_name g;
     ng_images := images |}.

(** [group["message_text"] = text]. *)
Definition with_text (text : string) (g : NewsGroup) : NewsGroup :=
  {| ng_id := ng_id g; ng_channel_id := ng_channel_id g;
     ng_message_id := ng_message_id g;
     ng_message_text := text;
     ng_message_datetime := ng_message_datetime g;
     ng_has_media := ng_has_media g; ng_grouped_id := ng_grouped_id g;
     ng_is_favorited := ng_is_favorited g;
     ng_channel_name := ng_channel_name g;
     ng_channel_display_name := ng_channel_display_name g;
     ng_images := ng_images g |}.

Section NewsRoutes.

(** [datetime.isoformat]. *)
Variable isoformat : Z -> string.

(** The entry made for the first row of a group. *)
Definition new_group (msg : NewsRow) : NewsGroup :=
  {| ng_id := nr_id msg;
     ng_channel_id := nr_channel_id msg;
     ng_message_id := nr_message_id msg;
     ng_message_text := or_empty (nr_message_text msg);
     ng_message_datetime := isoformat (nr_message_datetime msg);
     ng_has_media := negb (Z.eqb (nr_has_media msg) 0);
     ng_grouped_id := nr_grouped_id msg;
     ng_is_favorited := nr_is_favorited msg;
     ng_channel_name := nr_channel_name msg;
     ng_channel_display_name := nr_channel_display_name msg;
     ng_images := [] |}.

(** The body of [for msg in messages] in [get_raw_news].  The entry of
    [group_key] exists from the first statement on, so the lookups after it
    cannot miss. *)
Definition group_step (grouped_data : dict NewsGroup) (msg : NewsRow)
  : dict NewsGroup :=
  let group_key := nr_group_key msg in
  let images := nr_images msg in
  let d1 :=
    match dict_get group_key grouped_data with
    | None => dict_set group_key (new_group msg) grouped_data
    | Some _ => grouped_data
    end in
  let d2 :=
    match images with
    | [] => d1
    | _ :: _ =>
        match dict_get group_key d1 with
        | Some g =>
            dict_set group_key (with_images (ng_images g ++ images) g) d1
        | None => d1
        end
    end in
  match dict_get group_key d2 with
  | Some g =>
      if (str_truthy (or_empty (nr_message_text msg))
          && negb (str_truthy (ng_message_text g)))%bool
      then dict_set group_key (with_text (or_empty (nr_message_text msg)) g) d2
      else d2
  | None => d2
  end.

(** [grouped_data] after the loop. *)
Definition group_messages (messages : list NewsRow) : dict NewsGroup :=
  fold_left group_step messages [].

(** [messages_list = list(grouped_data.values())]. *)
Definition messages_list (messages : list NewsRow) : list NewsGroup :=
  map snd (group_messages messages).

End NewsRoutes.

(** The rows of one group, in fetch order. *)
Definition rows_of_group (k : string) (rows : list NewsRow) : list NewsRow :=
  filter (fun r => String.eqb (nr_group_key r) k) rows.

(** The first non-empty text among rows, [""] if there is none. *)
Definition first_text (rows : list NewsRow) : string :=
  match find (fun r => str_truthy (or_empty (nr_message_text r))) rows with
  | Some r => or_empty (nr_message_text r)
  | None => ""
  end.

(** The keys of a list in order of first occurrence. *)
Definition first_occurrences (keys : list string) : list string :=
  rev (nodup string_dec (rev keys)).

(** The table [user_favorites], primary key [(user_id, news_id)], both
    columns [INTEGER]. *)
Definition favorites : Type := list (Z * Z).

(** The values of a PostgreSQL [INTEGER]. *)
Definition int4 (n : Z) : bool :=
  (Z.leb (-2147483648) n && Z.leb n 2147483647)%bool.

Definition is_favorite (user_id news_id : Z) (favs : favorites) : bool :=
  existsb (fun f => (Z.eqb (fst f) user_id && Z.eqb (snd f) news_id)%bool) favs.

(** [toggle_favorite]: the response and the table after the call.
    [message_id] is a path parameter, any [int]; [user_id] is the id of the
    authenticated user.  The first query binds both to [INTEGER] columns:
    the driver raises [DataError] for a value out of that range, before
    anything is written.  Past that, the connection is taken to hold. *)
Definition toggle_favorite (user_id message_id : Z) (favs : favorites)
  : result (string * bool) * favorites :=
  if negb (int4 user_id && int4 message_id) then (Raise DataError, favs)
  else if is_favorite user_id message_id favs
  then (Ret ("removed", false),
        filter (fun f => negb (Z.eqb (fst f) user_id && Z.eqb (snd f) message_id))
               favs)
  else (Ret ("added", true), (favs ++ [(user_id, message_id)])%list).

(** What one more row of its group does to an entry of [grouped_data]. *)
Definition merge_row (msg : NewsRow) (g : NewsGroup) : NewsGroup :=
  let g1 := with_images (ng_images g ++ nr_images msg) g in
  if (str_truthy (or_empty (nr_message_text msg))
      && negb (str_truthy (ng_message_text g1)))%bool
  then with_text (or_empty (nr_message_text msg)) g1
  else g1.

(** Three fetched rows: an album of two photos whose caption sits on the
    second row, then a single post. *)
Definition sample_news_rows : list NewsRow :=
  [ {| nr_id := 10; nr_channel_id := 42; nr_message_id := 7;
       nr_message_text := None; nr_message_datetime := 100;
       nr_has_media := 1; nr_grouped_id := Some 555;
       nr_is_favorited := false; nr_channel_name := Some "delta_news";
       nr_channel_display_name := Some "Delta News";
       nr_group_key := "555";
       nr_images := [ {| ni_id := 1; ni_file_path := "a.jpg";
                         ni_width := 800; ni_height := 600 |} ] |};
    {| nr_id := 11; nr_channel_id := 42; nr_message_id := 8;
       nr_message_text := Some "Bridge reopened"; nr_message_datetime := 100;
       nr_has_media := 1; nr_grouped_id := Some 555;
       nr_is_favorited := false; nr_channel_name := Some "delta_news";
       nr_channel_display_name := Some "Delta News";
       nr_group_key := "555";
       nr_images := [ {| ni_id := 2; ni_file_path := "b.jpg";
                         ni_width := 800; ni_height := 600 |} ] |};
    {| nr_id := 9; nr_channel_id := 42; nr_message_id := 6;
       nr_message_text := Some text50; nr_message_datetime := 90;
       nr_has_media := 0; nr_grouped_id := None;
       nr_is_favorited := true; nr_channel_name := Some "delta_news";
       nr_channel_display_name := Some "Delta News";
       nr_group_key := "9";
       nr_images := [] |} ].
(* ===================================================================== *)
(** * Properties of the rule evaluator *)

Section RuleEvaluatorFacts.

Variable cfg : Config.
Variable ext : Externals.
Variable rules : list ExclusionRule.

Lemma str_truthy_false (s : string) : str_truthy s = false <-> s = "".
Proof. destruct s; cbn; split; congruence. Qed.

Lemma str_truthy_true (s : string) : str_truthy s = true <-> s <> "".
Proof. destruct s; cbn; split; congruence. Qed.

(** The nested tests of [should_collect_message] as one boolean formula. *)
Lemma collects_closed_form (message : Message) :
  collects cfg ext rules message =
  (negb (excluded ext rules message)
   && (has_photo message
       || Z.leb (MIN_TEXT_LENGTH cfg) (len (text_of message))))%bool.
Proof.
  unfold collects, should_collect_message, excluded, text_of.
  destruct (str_truthy (or_empty (m_text message))
            && should_exclude_message ext (or_empty (m_text message)) rules)%bool;
    [reflexivity|].
  destruct (has_photo message); [reflexivity|].
  rewrite Bool.andb_true_r. cbn [negb andb orb].
  rewrite Z.leb_antisym.
  destruct (media_truthy message);
    destruct (Z.ltb (len (or_empty (m_text message))) (MIN_TEXT_LENGTH cfg));
    reflexivity.
Qed.

Lemma collects_ignores_forward (f : option MessageFwdHeader)
      (message : Message) :
  should_collect_message cfg ext rules (with_fwd_from f message) =
  should_collect_message cfg ext rules message.
Proof. reflexivity. Qed.

Lemma excluded_reason (message : Message) :
  excluded ext rules message = true <->
  snd (should_collect_message cfg ext rules message) = "matched exclusion rule".
Proof.
  unfold excluded, should_collect_message, text_of.
  destruct (str_truthy (or_empty (m_text message))
            && should_exclude_message ext (or_empty (m_text message)) rules)%bool.
  - cbn. tauto.
  - split; [discriminate|].
    destruct (has_photo message); [cbn; discriminate|].
    destruct (media_truthy message && negb false)%bool;
      destruct (Z.ltb _ _); cbn; discriminate.
Qed.

End RuleEvaluatorFacts.

(** C3, as stated, fails: a photo post with no caption matches the
    empty-pattern [exact] rule, yet it is collected, because the exclusion
    rules are consulted for non-empty text only. *)
Lemma exclusion_of_empty_text_counterexample :
  should_exclude_message (sample_ext [])
    (text_of (photo_post 1 None 10 7)) [empty_exact_rule] = true
  /\ has_photo (photo_post 1 None 10 7) = true
  /\ should_collect_message default_cfg (sample_ext []) [empty_exact_rule]
       (photo_post 1 None 10 7) = (true, "has photo").
Proof. repeat split. Qed.

(** C3 (amended).  The rule evaluator decides, first match first:
    (1) a post whose text is non-empty and matches an active exclusion rule
    is dropped, photo or not; (2) otherwise a photo post is collected
    whatever its text length; (3) otherwise a post with other media is
    collected iff its text has at least [MIN_TEXT_LENGTH] characters;
    (4) otherwise a text-only post is collected iff its text has at least
    [MIN_TEXT_LENGTH] characters: exactly the minimum is collected, one
    character short is dropped. *)
Theorem rule_evaluator_decision (cfg : Config) (ext : Externals)
        (rules : list ExclusionRule) (message : Message) :
  (text_of message <> ""
   -> should_exclude_message ext (text_of message) rules = true
   -> collects cfg ext rules message = false)
  /\ (excluded ext rules message = false
      -> has_photo message = true
      -> collects cfg ext rules message = true)
  /\ (excluded ext rules message = false
      -> has_photo message = false
      -> m_media message <> None
      -> (collects cfg ext rules message = true
          <-> MIN_TEXT_LENGTH cfg <= len (text_of message)))
  /\ (excluded ext rules message = false
      -> m_media message = None
      -> (collects cfg ext rules message = true
          <-> MIN_TEXT_LENGTH cfg <= len (text_of message))
         /\ (len (text_of message) = MIN_TEXT_LENGTH cfg
             -> collects cfg ext rules message = true)
         /\ (len (text_of message) = MIN_TEXT_LENGTH cfg - 1
             -> collects cfg ext rules message = false)).
Proof.
  rewrite collects_closed_form.
  split; [|split; [|split]].
  - intros Hne Hex. unfold excluded.
    apply str_truthy_true in Hne. rewrite Hne, Hex. reflexivity.
  - intros -> ->. reflexivity.
  - intros Hex Hp _. rewrite Hex, Hp. cbn. apply Z.leb_le.
  - intros Hex Hm.
    assert (Hp : has_photo message = false)
      by (unfold has_photo; now rewrite Hm).
    rewrite Hex, Hp. cbn.
    split; [apply Z.leb_le|].
    split; intros Hlen; [apply Z.leb_le | apply Z.leb_gt]; lia.
Qed.

(** The four clauses at concrete posts: an excluded photo post, a photo
    post with no caption, and text-only posts of 50 and 49 characters. *)
Lemma rule_evaluator_decision_witness :
  collects default_cfg (sample_ext []) [subscribe_rule]
    (photo_post 1 (Some "SUBSCRIBE NOW for more") 10 7) = false
  /\ collects default_cfg (sample_ext []) [subscribe_rule]
       (photo_post 2 None 11 8) = true
  /\ collects default_cfg (sample_ext []) [subscribe_rule]
       (text_post 3 text50 12) = true
  /\ collects default_cfg (sample_ext []) [subscribe_rule]
       (text_post 4 text49 13) = false.
Proof.
  split; [|split; [|split]].
  - apply (proj1 (rule_evaluator_decision default_cfg (sample_ext [])
                    [subscribe_rule]
                    (photo_post 1 (Some "SUBSCRIBE NOW for more") 10 7))).
    + discriminate.
    + reflexivity.
  - apply (proj1 (proj2 (rule_evaluator_decision default_cfg (sample_ext [])
                           [subscribe_rule] (photo_post 2 None 11 8))));
      reflexivity.
  - apply (proj2 (proj2 (proj2 (rule_evaluator_decision default_cfg
                                  (sample_ext []) [subscribe_rule]
                                  (text_post 3 text50 12)))));
      reflexivity.
  - apply (proj2 (proj2 (proj2 (rule_evaluator_decision default_cfg
                                  (sample_ext []) [subscribe_rule]
                                  (text_post 4 text49 13)))));
      reflexivity.
Defined.

(** C6, as stated, fails: a forwarded text-only post that is too short is
    dropped by the rule evaluator, and so is a forwarded post that matches
    an exclusion rule. *)
Lemma forwarded_post_dropped_counterexample :
  is_forward (forwarded 900 5 (text_post 1 "Short note" 10)) = true
  /\ collects default_cfg (sample_ext []) []
       (forwarded 900 5 (text_post 1 "Short note" 10)) = false
  /\ is_forward
       (forwarded 900 6 (photo_post 2 (Some "Subscribe now to our feed") 11 7))
     = true
  /\ collects default_cfg (sample_ext []) [subscribe_rule]
       (forwarded 900 6 (photo_post 2 (Some "Subscribe now to our feed") 11 7))
     = false.
Proof. repeat split. Qed.

(** C6 (amended).  The rule evaluator never looks at the forward metadata:
    a forwarded post gets the decision and the reason the same post would
    get without its forward header, so it is dropped exactly when its text
    is non-empty and matches an exclusion rule, or it carries no photo and
    its text is shorter than [MIN_TEXT_LENGTH]. *)
Theorem forward_status_not_classified (cfg : Config) (ext : Externals)
        (rules : list ExclusionRule) (message : Message) :
  is_forward message = true ->
  should_collect_message cfg ext rules message =
  should_collect_message cfg ext rules (with_fwd_from None message)
  /\ (collects cfg ext rules message = false
      <-> excluded ext rules message = true
          \/ (has_photo message = false
              /\ len (text_of message) < MIN_TEXT_LENGTH cfg)).
Proof.
  intros _. split; [reflexivity|].
  rewrite collects_closed_form.
  destruct (excluded ext rules message); cbn.
  - split; auto.
  - destruct (has_photo message); cbn.
    + split; [discriminate|]. intros [H|[H _]]; discriminate.
    + rewrite Z.leb_gt. split; [auto|].
      intros [H|[_ H]]; [discriminate|assumption].
Qed.

Lemma forward_status_not_classified_witness :
  should_collect_message default_cfg (sample_ext []) [subscribe_rule]
    (forwarded 900 5 (text_post 1 text50 10)) =
  should_collect_message default_cfg (sample_ext []) [subscribe_rule]
    (with_fwd_from None (forwarded 900 5 (text_post 1 text50 10)))
  /\ (collects default_cfg (sample_ext []) [subscribe_rule]
        (forwarded 900 5 (text_post 1 text50 10)) = false
      <-> excluded (sample_ext []) [subscribe_rule]
            (forwarded 900 5 (text_post 1 text50 10)) = true
          \/ (has_photo (forwarded 900 5 (text_post 1 text50 10)) = false
              /\ len (text_of (forwarded 900 5 (text_post 1 text50 10)))
                 < MIN_TEXT_LENGTH default_cfg)).
Proof.
  apply (forward_status_not_classified default_cfg (sample_ext [])
           [subscribe_rule] (forwarded 900 5 (text_post 1 text50 10))).
  reflexivity.
Defined.

(** C10.  A post whose text is absent or empty is never dropped for
    matching an exclusion rule, whatever the active rules are (an [exact]
    rule with the empty pattern included): the evaluator answers as it
    would with no rules at all, that is by the photo rule and the length
    rules alone. *)
Theorem empty_text_never_excluded (cfg : Config) (ext : Externals)
        (rules : list ExclusionRule) (message : Message) :
  text_of message = "" ->
  should_collect_message cfg ext rules message =
  should_collect_message cfg ext [] message
  /\ snd (should_collect_message cfg ext rules message)
     <> "matched exclusion rule"
  /\ collects cfg ext rules message =
     (has_photo message || Z.leb (MIN_TEXT_LENGTH cfg) 0)%bool.
Proof.
  intros Hempty.
  assert (Hex : forall rs, excluded ext rs message = false).
  { intros rs. unfold excluded. rewrite Hempty. reflexivity. }
  split; [|split].
  - unfold should_collect_message. fold (text_of message).
    rewrite Hempty. reflexivity.
  - intros Hreason. apply excluded_reason in Hreason.
    rewrite Hex in Hreason. discriminate.
  - rewrite collects_closed_form, Hex, Hempty. reflexivity.
Qed.

(** The empty-pattern [exact] rule matches the empty caption, and the post
    is collected all the same. *)
Lemma empty_text_never_excluded_witness :
  should_exclude_message (sample_ext []) "" [empty_exact_rule] = true
  /\ should_collect_message default_cfg (sample_ext []) [empty_exact_rule]
       (photo_post 1 (Some "") 10 7) =
     should_collect_message default_cfg (sample_ext []) []
       (photo_post 1 (Some "") 10 7)
  /\ snd (should_collect_message default_cfg (sample_ext []) [empty_exact_rule]
            (photo_post 1 (Some "") 10 7))
     <> "matched exclusion rule"
  /\ collects default_cfg (sample_ext []) [empty_exact_rule]
       (photo_post 1 (Some "") 10 7) =
     (has_photo (photo_post 1 (Some "") 10 7)
      || Z.leb (MIN_TEXT_LENGTH default_cfg) 0)%bool.
Proof.
  split; [reflexivity|].
  apply (empty_text_never_excluded default_cfg (sample_ext [])
           [empty_exact_rule] (photo_post 1 (Some "") 10 7)).
  reflexivity.
Defined.

(* ===================================================================== *)
(** * Reasoning about the monad *)

Section Frames.

Variable R : Store -> Store -> Prop.
Hypothesis F : frame R.

Lemma stable_ret {A} (a : A) : stable R (ret a).
Proof. intros s. apply (frame_refl F). Qed.

Lemma stable_raise {A} (e : exn) : stable R (@raise A e).
Proof. intros s. apply (frame_refl F). Qed.

Lemma stable_lift {A} (r : result A) : stable R (lift r).
Proof. intros s. apply (frame_refl F). Qed.

Lemma stable_io_point (e : exn) : stable R (io_point e).
Proof.
  intros s. unfold io_point.
  destruct (faults s) as [|[|] fs]; cbn;
    [apply (frame_refl F) | apply (frame_faults F) | apply (frame_faults F)].
Qed.

Lemma stable_bind {A B} (c : M A) (k : A -> M B) :
  stable R c -> (forall a, stable R (k a)) -> stable R (bind c k).
Proof.
  intros Hc Hk s. unfold bind.
  specialize (Hc s). destruct (c s) as [[a|e] s1]; cbn in *.
  - apply (frame_trans F) with s1; [assumption | apply Hk].
  - assumption.
Qed.

Lemma stable_try {A} (c : M A) (h : exn -> M A) :
  stable R c -> (forall e, stable R (h e)) -> stable R (try_except c h).
Proof.
  intros Hc Hh s. unfold try_except.
  specialize (Hc s). destruct (c s) as [[a|e] s1]; cbn in *.
  - assumption.
  - apply (frame_trans F) with s1; [assumption | apply Hh].
Qed.

End Frames.

Lemma keeps_frame {X} (f : Store -> X) :
  (forall s l, f (set_faults l s) = f s) -> frame (keeps f).
Proof.
  intros Hf. split; unfold keeps.
  - reflexivity.
  - intros a b c H1 H2. now rewrite H2.
  - assumption.
Qed.

Lemma grows_frame {X} (f : Store -> list X) :
  (forall s l, f (set_faults l s) = f s) -> frame (grows f).
Proof.
  intros Hf. split; unfold grows.
  - intros s. exists []. now rewrite app_nil_r.
  - intros a b c [l1 H1] [l2 H2]. exists (l1 ++ l2)%list.
    now rewrite H2, H1, app_assoc.
  - intros s l. exists []. now rewrite app_nil_r, Hf.
Qed.

Lemma keeps_rows_frame (P : MessageRow -> Prop) : frame (keeps_rows P).
Proof.
  split; unfold keeps_rows; cbn; auto.
Qed.

(** One structural step of a stability proof. *)
Ltac frame_step F :=
  lazymatch goal with
  | |- stable _ (bind _ _) => apply (stable_bind F); [|intros]
  | |- stable _ (try_except _ _) => apply (stable_try F); [|intros]
  | |- stable _ (ret _) => apply (stable_ret F)
  | |- stable _ (raise _) => apply (stable_raise F)
  | |- stable _ (lift _) => apply (stable_lift F)
  | |- stable _ (io_point _) => apply (stable_io_point F)
  | |- stable _ (match ?x with _ => _ end) => destruct x
  end.

Create HintDb frames.

Ltac frame_steps F :=
  repeat (first [ solve [auto with frames] | frame_step F ]).

(** The store updates of the primitives, one relation at a time. *)
Lemma insert_message_row_grows (r : MessageRow) (rows : list MessageRow) :
  exists l, insert_message_row r rows = (rows ++ l)%list.
Proof.
  unfold insert_message_row.
  destruct (existsb _ rows); [exists []; now rewrite app_nil_r | now exists [r]].
Qed.

Lemma insert_image_row_grows (i : ImageRow) (rows : list ImageRow) :
  exists l, insert_image_row i rows = (rows ++ l)%list.
Proof.
  unfold insert_image_row.
  destruct (has_file_id _ rows); [exists []; now rewrite app_nil_r | now exists [i]].
Qed.

Lemma watermark_updates_app (a b : list event) :
  watermark_updates (a ++ b) = (watermark_updates a ++ watermark_updates b)%list.
Proof. apply flat_map_app. Qed.

Lemma channel_starts_app (a b : list event) :
  channel_starts (a ++ b) = (channel_starts a ++ channel_starts b)%list.
Proof. apply flat_map_app. Qed.

Lemma fingerprint_lookups_app (a b : list event) :
  fingerprint_lookups (a ++ b) = (fingerprint_lookups a ++ fingerprint_lookups b)%list.
Proof. apply flat_map_app. Qed.

Lemma asset_events_app (a b : list event) :
  asset_events (a ++ b) = (asset_events a ++ asset_events b)%list.
Proof. apply filter_app. Qed.

(** Closes the leaves of a stability proof: a primitive applied to a
    store, for the relations [keeps] and [grows]. *)
Ltac frame_leaf :=
  let s := fresh "s" in
  intros s; unfold keeps, grows, emit; cbn;
  rewrite ?watermark_updates_app, ?channel_starts_app,
          ?fingerprint_lookups_app, ?asset_events_app; cbn;
  rewrite ?app_nil_r;
  first [ reflexivity
        | apply insert_message_row_grows
        | apply insert_image_row_grows
        | eexists; reflexivity
        | exists []; rewrite app_nil_r; reflexivity ].

Ltac frame_solve F := frame_steps F; try frame_leaf.

Definition F_channels : frame (keeps channels) :=
  keeps_frame channels (fun _ _ => eq_refl).
Definition F_messages : frame (keeps messages) :=
  keeps_frame messages (fun _ _ => eq_refl).
Definition F_images : frame (keeps images) :=
  keeps_frame images (fun _ _ => eq_refl).
Definition F_grow_messages : frame (grows messages) :=
  grows_frame messages (fun _ _ => eq_refl).
Definition F_grow_images : frame (grows images) :=
  grows_frame images (fun _ _ => eq_refl).
Definition F_grow_trace : frame (grows trace) :=
  grows_frame trace (fun _ _ => eq_refl).
Definition F_updates : frame (keeps (fun s => watermark_updates (trace s))) :=
  keeps_frame (fun s => watermark_updates (trace s)) (fun _ _ => eq_refl).
Definition F_starts : frame (keeps (fun s => channel_starts (trace s))) :=
  keeps_frame (fun s => channel_starts (trace s)) (fun _ _ => eq_refl).

Lemma keeps_grows {A X} (f : Store -> list X) (c : M A) :
  stable (keeps f) c -> stable (grows f) c.
Proof.
  intros H s. specialize (H s). unfold keeps, grows in *.
  rewrite H. exists []. now rewrite app_nil_r.
Qed.

Section CollectorFrames.

Variable cfg : Config.
Variable ext : Externals.
Variable rules : list ExclusionRule.

(** *** The asset stage touches neither [messages] nor [channels] *)

Lemma download_keeps_messages m n f :
  stable (keeps messages) (download_and_compress_photo cfg ext m n f).
Proof.
  unfold download_and_compress_photo, download_and_compress_body.
  frame_solve F_messages.
Qed.

Lemma download_keeps_images m n f :
  stable (keeps images) (download_and_compress_photo cfg ext m n f).
Proof.
  unfold download_and_compress_photo, download_and_compress_body.
  frame_solve F_images.
Qed.

Lemma download_keeps_channels m n f :
  stable (keeps channels) (download_and_compress_photo cfg ext m n f).
Proof.
  unfold download_and_compress_photo, download_and_compress_body.
  frame_solve F_channels.
Qed.

Lemma download_grows_trace m n f :
  stable (grows trace) (download_and_compress_photo cfg ext m n f).
Proof.
  unfold download_and_compress_photo, download_and_compress_body.
  frame_solve F_grow_trace.
Qed.

Lemma download_keeps_updates m n f :
  stable (keeps (fun s => watermark_updates (trace s)))
         (download_and_compress_photo cfg ext m n f).
Proof.
  unfold download_and_compress_photo, download_and_compress_body.
  frame_solve F_updates.
Qed.

Lemma download_keeps_starts m n f :
  stable (keeps (fun s => channel_starts (trace s)))
         (download_and_compress_photo cfg ext m n f).
Proof.
  unfold download_and_compress_photo, download_and_compress_body.
  frame_solve F_starts.
Qed.

Hint Resolve download_keeps_messages download_keeps_images
     download_keeps_channels download_grows_trace download_keeps_updates
     download_keeps_starts : frames.

Ltac photo_frame F :=
  unfold process_single_photo, image_exists, insert_image;
  frame_solve F.

Lemma photo_keeps_messages m c n :
  stable (keeps messages) (process_single_photo cfg ext m c n).
Proof. photo_frame F_messages. Qed.

Lemma photo_keeps_channels m c n :
  stable (keeps channels) (process_single_photo cfg ext m c n).
Proof. photo_frame F_channels. Qed.

Lemma photo_grows_images m c n :
  stable (grows images) (process_single_photo cfg ext m c n).
Proof.
  unfold process_single_photo, image_exists, insert_image.
  frame_steps F_grow_images; try frame_leaf.
  apply keeps_grows. auto with frames.
Qed.

Lemma photo_grows_trace m c n :
  stable (grows trace) (process_single_photo cfg ext m c n).
Proof. photo_frame F_grow_trace. Qed.

Lemma photo_keeps_updates m c n :
  stable (keeps (fun s => watermark_updates (trace s)))
         (process_single_photo cfg ext m c n).
Proof. photo_frame F_updates. Qed.

Lemma photo_keeps_starts m c n :
  stable (keeps (fun s => channel_starts (trace s)))
         (process_single_photo cfg ext m c n).
Proof. photo_frame F_starts. Qed.

Hint Resolve photo_keeps_messages photo_keeps_channels photo_grows_images
     photo_grows_trace photo_keeps_updates photo_keeps_starts : frames.

(** *** The per-post pipeline *)

Ltac message_frame F :=
  unfold process_message, duplicate_check, find_duplicate, insert_message;
  frame_solve F.

Lemma message_keeps_channels m c n :
  stable (keeps channels) (process_message cfg ext rules m c n).
Proof. message_frame F_channels. Qed.

Lemma message_grows_messages m c n :
  stable (grows messages) (process_message cfg ext rules m c n).
Proof.
  unfold process_message, duplicate_check, find_duplicate, insert_message.
  frame_steps F_grow_messages; try frame_leaf.
  all: apply keeps_grows; auto with frames.
Qed.

Lemma message_grows_images m c n :
  stable (grows images) (process_message cfg ext rules m c n).
Proof. message_frame F_grow_images. Qed.

Lemma message_grows_trace m c n :
  stable (grows trace) (process_message cfg ext rules m c n).
Proof. message_frame F_grow_trace. Qed.

Lemma message_keeps_updates m c n :
  stable (keeps (fun s => watermark_updates (trace s)))
         (process_message cfg ext rules m c n).
Proof. message_frame F_updates. Qed.

Lemma message_keeps_starts m c n :
  stable (keeps (fun s => channel_starts (trace s)))
         (process_message cfg ext rules m c n).
Proof. message_frame F_starts. Qed.

Hint Resolve message_keeps_channels message_grows_messages
     message_grows_images message_grows_trace message_keeps_updates
     message_keeps_starts : frames.

(** *** The loop over a stream keeps whatever each post keeps *)

Lemma collect_loop_stable (R : Store -> Store -> Prop) (F : frame R) :
  (forall m c n, stable R (process_message cfg ext rules m c n)) ->
  forall stream c n st, stable R (collect_loop cfg ext rules stream c n st).
Proof.
  intros Hm stream. induction stream as [|m rest IH]; intros c n st;
    cbn [collect_loop].
  - frame_steps F.
  - destruct st as [[latest processed] collected].
    apply (stable_bind F); [apply (stable_io_point F)|intros _].
    apply (stable_bind F); [apply Hm|intros [d|]]; apply IH.
Qed.

End CollectorFrames.

(* ===================================================================== *)
(** * The pipeline when no store or platform call faults *)

Lemma io_point_quiet (e : exn) (s : Store) :
  faults s = [] -> io_point e s = (Ret tt, s).
Proof. intros H. unfold io_point. now rewrite H. Qed.

(** Evaluates a pipeline step, leaving the table operations folded. *)
Ltac run :=
  unfold set_messages, set_images, set_channels, set_faults, set_trace;
  cbn -[has_file_id insert_image_row select_duplicate insert_message_row
        str_of_int].

Ltac run_in H :=
  unfold set_messages, set_images, set_channels, set_faults, set_trace in H;
  cbn -[has_file_id insert_image_row select_duplicate insert_message_row
        str_of_int] in H.

Section Quiet.

Variable cfg : Config.
Variable ext : Externals.
Variable rules : list ExclusionRule.

(** [download_and_compress_photo] never raises: it hands back
    [asset_data], and the download it started is its only effect. *)
Lemma download_and_compress_photo_returns m n f (s : Store) :
  download_and_compress_photo cfg ext m n f s =
  (Ret (asset_data cfg ext m n f), set_trace (trace s ++ [EvDownload f]) s).
Proof.
  unfold asset_data, download_and_compress_photo, try_except,
    download_and_compress_body, bind, emit, lift, ret, get_file_path.
  cbn.
  destruct (download_media ext (message_photo m)) as [[bytes|]|e]; cbn;
    try reflexivity.
  destruct (str_truthy bytes); cbn; try reflexivity.
  destruct (image_open ext bytes) as [img|e]; cbn; try reflexivity.
  destruct (_ || Z.ltb (MAX_IMAGE_WIDTH cfg) (img_width img))%bool; cbn;
    [destruct (image_load ext img) as [[]|e]; cbn; try reflexivity|];
    (destruct (Z.ltb (MAX_IMAGE_WIDTH cfg) (img_width img)); cbn;
     [destruct (image_resize _ _ _) as [r|e]; cbn; try reflexivity|];
     (destruct (image_dir ext (m_date m) n) as [d|e]; cbn; try reflexivity;
      destruct (image_save ext _ _ _) as [z|e]; cbn; reflexivity)).
Qed.

Lemma photo_quiet ms ims cs rs tr m c n :
  has_photo m = true -> is_forward m = false ->
  process_single_photo cfg ext m c n (mkStore ms ims cs rs [] tr) =
  (match message_photo m with
   | Some _ => Ret tt
   | None => Raise photo_missing_error
   end,
   mkStore ms (images_after cfg ext ims m c n) cs rs []
           (tr ++ photo_events cfg ext ims m n)).
Proof.
  intros Hp Hf.
  unfold process_single_photo, images_after, photo_events.
  rewrite Hf.
  destruct (message_photo m) as [p|].
  2: { unfold raise, photo_missing_error. now rewrite app_nil_r. }
  unfold bind, image_exists, io_point, emit, ret. run.
  destruct (has_file_id (str_of_int (photo_id p)) ims) eqn:Hk.
  - reflexivity.
  - rewrite download_and_compress_photo_returns. run.
    destruct (asset_data cfg ext m n (str_of_int (photo_id p)))
      as [[[[[path o] cz] w] h]|]; run.
    + unfold insert_image, bind, io_point, emit. run.
      rewrite <- !app_assoc. reflexivity.
    + rewrite <- !app_assoc. reflexivity.
Qed.

Lemma images_after_no_photo ims m c n :
  has_photo m = false -> images_after cfg ext ims m c n = ims.
Proof.
  unfold images_after, has_photo, message_photo.
  destruct (m_media m) as [[p|]|]; try discriminate; reflexivity.
Qed.

(** One post, no fault: the record handed back, the two tables and the
    trace are those of [message_data_for], [tables_after] and
    [post_events]; the call raises exactly when the photo object of a
    collected photo post is missing, the record being stored by then. *)
Lemma process_message_quiet ms ims cs rs tr m c n :
  process_message cfg ext rules m c n (mkStore ms ims cs rs [] tr) =
  (if aborts cfg ext rules m then Raise photo_missing_error
   else Ret (if collects cfg ext rules m
             then Some (message_data_for ext ms m c) else None),
   mkStore (fst (tables_after cfg ext rules c n (ms, ims) m))
           (snd (tables_after cfg ext rules c n (ms, ims) m))
           cs rs []
           (tr ++ post_events cfg ext rules c n (ms, ims) m)%list).
Proof.
  unfold process_message, tables_after, post_events, aborts, collects.
  destruct (should_collect_message cfg ext rules m) as [[|] reason]; run.
  2: { now rewrite app_nil_r. }
  unfold message_data_for, text_of, duplicate_check.
  destruct (is_forward m) eqn:Hf; run.
  - unfold bind, ret, insert_message, io_point, emit. run.
    rewrite !Bool.andb_false_r. run.
    assert (Hi : images_after cfg ext ims m c n = ims).
    { unfold images_after. rewrite Hf. now destruct (message_photo m). }
    rewrite Hi. reflexivity.
  - destruct (str_truthy (or_empty (m_text m))) eqn:Ht; run.
    + unfold bind at 1 2. unfold find_duplicate, bind, io_point, emit. run.
      destruct (select_duplicate (md5_hexdigest ext (or_empty (m_text m))) ms)
        as [[dc dm]|]; run;
        unfold insert_message, bind, io_point, emit, ret; run;
        rewrite !Bool.andb_true_r;
        (destruct (has_photo m) eqn:Hp; run;
         [ rewrite photo_quiet by assumption;
           destruct (message_photo m); run;
           rewrite <- !app_assoc; reflexivity
         | rewrite images_after_no_photo by assumption;
           rewrite <- ?app_assoc; reflexivity ]).
    + unfold bind, ret, insert_message, io_point, emit. run.
      rewrite !Bool.andb_true_r.
      destruct (has_photo m) eqn:Hp; run.
      * rewrite photo_quiet by assumption.
        destruct (message_photo m); run;
          rewrite <- !app_assoc; reflexivity.
      * rewrite images_after_no_photo by assumption. reflexivity.
Qed.

End Quiet.

Section QuietRun.

Variable cfg : Config.
Variable ext : Externals.
Variable rules : list ExclusionRule.

Lemma completes_reached stream :
  completes cfg ext rules stream = true ->
  reached cfg ext rules stream = stream.
Proof.
  unfold completes. induction stream as [|m rest IH]; [reflexivity|].
  cbn [forallb reached]. intros H. apply Bool.andb_true_iff in H.
  destruct H as [Hm Hr]. destruct (aborts cfg ext rules m); [discriminate|].
  now rewrite IH.
Qed.

Lemma aborts_collects m :
  aborts cfg ext rules m = true -> collects cfg ext rules m = true.
Proof.
  unfold aborts. destruct (collects cfg ext rules m); [reflexivity|discriminate].
Qed.

(** The loop of a channel pass, no fault: it returns when no photo object
    is missing and raises at the first post where one is; the two tables
    are those of [tables_after_stream] over the posts it got to. *)
Lemma collect_loop_quiet stream c n :
  forall st ms ims cs rs tr,
  exists tr',
    collect_loop cfg ext rules stream c n st (mkStore ms ims cs rs [] tr) =
    (if completes cfg ext rules stream
     then Ret (pass_state_after cfg ext rules stream st)
     else Raise photo_missing_error,
     mkStore (fst (tables_after_stream cfg ext rules c n
                     (reached cfg ext rules stream) (ms, ims)))
             (snd (tables_after_stream cfg ext rules c n
                     (reached cfg ext rules stream) (ms, ims)))
             cs rs [] tr').
Proof.
  induction stream as [|m rest IH]; intros st ms ims cs rs tr.
  - exists tr. reflexivity.
  - destruct st as [[latest processed] collected].
    cbn [collect_loop]. unfold bind at 1. run. unfold bind at 1.
    rewrite process_message_quiet.
    unfold completes. cbn [forallb reached].
    destruct (aborts cfg ext rules m) eqn:Ha; cbn [negb andb].
    + eexists. unfold tables_after_stream. cbn [fold_left]. reflexivity.
    + unfold tables_after_stream, pass_state_after. cbn [fold_left].
      destruct (tables_after cfg ext rules c n (ms, ims) m) as [ms1 ims1] eqn:HT.
      cbn [fst snd].
      destruct (collects cfg ext rules m) eqn:Hc.
      * destruct (IH (Some (m_date m), processed + 1, collected + 1)
                    ms1 ims1 cs rs
                    (tr ++ post_events cfg ext rules c n (ms, ims) m)%list)
          as [tr' Htr'].
        exists tr'. exact Htr'.
      * destruct (IH (latest, processed + 1, collected) ms1 ims1 cs rs
                    (tr ++ post_events cfg ext rules c n (ms, ims) m)%list)
          as [tr' Htr'].
        exists tr'. exact Htr'.
Qed.

(** A channel pass, no fault: it completes when no photo object is
    missing, and raises before the watermark is written otherwise. *)
Lemma channel_pass_quiet ci ms ims cs rs tr :
  let stream := iter_messages ext (name ci) (offset_date cfg ci) in
  let st := pass_state_after cfg ext rules stream (None, 0, 0) in
  let tabs := tables_after_stream cfg ext rules (telegram_channel_id ci)
                (name ci) (reached cfg ext rules stream) (ms, ims) in
  exists tr',
    channel_pass cfg ext rules ci (mkStore ms ims cs rs [] tr) =
    (if completes cfg ext rules stream then Ret st
     else Raise photo_missing_error,
     mkStore (fst tabs) (snd tabs)
             (if completes cfg ext rules stream
              then match fst (fst st) with
                   | Some t =>
                       map (set_last_fetched (telegram_channel_id ci) t) cs
                   | None => cs
                   end
              else cs)
             rs [] tr').
Proof.
  intros stream st tabs. unfold channel_pass.
  destruct (collect_loop_quiet stream (telegram_channel_id ci) (name ci)
              (None, 0, 0) ms ims cs rs tr) as [tr1 H1].
  unfold bind at 1. fold stream. rewrite H1. fold st. fold tabs.
  destruct (completes cfg ext rules stream).
  2: { eexists. reflexivity. }
  destruct st as [[[t|] processed] collected]; run.
  - unfold bind, update_channel_last_fetched, bind, io_point, emit, ret. run.
    eexists. reflexivity.
  - unfold bind, io_point, emit, ret. run. eexists. reflexivity.
Qed.

Lemma process_channel_quiet ci ms ims cs rs tr :
  let stream := iter_messages ext (name ci) (offset_date cfg ci) in
  let tabs := tables_after_stream cfg ext rules (telegram_channel_id ci)
                (name ci) (reached cfg ext rules stream) (ms, ims) in
  exists cs' tr',
    process_channel cfg ext rules ci (mkStore ms ims cs rs [] tr) =
    (Ret tt, mkStore (fst tabs) (snd tabs) cs' rs [] tr').
Proof.
  intros stream tabs. unfold process_channel.
  unfold bind at 1. unfold emit. run.
  destruct (channel_pass_quiet ci ms ims cs rs
              (tr ++ [EvProcessingChannel (telegram_channel_id ci)])%list)
    as [tr' H].
  unfold try_except, bind. rewrite H. fold stream.
  destruct (completes cfg ext rules stream); unfold ret; run;
    eexists; eexists; reflexivity.
Qed.

Lemma tables_after_items_app items1 items2 tabs :
  tables_after_items cfg ext rules (items1 ++ items2) tabs =
  tables_after_items cfg ext rules items2
    (tables_after_items cfg ext rules items1 tabs).
Proof. apply fold_left_app. Qed.

Lemma tables_after_stream_items c n stream tabs :
  tables_after_items cfg ext rules (map (fun m => (c, n, m)) stream) tabs =
  tables_after_stream cfg ext rules c n stream tabs.
Proof.
  revert tabs. induction stream as [|m rest IH]; intros tabs; [reflexivity|].
  cbn. apply IH.
Qed.

(** The channel loop, no fault: it returns, and the two tables are those
    of [tables_after_items] over the posts the passes got to. *)
Lemma process_channels_quiet chans :
  forall ms ims cs rs tr,
  exists cs' tr',
    process_channels cfg ext rules chans (mkStore ms ims cs rs [] tr) =
    (Ret tt,
     mkStore
       (fst (tables_after_items cfg ext rules
               (backlog_items cfg ext rules chans) (ms, ims)))
       (snd (tables_after_items cfg ext rules
               (backlog_items cfg ext rules chans) (ms, ims)))
       cs' rs [] tr').
Proof.
  induction chans as [|ci rest IH]; intros ms ims cs rs tr.
  - exists cs, tr. reflexivity.
  - cbn [process_channels backlog_items flat_map].
    rewrite tables_after_items_app, tables_after_stream_items.
    destruct (process_channel_quiet ci ms ims cs rs tr) as [cs1 [tr1 H1]].
    unfold bind. rewrite H1.
    destruct (tables_after_stream cfg ext rules (telegram_channel_id ci)
                (name ci)
                (reached cfg ext rules
                   (iter_messages ext (name ci) (offset_date cfg ci)))
                (ms, ims)) as [ms1 ims1].
    apply IH.
Qed.

End QuietRun.

(* ===================================================================== *)
(** * Replaying a backlog *)

Lemma existsb_snoc {A} (f : A -> bool) (l : list A) (a : A) :
  existsb f (l ++ [a]) = (existsb f l || f a)%bool.
Proof. rewrite existsb_app. cbn. now rewrite Bool.orb_false_r. Qed.

Lemma insert_message_row_present (r : MessageRow) (rows : list MessageRow) :
  existsb (same_key (channel_id r) (message_id r)) rows = true ->
  insert_message_row r rows = rows.
Proof. intros H. unfold insert_message_row. now rewrite H. Qed.

Lemma insert_message_row_keeps_keys (r : MessageRow) rows c i :
  existsb (same_key c i) rows = true ->
  existsb (same_key c i) (insert_message_row r rows) = true.
Proof.
  intros H. unfold insert_message_row.
  destruct (existsb (same_key (channel_id r) (message_id r)) rows);
    [assumption|].
  rewrite existsb_snoc, H. reflexivity.
Qed.

Lemma insert_message_row_has_key (r : MessageRow) rows :
  existsb (same_key (channel_id r) (message_id r)) (insert_message_row r rows)
  = true.
Proof.
  unfold insert_message_row.
  destruct (existsb (same_key (channel_id r) (message_id r)) rows) eqn:H;
    [assumption|].
  rewrite existsb_snoc. unfold same_key at 2. rewrite !Z.eqb_refl.
  now rewrite Bool.orb_true_r.
Qed.

Lemma insert_image_row_present (i : ImageRow) (rows : list ImageRow) :
  has_file_id (file_id i) rows = true -> insert_image_row i rows = rows.
Proof. intros H. unfold insert_image_row. now rewrite H. Qed.

Lemma insert_image_row_keeps_ids (i : ImageRow) rows f :
  has_file_id f rows = true -> has_file_id f (insert_image_row i rows) = true.
Proof.
  intros H. unfold insert_image_row.
  destruct (has_file_id (file_id i) rows); [assumption|].
  unfold has_file_id in *. rewrite existsb_snoc, H. reflexivity.
Qed.

Lemma insert_image_row_has_id (i : ImageRow) rows :
  has_file_id (file_id i) (insert_image_row i rows) = true.
Proof.
  unfold insert_image_row.
  destruct (has_file_id (file_id i) rows) eqn:H; [assumption|].
  unfold has_file_id. rewrite existsb_snoc, String.eqb_refl.
  now rewrite Bool.orb_true_r.
Qed.

Section Replay.

Variable cfg : Config.
Variable ext : Externals.
Variable rules : list ExclusionRule.

Lemma images_after_keeps_ids ims m c n f :
  has_file_id f ims = true ->
  has_file_id f (images_after cfg ext ims m c n) = true.
Proof.
  intros H. unfold images_after.
  destruct (message_photo m) as [p|]; [|assumption].
  destruct (is_forward m); [assumption|].
  destruct (has_file_id (str_of_int (photo_id p)) ims); [assumption|].
  destruct (asset_data cfg ext m n (str_of_int (photo_id p)))
    as [[[[[path o] cz] w] h]|]; [|assumption].
  now apply insert_image_row_keeps_ids.
Qed.

Lemma settled_after tabs c n m :
  settled cfg ext rules (tables_after cfg ext rules c n tabs m) (c, n, m).
Proof.
  unfold settled, tables_after. intros Hc. rewrite Hc. cbn [fst snd]. split.
  - apply (insert_message_row_has_key (message_data_for ext (fst tabs) m c)).
  - unfold images_after.
    destruct (message_photo m) as [p|]; [|exact I].
    destruct (is_forward m); [now left|].
    destruct (has_file_id (str_of_int (photo_id p)) (snd tabs)) eqn:Hk;
      [right; now left|].
    destruct (asset_data cfg ext m n (str_of_int (photo_id p)))
      as [[[[[path o] cz] w] h]|] eqn:Ha; [|right; now right].
    right; left.
    apply (insert_image_row_has_id
             {| message_channel_id := c; message_message_id := m_id m;
                file_id := str_of_int (photo_id p); file_path := path;
                original_size := o; compressed_size := cz;
                width := w; height := h |}).
Qed.

Lemma settled_mono tabs item item' :
  settled cfg ext rules tabs item ->
  settled cfg ext rules (tables_after_item cfg ext rules tabs item') item.
Proof.
  destruct item as [[c n] m], item' as [[c' n'] m'].
  unfold settled, tables_after_item, tables_after. intros H Hc.
  destruct (H Hc) as [Hkey Hphoto].
  destruct (collects cfg ext rules m'); [|now split].
  cbn [fst snd]. split.
  - now apply insert_message_row_keeps_keys.
  - destruct (message_photo m) as [p|]; [|exact I].
    destruct Hphoto as [Hf|[Hk|Ha]]; [now left| |right; now right].
    right; left. now apply images_after_keeps_ids.
Qed.

Lemma settled_fix tabs item :
  settled cfg ext rules tabs item ->
  tables_after_item cfg ext rules tabs item = tabs.
Proof.
  destruct item as [[c n] m], tabs as [ms ims].
  unfold settled, tables_after_item, tables_after. intros H.
  destruct (collects cfg ext rules m); [|reflexivity].
  destruct (H eq_refl) as [Hkey Hphoto]. cbn [fst snd] in *.
  f_equal.
  - now apply (insert_message_row_present (message_data_for ext ms m c)).
  - unfold images_after.
    destruct (message_photo m) as [p|]; [|reflexivity].
    destruct Hphoto as [Hf|[Hk|Ha]].
    + now rewrite Hf.
    + rewrite Hk. now destruct (is_forward m).
    + rewrite Ha. destruct (is_forward m); [reflexivity|].
      now destruct (has_file_id _ ims).
Qed.

Lemma settled_mono_items items tabs item :
  settled cfg ext rules tabs item ->
  settled cfg ext rules (tables_after_items cfg ext rules items tabs) item.
Proof.
  revert tabs. induction items as [|it rest IH]; intros tabs H; [assumption|].
  cbn. apply IH. now apply settled_mono.
Qed.

Lemma all_settled_after items :
  forall tabs,
  Forall (settled cfg ext rules (tables_after_items cfg ext rules items tabs))
         items.
Proof.
  induction items as [|it rest IH]; intros tabs; constructor.
  - cbn. apply settled_mono_items.
    destruct it as [[c n] m]. apply settled_after.
  - apply IH.
Qed.

Lemma all_settled_fix items tabs :
  Forall (settled cfg ext rules tabs) items ->
  tables_after_items cfg ext rules items tabs = tabs.
Proof.
  induction 1 as [|it rest Hit _ IH]; [reflexivity|].
  cbn. rewrite (settled_fix _ _ Hit). exact IH.
Qed.

(** A second pass over the same items changes neither table. *)
Lemma tables_after_items_idempotent items tabs :
  tables_after_items cfg ext rules items
    (tables_after_items cfg ext rules items tabs) =
  tables_after_items cfg ext rules items tabs.
Proof. apply all_settled_fix, all_settled_after. Qed.

End Replay.

(** C5.  Inserting a message whose key is stored, or an image whose file
    id is stored, returns normally and leaves the tables as they were; the
    photo stage of a post whose file id is stored starts no download; and
    when no call faults, a second run of the channel loop over the same
    backlog completes and leaves [messages] and [images] exactly as the
    first run left them. *)
Theorem idempotent_replay (cfg : Config) (ext : Externals)
        (rules : list ExclusionRule) (s : Store) :
  faults s = [] ->
  (forall r,
      existsb (same_key (channel_id r) (message_id r)) (messages s) = true ->
      fst (insert_message r s) = Ret tt
      /\ messages (snd (insert_message r s)) = messages s
      /\ images (snd (insert_message r s)) = images s)
  /\ (forall i,
         has_file_id (file_id i) (images s) = true ->
         fst (insert_image i s) = Ret tt
         /\ images (snd (insert_image i s)) = images s
         /\ messages (snd (insert_image i s)) = messages s)
  /\ (forall m p c n,
         message_photo m = Some p ->
         has_file_id (str_of_int (photo_id p)) (images s) = true ->
         fst (process_single_photo cfg ext m c n s) = Ret tt
         /\ trace (snd (process_single_photo cfg ext m c n s)) =
            (trace s ++ [EvImageExists (str_of_int (photo_id p))])%list
         /\ images (snd (process_single_photo cfg ext m c n s)) = images s)
  /\ (forall chans,
         exists s1 s2,
           process_channels cfg ext rules chans s = (Ret tt, s1)
           /\ process_channels cfg ext rules chans s1 = (Ret tt, s2)
           /\ messages s2 = messages s1
           /\ images s2 = images s1).
Proof.
  destruct s as [ms ims cs rs fs tr]. cbn [faults messages images trace].
  intros ->. split; [|split; [|split]].
  - intros r Hkey.
    unfold insert_message, bind, io_point, emit. run.
    now rewrite (insert_message_row_present r ms Hkey).
  - intros i Hid.
    unfold insert_image, bind, io_point, emit. run.
    now rewrite (insert_image_row_present i ims Hid).
  - intros m p c n Hp Hid.
    unfold process_single_photo. rewrite Hp.
    unfold bind, image_exists, bind, io_point, emit, ret. run.
    rewrite Hid. run. auto.
  - intros chans.
    destruct (process_channels_quiet cfg ext rules chans ms ims cs rs tr)
      as [cs1 [tr1 H1]].
    set (T := tables_after_items cfg ext rules (backlog_items cfg ext rules chans)
                (ms, ims)) in *.
    destruct (process_channels_quiet cfg ext rules chans (fst T) (snd T)
                cs1 rs tr1) as [cs2 [tr2 H2]].
    eexists. eexists.
    split; [exact H1|]. split; [exact H2|].
    cbn [messages images].
    replace (fst T, snd T) with T by (now destruct T).
    unfold T. rewrite tables_after_items_idempotent. auto.
Qed.

(** The sample backlog run twice; the stored key of post 1 inserted
    again. *)
Lemma idempotent_replay_witness :
  faults sample_store = []
  /\ (fst (insert_message sample_row1 sample_replayed) = Ret tt
      /\ messages (snd (insert_message sample_row1 sample_replayed)) =
         messages sample_replayed
      /\ images (snd (insert_message sample_row1 sample_replayed)) =
         images sample_replayed)
  /\ exists s1 s2,
      process_channels default_cfg (sample_ext sample_backlog) [subscribe_rule]
        [sample_channel] sample_store = (Ret tt, s1)
      /\ process_channels default_cfg (sample_ext sample_backlog)
           [subscribe_rule] [sample_channel] s1 = (Ret tt, s2)
      /\ messages s2 = messages s1
      /\ images s2 = images s1.
Proof.
  split; [reflexivity|]. split.
  - refine (proj1 (idempotent_replay default_cfg (sample_ext sample_backlog)
                     [subscribe_rule] sample_replayed _) sample_row1 _);
      reflexivity.
  - apply (proj2 (proj2 (proj2
             (idempotent_replay default_cfg (sample_ext sample_backlog)
                [subscribe_rule] sample_store eq_refl)))).
Defined.

(* ===================================================================== *)
(** * The duplicate index *)

Lemma existsb_find {A} (f : A -> bool) (l : list A) :
  existsb f l = match find f l with Some _ => true | None => false end.
Proof.
  induction l as [|a l IH]; [reflexivity|]. cbn.
  destruct (f a); [reflexivity | exact IH].
Qed.

Lemma find_snoc_some {A} (f : A -> bool) (l : list A) (a x : A) :
  find f l = Some x -> find f (l ++ [a]) = Some x.
Proof.
  induction l as [|b l IH]; cbn; [discriminate|].
  destruct (f b); [auto | exact IH].
Qed.

Lemma find_snoc_none {A} (f : A -> bool) (l : list A) (a : A) :
  find f l = None -> find f (l ++ [a]) = if f a then Some a else None.
Proof.
  induction l as [|b l IH]; cbn; [reflexivity|].
  destruct (f b); [discriminate | exact IH].
Qed.

(** The duplicate lookup only answers with a stored record whose
    [is_duplicate] flag is unset and whose fingerprint is the one asked. *)
Lemma select_duplicate_sound h rows dc dm :
  select_duplicate h rows = Some (dc, dm) ->
  exists r, In r rows /\ channel_id r = dc /\ message_id r = dm
            /\ text_hash r = Some h /\ is_duplicate r = false.
Proof.
  unfold select_duplicate.
  destruct (find (duplicate_candidate h) rows) as [r|] eqn:Hf; [|discriminate].
  intros [= <- <-]. apply find_some in Hf. destruct Hf as [Hin Hc].
  exists r. unfold duplicate_candidate in Hc.
  apply Bool.andb_true_iff in Hc. destruct Hc as [Hh Hd].
  repeat split; auto.
  - destruct (text_hash r) as [x|]; cbn in Hh; [|discriminate].
    apply String.eqb_eq in Hh. now subst.
  - now destruct (is_duplicate r).
Qed.

Lemma sole_original_selected h r rows :
  sole_original h r rows ->
  select_duplicate h rows = Some (channel_id r, message_id r).
Proof.
  intros [Hin [Hc Huniq]]. unfold select_duplicate.
  destruct (find (duplicate_candidate h) rows) as [r'|] eqn:Hf.
  - apply find_some in Hf. destruct Hf as [Hin' Hc'].
    now rewrite (Huniq r' Hin' Hc').
  - apply (find_none _ _ Hf) in Hin. congruence.
Qed.

Section DuplicateIndex.

Variable cfg : Config.
Variable ext : Externals.
Variable rules : list ExclusionRule.

(** One post leaves [messages] as it was or appends the record built for
    it. *)
Lemma tables_after_rows c n tabs m :
  fst (tables_after cfg ext rules c n tabs m) = fst tabs
  \/ (collects cfg ext rules m = true
      /\ lookup_message c (m_id m) (fst tabs) = None
      /\ fst (tables_after cfg ext rules c n tabs m) =
         (fst tabs ++ [message_data_for ext (fst tabs) m c])%list).
Proof.
  unfold tables_after.
  destruct (collects cfg ext rules m); [|now left]. cbn [fst].
  unfold insert_message_row. cbn [channel_id message_id message_data_for].
  rewrite existsb_find. unfold lookup_message.
  destruct (find (same_key c (m_id m)) (fst tabs)); [now left|].
  right. auto.
Qed.

(** A record built while an original with its fingerprint is stored is
    flagged as duplicate, so it is no candidate itself. *)
Lemma built_row_not_candidate h r rows m c :
  sole_original h r rows ->
  duplicate_candidate h (message_data_for ext rows m c) = false.
Proof.
  intros Hsole. unfold duplicate_candidate, message_data_for.
  cbn [text_hash is_duplicate].
  destruct (negb (is_forward m) && str_truthy (text_of m))%bool; [|reflexivity].
  cbn [option_string_eqb].
  destruct (String.eqb (md5_hexdigest ext (text_of m)) h) eqn:Hh; [|reflexivity].
  apply String.eqb_eq in Hh. rewrite Hh.
  now rewrite (sole_original_selected Hsole).
Qed.

Lemma sole_original_step h r c n tabs m :
  sole_original h r (fst tabs) ->
  sole_original h r (fst (tables_after cfg ext rules c n tabs m)).
Proof.
  intros Hsole.
  destruct (tables_after_rows c n tabs m) as [->|[_ [_ ->]]]; [assumption|].
  pose proof (built_row_not_candidate m c Hsole) as Hnc.
  destruct Hsole as [Hin [Hc Huniq]].
  split; [apply in_or_app; now left|]. split; [assumption|].
  intros r' Hin' Hc'. apply in_app_or in Hin'.
  destruct Hin' as [Hin'|[<-|[]]]; [now apply Huniq | congruence].
Qed.

Lemma sole_original_stream h r c n stream :
  forall tabs,
  sole_original h r (fst tabs) ->
  sole_original h r (fst (tables_after_stream cfg ext rules c n stream tabs)).
Proof.
  induction stream as [|m rest IH]; intros tabs H; [assumption|].
  cbn. apply IH. now apply sole_original_step.
Qed.

Lemma lookup_kept_step k i r c n tabs m :
  lookup_message k i (fst tabs) = Some r ->
  lookup_message k i (fst (tables_after cfg ext rules c n tabs m)) = Some r.
Proof.
  intros H.
  destruct (tables_after_rows c n tabs m) as [->|[_ [_ ->]]]; [assumption|].
  now apply find_snoc_some.
Qed.

Lemma lookup_kept_stream k i r c n stream :
  forall tabs,
  lookup_message k i (fst tabs) = Some r ->
  lookup_message k i (fst (tables_after_stream cfg ext rules c n stream tabs))
  = Some r.
Proof.
  induction stream as [|m rest IH]; intros tabs H; [assumption|].
  cbn. apply IH. now apply lookup_kept_step.
Qed.

Lemma lookup_absent_stream c n i stream :
  Forall (fun m => m_id m <> i) stream ->
  forall tabs,
  lookup_message c i (fst tabs) = None ->
  lookup_message c i (fst (tables_after_stream cfg ext rules c n stream tabs))
  = None.
Proof.
  induction 1 as [|m rest Hm _ IH]; intros tabs H; [assumption|].
  cbn. apply IH.
  destruct (tables_after_rows c n tabs m) as [->|[_ [_ ->]]]; [assumption|].
  unfold lookup_message. rewrite (find_snoc_none _ _ _ H).
  unfold same_key. cbn [channel_id message_id message_data_for].
  destruct (Z.eqb (m_id m) i) eqn:E; [apply Z.eqb_eq in E; contradiction|].
  now rewrite Bool.andb_false_r.
Qed.

End DuplicateIndex.

(** C1, as stated, fails: of three posts with the same text in one pass,
    the second and the third are two posts with identical text, the second
    processed first; yet the second is stored as a duplicate and the third
    points to the first post, not to the second. *)
Lemma duplicate_pair_counterexample :
  let stream := [ text_post 1 text50 100; text_post 2 text50 110;
                  text_post 3 text50 120 ] in
  let s' := snd (collect_loop default_cfg (sample_ext stream) [] stream
                   42 "delta_news" (None, 0, 0) empty_store) in
  option_map is_duplicate (lookup_message 42 2 (messages s')) = Some true
  /\ option_map duplicate_of_message_id (lookup_message 42 3 (messages s'))
     = Some (Some 1)
  /\ option_map duplicate_of_message_id (lookup_message 42 3 (messages s'))
     <> Some (Some 2).
Proof. vm_compute. repeat split; discriminate. Qed.

(** A photo post whose photo object is missing stops the pass: it is
    stored, the photo stage raises, and the post after it, with the same
    text, is never processed. *)
Lemma expired_photo_stops_pass :
  let stream := [ expired_photo_post 1 (Some text50) 100;
                  text_post 2 text50 110 ] in
  let out := collect_loop default_cfg (sample_ext stream) [] stream
               42 "delta_news" (None, 0, 0) empty_store in
  fst out = Raise photo_missing_error
  /\ map message_id (messages (snd out)) = [1].
Proof. vm_compute. split; reflexivity. Qed.

(** C1 (amended).  Take two collected, non-forward posts with the same
    non-empty text, processed in this order in one channel pass without a
    store fault, the first at a moment when no record with that fingerprint
    and an unset [is_duplicate] flag is stored, neither key being stored
    before; and let the loop over the stream return, that is, no post of
    the stream makes the pipeline raise.  Then the first is stored as
    original (flag unset, no duplicate target, its text and fingerprint
    kept) and the second as duplicate of the first post's
    [(channel id, post id)], with its text absent.  The first record stays
    the only one the lookup can answer for that fingerprint, and the lookup
    only ever answers with a record whose [is_duplicate] flag is unset. *)
Theorem duplicate_tie_break (cfg : Config) (ext : Externals)
        (rules : list ExclusionRule) (c : Z) (n : string)
        (m1 m2 : Message) (mid rest : list Message) (t : string)
        (st st' : pass_state) (s s' : Store) :
  faults s = [] ->
  m_text m1 = Some t -> m_text m2 = Some t -> t <> "" ->
  is_forward m1 = false -> is_forward m2 = false ->
  collects cfg ext rules m1 = true -> collects cfg ext rules m2 = true ->
  select_duplicate (md5_hexdigest ext t) (messages s) = None ->
  lookup_message c (m_id m1) (messages s) = None ->
  lookup_message c (m_id m2) (messages s) = None ->
  m_id m1 <> m_id m2 ->
  Forall (fun m => m_id m <> m_id m2) mid ->
  collect_loop cfg ext rules (m1 :: mid ++ m2 :: rest) c n st s
  = (Ret st', s') ->
  exists r1 r2,
    lookup_message c (m_id m1) (messages s') = Some r1
    /\ is_duplicate r1 = false
    /\ duplicate_of_channel_id r1 = None
    /\ duplicate_of_message_id r1 = None
    /\ message_text r1 = Some t
    /\ text_hash r1 = Some (md5_hexdigest ext t)
    /\ lookup_message c (m_id m2) (messages s') = Some r2
    /\ is_duplicate r2 = true
    /\ duplicate_of_channel_id r2 = Some c
    /\ duplicate_of_message_id r2 = Some (m_id m1)
    /\ message_text r2 = None
    /\ sole_original (md5_hexdigest ext t) r1 (messages s')
    /\ (forall h rows dc dm,
           select_duplicate h rows = Some (dc, dm) ->
           exists r, In r rows /\ channel_id r = dc /\ message_id r = dm
                     /\ text_hash r = Some h /\ is_duplicate r = false).
Proof.
  destruct s as [ms ims cs rs fs tr]. cbn [faults messages].
  intros -> Ht1 Ht2 Hne Hf1 Hf2 Hc1 Hc2 Hnone Hk1 Hk2 Hid Hmid Hpass.
  set (h := md5_hexdigest ext t) in *.
  assert (Htruthy : str_truthy t = true) by now apply str_truthy_true.
  (* the first post *)
  set (r1 := message_data_for ext ms m1 c).
  set (T1 := tables_after cfg ext rules c n (ms, ims) m1).
  assert (HT1 : fst T1 = (ms ++ [r1])%list).
  { destruct (tables_after_rows cfg ext rules c n (ms, ims) m1)
      as [Hsame|[_ [_ Happ]]]; [|exact Happ].
    exfalso. unfold tables_after in Hsame. rewrite Hc1 in Hsame.
    cbn [fst] in Hsame. unfold insert_message_row in Hsame.
    cbn [channel_id message_id message_data_for] in Hsame.
    rewrite existsb_find in Hsame. unfold lookup_message in Hk1.
    rewrite Hk1 in Hsame.
    apply (f_equal (@List.length _)) in Hsame.
    rewrite length_app in Hsame. cbn in Hsame. lia. }
  assert (Hr1 : is_duplicate r1 = false /\ duplicate_of_channel_id r1 = None
                /\ duplicate_of_message_id r1 = None
                /\ message_text r1 = Some t /\ text_hash r1 = Some h
                /\ channel_id r1 = c /\ message_id r1 = m_id m1).
  { unfold r1, message_data_for, text_of. rewrite Ht1, Hf1. cbn [or_empty negb andb].
    rewrite Htruthy. fold h. rewrite Hnone. cbn. repeat split. }
  destruct Hr1 as [Hd1 [Hdc1 [Hdm1 [Htx1 [Hh1 [Hch1 Hmi1]]]]]].
  assert (Hcand1 : duplicate_candidate h r1 = true).
  { unfold duplicate_candidate. rewrite Hh1, Hd1. cbn.
    now rewrite String.eqb_refl. }
  assert (Hsole1 : sole_original h r1 (fst T1)).
  { rewrite HT1. split; [apply in_or_app; right; now left|].
    split; [assumption|].
    intros r' Hin Hc'. apply in_app_or in Hin.
    destruct Hin as [Hin|[<-|[]]]; [|reflexivity].
    exfalso. unfold select_duplicate in Hnone.
    destruct (find (duplicate_candidate h) ms) eqn:Hfd; [discriminate|].
    apply (find_none _ _ Hfd) in Hin. congruence. }
  assert (Hl1 : lookup_message c (m_id m1) (fst T1) = Some r1).
  { rewrite HT1. unfold lookup_message. rewrite (find_snoc_none _ _ _ Hk1).
    unfold same_key. now rewrite Hch1, Hmi1, !Z.eqb_refl. }
  assert (Hl2 : lookup_message c (m_id m2) (fst T1) = None).
  { rewrite HT1. unfold lookup_message. rewrite (find_snoc_none _ _ _ Hk2).
    unfold same_key. rewrite Hch1, Hmi1.
    destruct (Z.eqb (m_id m1) (m_id m2)) eqn:E;
      [apply Z.eqb_eq in E; contradiction|].
    now rewrite Bool.andb_false_r. }
  (* the posts in between *)
  set (T2 := tables_after_stream cfg ext rules c n mid T1).
  pose proof (sole_original_stream cfg ext rules c n mid T1 Hsole1) as Hsole2.
  pose proof (lookup_kept_stream cfg ext rules _ _ c n mid T1 Hl1) as Hl12.
  pose proof (lookup_absent_stream cfg ext rules c n Hmid T1 Hl2) as Hl22.
  fold T2 in Hsole2, Hl12, Hl22.
  (* the second post *)
  set (r2 := message_data_for ext (fst T2) m2 c).
  set (T3 := tables_after cfg ext rules c n T2 m2).
  assert (HT3 : fst T3 = (fst T2 ++ [r2])%list).
  { destruct (tables_after_rows cfg ext rules c n T2 m2)
      as [Hsame|[_ [_ Happ]]]; [|exact Happ].
    exfalso. unfold tables_after in Hsame. rewrite Hc2 in Hsame.
    cbn [fst] in Hsame. unfold insert_message_row in Hsame.
    cbn [channel_id message_id message_data_for] in Hsame.
    rewrite existsb_find in Hsame. unfold lookup_message in Hl22.
    rewrite Hl22 in Hsame.
    apply (f_equal (@List.length _)) in Hsame.
    rewrite length_app in Hsame. cbn in Hsame. lia. }
  assert (Hr2 : is_duplicate r2 = true /\ duplicate_of_channel_id r2 = Some c
                /\ duplicate_of_message_id r2 = Some (m_id m1)
                /\ message_text r2 = None
                /\ channel_id r2 = c /\ message_id r2 = m_id m2).
  { unfold r2, message_data_for, text_of. rewrite Ht2, Hf2.
    cbn [or_empty negb andb]. rewrite Htruthy. fold h.
    rewrite (sole_original_selected Hsole2), Hch1, Hmi1. cbn. repeat split. }
  destruct Hr2 as [Hd2 [Hdc2 [Hdm2 [Htx2 [Hch2 Hmi2]]]]].
  pose proof (sole_original_step cfg ext rules c n T2 m2 Hsole2) as Hsole3.
  pose proof (lookup_kept_step cfg ext rules _ _ c n T2 m2 Hl12) as Hl13.
  fold T3 in Hsole3, Hl13.
  assert (Hl23 : lookup_message c (m_id m2) (fst T3) = Some r2).
  { rewrite HT3. unfold lookup_message. rewrite (find_snoc_none _ _ _ Hl22).
    unfold same_key. now rewrite Hch2, Hmi2, !Z.eqb_refl. }
  (* the rest of the stream *)
  set (T4 := tables_after_stream cfg ext rules c n rest T3).
  pose proof (sole_original_stream cfg ext rules c n rest T3 Hsole3) as Hsole4.
  pose proof (lookup_kept_stream cfg ext rules _ _ c n rest T3 Hl13) as Hl14.
  pose proof (lookup_kept_stream cfg ext rules _ _ c n rest T3 Hl23) as Hl24.
  fold T4 in Hsole4, Hl14, Hl24.
  assert (HT4 : tables_after_stream cfg ext rules c n
                  (m1 :: mid ++ m2 :: rest) (ms, ims) = T4).
  { unfold tables_after_stream. cbn [fold_left]. rewrite fold_left_app.
    reflexivity. }
  destruct (collect_loop_quiet cfg ext rules (m1 :: mid ++ m2 :: rest) c n
              st ms ims cs rs tr) as [tr' Hrun].
  rewrite Hpass in Hrun.
  destruct (completes cfg ext rules (m1 :: mid ++ m2 :: rest)) eqn:Hcomp;
    [|discriminate].
  rewrite (completes_reached _ _ _ _ Hcomp), HT4 in Hrun.
  injection Hrun as _ ->.
  exists r1, r2. cbn [messages].
  repeat (split; [assumption|]).
  intros h0 rows dc dm. apply select_duplicate_sound.
Qed.

(** The sample backlog: post 1 is the original, post 3 repeats its text
    after a photo post in between. *)
Lemma duplicate_tie_break_witness :
  exists st' s' r1 r2,
    collect_loop default_cfg (sample_ext sample_backlog) [subscribe_rule]
      (text_post 1 text50 100
         :: [photo_post 2 (Some "Bridge reopened") 110 7001]
         ++ text_post 3 text50 120
         :: [forwarded 900 5 (photo_post 4 (Some text50) 130 7002)])
      42 "delta_news" (None, 0, 0) sample_store
    = (Ret st', s')
    /\ faults sample_store = []
    /\ lookup_message 42 1 (messages s') = Some r1
    /\ is_duplicate r1 = false
    /\ duplicate_of_channel_id r1 = None
    /\ duplicate_of_message_id r1 = None
    /\ message_text r1 = Some text50
    /\ text_hash r1 = Some (md5_hexdigest (sample_ext sample_backlog) text50)
    /\ lookup_message 42 3 (messages s') = Some r2
    /\ is_duplicate r2 = true
    /\ duplicate_of_channel_id r2 = Some 42
    /\ duplicate_of_message_id r2 = Some 1
    /\ message_text r2 = None
    /\ sole_original (md5_hexdigest (sample_ext sample_backlog) text50) r1
         (messages s')
    /\ (forall h rows dc dm,
           select_duplicate h rows = Some (dc, dm) ->
           exists r, In r rows /\ channel_id r = dc /\ message_id r = dm
                     /\ text_hash r = Some h /\ is_duplicate r = false).
Proof.
  assert (Hpass :
            exists st' s',
              collect_loop default_cfg (sample_ext sample_backlog)
                [subscribe_rule]
                (text_post 1 text50 100
                   :: [photo_post 2 (Some "Bridge reopened") 110 7001]
                   ++ text_post 3 text50 120
                   :: [forwarded 900 5 (photo_post 4 (Some text50) 130 7002)])
                42 "delta_news" (None, 0, 0) sample_store
              = (Ret st', s'))
    by (eexists; eexists; vm_compute; reflexivity).
  destruct Hpass as [st' [s' Hpass]].
  destruct (@duplicate_tie_break default_cfg (sample_ext sample_backlog)
              [subscribe_rule] 42 "delta_news"
              (text_post 1 text50 100) (text_post 3 text50 120)
              [photo_post 2 (Some "Bridge reopened") 110 7001]
              [forwarded 900 5 (photo_post 4 (Some text50) 130 7002)]
              text50 (None, 0, 0) st' sample_store s'
              eq_refl eq_refl eq_refl
              (fun H : text50 = "" => eq_ind text50
                 (fun x => match x with EmptyString => False | _ => True end)
                 I "" H)
              eq_refl eq_refl eq_refl eq_refl eq_refl eq_refl eq_refl)
    as [r1 [r2 H]].
  - discriminate.
  - repeat constructor. discriminate.
  - exact Hpass.
  - exists st', s', r1, r2. split; [exact Hpass|]. split; [reflexivity|].
    exact H.
Defined.

(* ===================================================================== *)
(** * A channel pass that completes *)

Lemma bind_returns {A B} (c : M A) (k : A -> M B) s b s' :
  bind c k s = (Ret b, s') ->
  exists a s1, c s = (Ret a, s1) /\ k a s1 = (Ret b, s').
Proof.
  unfold bind. destruct (c s) as [[a|e] s1]; [|discriminate].
  intros H. now exists a, s1.
Qed.

Lemma bind_raises {A B} (c : M A) (k : A -> M B) s e s' :
  bind c k s = (Raise e, s') ->
  c s = (Raise e, s')
  \/ exists a s1, c s = (Ret a, s1) /\ k a s1 = (Raise e, s').
Proof.
  unfold bind. destruct (c s) as [[a|e0] s1].
  - intros H. right. now exists a, s1.
  - intros [= <- <-]. now left.
Qed.

Section PassResult.

Variable cfg : Config.
Variable ext : Externals.
Variable rules : list ExclusionRule.



Lemma pass_state_after_snoc stream m st :
  pass_state_after cfg ext rules (stream ++ [m]) st =
  let '(latest, processed, collected) :=
    pass_state_after cfg ext rules stream st in
  if collects cfg ext rules m
  then (Some (m_date m), processed + 1, collected + 1)
  else (latest, processed + 1, collected).
Proof.
  unfold pass_state_after. rewrite fold_left_app. cbn [fold_left].
  match goal with
  | |- context [fold_left ?f stream st] =>
      destruct (fold_left f stream st) as [[latest processed] collected]
  end.
  reflexivity.
Qed.

Lemma collected_of_snoc stream m :
  collected_of cfg ext rules (stream ++ [m]) =
  (collected_of cfg ext rules stream
   ++ (if collects cfg ext rules m then [m] else []))%list.
Proof. unfold collected_of. rewrite filter_app. reflexivity. Qed.

(** The counters and the latest timestamp, in terms of the collected
    posts. *)
Lemma pass_state_after_spec stream latest processed collected :
  let st := pass_state_after cfg ext rules stream
              (latest, processed, collected) in
  let kept := collected_of cfg ext rules stream in
  snd (fst st) = processed + Z.of_nat (List.length stream)
  /\ snd st = collected + Z.of_nat (List.length kept)
  /\ (kept = [] -> fst (fst st) = latest)
  /\ (forall front m, kept = (front ++ [m])%list ->
                      fst (fst st) = Some (m_date m)).
Proof.
  induction stream as [|a rest IH] using rev_ind.
  - cbn. split; [lia|]. split; [lia|]. split; [reflexivity|].
    intros front m H. now destruct front.
  - cbn zeta in *. rewrite pass_state_after_snoc, collected_of_snoc.
    destruct (pass_state_after cfg ext rules rest (latest, processed, collected))
      as [[l p] k].
    cbn [fst snd] in IH. destruct IH as [Hp [Hk [Hnone Hlast]]].
    rewrite length_app. cbn [List.length].
    destruct (collects cfg ext rules a); cbn [fst snd].
    + split; [lia|]. split; [rewrite length_app; cbn; lia|]. split.
      * intros H. now destruct (collected_of cfg ext rules rest).
      * intros front m H. apply app_inj_tail in H. now destruct H as [_ <-].
    + rewrite app_nil_r. split; [lia|]. split; [lia|]. split; auto.
Qed.



End PassResult.

Lemma set_last_fetched_id cid t c :
  telegram_channel_id (set_last_fetched cid t c) = telegram_channel_id c.
Proof. unfold set_last_fetched. now destruct (Z.eqb _ cid). Qed.

Lemma watermark_set_same cid t rows :
  existsb (fun c => Z.eqb (telegram_channel_id c) cid) rows = true ->
  watermark cid (map (set_last_fetched cid t) rows) = Some t.
Proof.
  unfold watermark. induction rows as [|c rows IH]; cbn; [discriminate|].
  rewrite set_last_fetched_id.
  destruct (Z.eqb (telegram_channel_id c) cid) eqn:E; cbn.
  - intros _. unfold set_last_fetched. now rewrite E.
  - exact IH.
Qed.




(* ===================================================================== *)
(** * Forwarded posts *)

Lemma lookup_after_insert (r : MessageRow) (rows : list MessageRow) :
  lookup_message (channel_id r) (message_id r) rows = None ->
  lookup_message (channel_id r) (message_id r) (insert_message_row r rows)
  = Some r.
Proof.
  intros H. unfold insert_message_row. rewrite existsb_find.
  unfold lookup_message in *. rewrite H.
  rewrite (find_snoc_none _ _ _ H). unfold same_key.
  now rewrite !Z.eqb_refl.
Qed.

Lemma extract_forward_channel_spec (m : Message) (ch : Z) :
  extract_forward_channel m = Some ch <->
  exists fwd, m_fwd_from m = Some fwd /\ from_id fwd = Some (PeerChannel ch).
Proof.
  unfold extract_forward_channel. split.
  - destruct (m_fwd_from m) as [fwd|]; [|discriminate].
    destruct (from_id fwd) as [[x|x|x]|] eqn:E; try discriminate.
    intros [= <-]. now exists fwd.
  - intros [fwd [-> ->]]. reflexivity.
Qed.

Lemma extract_forward_post_spec (m : Message) (p : Z) :
  extract_forward_post m = Some p <->
  exists fwd, m_fwd_from m = Some fwd /\ channel_post fwd = Some p /\ p <> 0.
Proof.
  unfold extract_forward_post. split.
  - destruct (m_fwd_from m) as [fwd|]; [|discriminate].
    destruct (channel_post fwd) as [x|] eqn:E; [|discriminate].
    destruct (Z.eqb x 0) eqn:E0; [discriminate|].
    intros [= <-]. exists fwd. apply Z.eqb_neq in E0. auto.
  - intros [fwd [-> [-> Hp]]]. apply Z.eqb_neq in Hp. now rewrite Hp.
Qed.

(** C4.  A collected post with forward metadata, whatever its photo, its
    text and the faults to come: processing it does no asset work (no
    image query, no download, no image insert), looks up no fingerprint
    and leaves [images] alone; the record it hands to the store has its
    text and fingerprint absent, is flagged as forward, and is the stored
    record when the key was free; the origin channel is stored exactly
    when the header names a channel peer, the origin post exactly when the
    header carries a (non-zero) post id, and both are absent otherwise;
    without a store fault the post is processed to the end. *)
Theorem forward_suppression (cfg : Config) (ext : Externals)
        (rules : list ExclusionRule) (m : Message) (c : Z) (n : string)
        (s : Store) :
  is_forward m = true ->
  collects cfg ext rules m = true ->
  let out := process_message cfg ext rules m c n s in
  asset_events (trace (snd out)) = asset_events (trace s)
  /\ fingerprint_lookups (trace (snd out)) = fingerprint_lookups (trace s)
  /\ images (snd out) = images s
  /\ (forall d,
         fst out = Ret (Some d) ->
         message_text d = None
         /\ text_hash d = None
         /\ is_forwarded d = true
         /\ forward_from_channel_id d = extract_forward_channel m
         /\ forward_from_message_id d = extract_forward_post m
         /\ (lookup_message c (m_id m) (messages s) = None ->
             lookup_message c (m_id m) (messages (snd out)) = Some d))
  /\ (faults s = [] -> exists d, fst out = Ret (Some d))
  /\ (forall ch, extract_forward_channel m = Some ch <->
                 exists fwd, m_fwd_from m = Some fwd
                             /\ from_id fwd = Some (PeerChannel ch))
  /\ (forall p, extract_forward_post m = Some p <->
                exists fwd, m_fwd_from m = Some fwd
                            /\ channel_post fwd = Some p /\ p <> 0).
Proof.
  intros Hf Hc out. unfold out, process_message. unfold collects in Hc.
  destruct (should_collect_message cfg ext rules m) as [b reason].
  cbn [fst] in Hc. subst b. cbn [negb]. rewrite Hf.
  unfold duplicate_check. rewrite Bool.andb_false_r.
  destruct s as [ms ims cs rs fs tr].
  unfold bind, ret, insert_message, bind, io_point, emit.
  destruct fs as [|[|] fs]; run;
    rewrite ?asset_events_app, ?fingerprint_lookups_app; cbn;
    rewrite ?app_nil_r.
  all: split; [reflexivity|]; split; [reflexivity|]; split; [reflexivity|].
  all: split; [|split; [|split; [apply extract_forward_channel_spec
                               |apply extract_forward_post_spec]]].
  all: try (intros d [= <-]; cbn;
            repeat (split; [reflexivity|]);
            apply (lookup_after_insert
                     {| channel_id := c; message_id := m_id m;
                        message_text := None; message_datetime := m_date m;
                        has_media := has_photo m; is_duplicate := false;
                        is_forwarded := true;
                        duplicate_of_channel_id := None;
                        duplicate_of_message_id := None;
                        forward_from_channel_id := extract_forward_channel m;
                        forward_from_message_id := extract_forward_post m;
                        text_hash := None;
                        grouped_id := extract_grouped_id m |})).
  all: try (intros d; discriminate).
  all: try (intros _; eexists; reflexivity).
  all: try (intros; discriminate).
Qed.

(** The forwarded photo post of the sample backlog, with a 50-character
    caption. *)
Lemma forward_suppression_witness :
  let m := forwarded 900 5 (photo_post 4 (Some text50) 130 7002) in
  let out := process_message default_cfg (sample_ext sample_backlog)
               [subscribe_rule] m 42 "delta_news" sample_store in
  has_photo m = true
  /\ asset_events (trace (snd out)) = []
  /\ fingerprint_lookups (trace (snd out)) = []
  /\ images (snd out) = []
  /\ exists d, fst out = Ret (Some d).
Proof.
  intros m out.
  destruct (@forward_suppression default_cfg (sample_ext sample_backlog)
              [subscribe_rule] m 42 "delta_news" sample_store
              eq_refl eq_refl)
    as [Ha [Hl [Hi [_ [Hret _]]]]].
  split; [reflexivity|]. split; [exact Ha|]. split; [exact Hl|].
  split; [exact Hi|]. apply Hret. reflexivity.
Defined.

(* ===================================================================== *)
(** * The records a post leaves, under any schedule of faults *)

Section Records.

Variable cfg : Config.
Variable ext : Externals.
Variable rules : list ExclusionRule.

(** The record assembled after the duplicate check is the one of
    [message_data_for] on the table as it stands. *)
Lemma duplicate_check_inv m c s a s1 :
  duplicate_check ext (is_forward m)
    (if is_forward m then None else Some (or_empty (m_text m))) s
  = (Ret a, s1) ->
  messages s1 = messages s
  /\ let '(hash, is_dup, dup_c, dup_m, stored_text) := a in
     {| channel_id := c;
        message_id := m_id m;
        message_text := stored_text;
        message_datetime := m_date m;
        has_media := has_photo m;
        is_duplicate := is_dup;
        is_forwarded := is_forward m;
        duplicate_of_channel_id := dup_c;
        duplicate_of_message_id := dup_m;
        forward_from_channel_id := extract_forward_channel m;
        forward_from_message_id := extract_forward_post m;
        text_hash := hash;
        grouped_id := extract_grouped_id m |}
     = message_data_for ext (messages s) m c.
Proof.
  unfold duplicate_check, message_data_for, text_of.
  destruct (is_forward m) eqn:Hf; cbn [negb andb].
  - unfold ret. intros [= <- <-]. split; reflexivity.
  - destruct (str_truthy (or_empty (m_text m))) eqn:Ht.
    + destruct s as [ms ims cs rs fs tr].
      unfold bind, find_duplicate, bind, io_point, emit, ret.
      destruct fs as [|[|] fs]; run; try discriminate;
        (destruct (select_duplicate (md5_hexdigest ext (or_empty (m_text m))) ms)
           as [[dc dm]|]; intros [= <- <-]; split; reflexivity).
    + unfold ret. intros [= <- <-]. split; reflexivity.
Qed.

Lemma duplicate_check_keeps_messages f t :
  stable (keeps messages) (duplicate_check ext f t).
Proof.
  unfold duplicate_check, find_duplicate. frame_solve F_messages.
Qed.

Lemma insert_message_outcome r s out s' :
  insert_message r s = (out, s') ->
  match out with
  | Ret _ => messages s' = insert_message_row r (messages s)
  | Raise _ => messages s' = messages s
  end.
Proof.
  unfold insert_message, bind, io_point, emit.
  destruct s as [ms ims cs rs fs tr].
  destruct fs as [|[|] fs]; run; intros [= <- <-]; reflexivity.
Qed.

Lemma photo_stage_keeps_messages (b : bool) m c n s :
  messages (snd ((if b then process_single_photo cfg ext m c n else ret tt) s))
  = messages s.
Proof.
  destruct b; [apply (photo_keeps_messages cfg ext m c n s) | reflexivity].
Qed.

(** One post, any faults: [messages] is left as it was, or gains, if its
    key is free, the record of [message_data_for]. *)
Lemma process_message_rows m c n s :
  messages (snd (process_message cfg ext rules m c n s)) = messages s
  \/ messages (snd (process_message cfg ext rules m c n s)) =
     insert_message_row (message_data_for ext (messages s) m c) (messages s).
Proof.
  destruct (process_message cfg ext rules m c n s) as [r s'] eqn:H.
  cbn [snd]. unfold process_message in H.
  destruct (should_collect_message cfg ext rules m) as [[|] reason];
    cbn [negb] in H.
  2: { unfold ret in H. injection H as _ <-. now left. }
  destruct r as [a|e].
  - apply bind_returns in H. destruct H as [a0 [s1 [Hd H]]].
    destruct (duplicate_check_inv m c _ Hd) as [Hms Hrow].
    destruct a0 as [[[[hash is_dup] dup_c] dup_m] stored_text].
    cbv beta iota in H. rewrite Hrow in H.
    apply bind_returns in H. destruct H as [[] [s2 [Hi H]]].
    apply bind_returns in H. destruct H as [[] [s3 [Hp H]]].
    unfold ret in H. injection H as _ <-.
    apply insert_message_outcome in Hi.
    pose proof (photo_stage_keeps_messages
                  (has_photo m && negb (is_forward m)) m c n s2) as Hk.
    rewrite Hp in Hk. cbn [snd] in Hk.
    right. now rewrite Hk, Hi, Hms.
  - apply bind_raises in H. destruct H as [Hd|[a0 [s1 [Hd H]]]].
    + left.
      pose proof (duplicate_check_keeps_messages (is_forward m)
                    (if is_forward m then None
                     else Some (or_empty (m_text m))) s) as Hk.
      rewrite Hd in Hk. exact Hk.
    + destruct (duplicate_check_inv m c _ Hd) as [Hms Hrow].
      destruct a0 as [[[[hash is_dup] dup_c] dup_m] stored_text].
      cbv beta iota in H. rewrite Hrow in H.
      apply bind_raises in H. destruct H as [Hi|[[] [s2 [Hi H]]]].
      * apply insert_message_outcome in Hi. left. now rewrite Hi.
      * apply insert_message_outcome in Hi.
        apply bind_raises in H. destruct H as [Hp|[[] [s3 [Hp H]]]].
        -- pose proof (photo_stage_keeps_messages
                         (has_photo m && negb (is_forward m)) m c n s2) as Hk.
           rewrite Hp in Hk. cbn [snd] in Hk.
           right. now rewrite Hk, Hi, Hms.
        -- discriminate.
Qed.

(** The record handed back is the one of [message_data_for]. *)
Lemma process_message_data m c n s d s' :
  process_message cfg ext rules m c n s = (Ret (Some d), s') ->
  d = message_data_for ext (messages s) m c.
Proof.
  unfold process_message.
  destruct (should_collect_message cfg ext rules m) as [[|] reason];
    cbn [negb]; [|discriminate].
  intros H. apply bind_returns in H. destruct H as [a [s1 [Hd H]]].
  destruct (duplicate_check_inv m c _ Hd) as [_ Hrow].
  destruct a as [[[[hash is_dup] dup_c] dup_m] stored_text].
  cbv beta iota in H. rewrite Hrow in H.
  apply bind_returns in H. destruct H as [_ [s2 [_ H]]].
  apply bind_returns in H. destruct H as [_ [s3 [_ H]]].
  unfold ret in H. now injection H as <-.
Qed.

End Records.

(* ===================================================================== *)
(** * The fingerprint of the stored records *)

Lemma built_row_fingerprint (ext : Externals) rows m c :
  let d := message_data_for ext rows m c in
  (text_hash d <> None <-> is_forward m = false /\ text_of m <> "")
  /\ fingerprint_rule d.
Proof.
  unfold fingerprint_rule, text_bearing, message_data_for.
  cbn [text_hash is_forwarded is_duplicate message_text].
  destruct (is_forward m); cbn [negb andb].
  { (* a forward *)
    split; [|split; [|split]].
    - split; [congruence|]. intros [H _]. discriminate.
    - split; [congruence|]. intros [H _]. discriminate.
    - discriminate.
    - auto. }
  destruct (str_truthy (text_of m)) eqn:Ht.
  - (* text-bearing *)
    pose proof (proj1 (str_truthy_true _) Ht) as Hne.
    destruct (select_duplicate (md5_hexdigest ext (text_of m)) rows)
      as [[dc dm]|].
    + split; [|split; [|split]].
      * split; [auto|discriminate].
      * split; [|discriminate]. intros _. split; [reflexivity|now left].
      * intros _. split; [discriminate|reflexivity].
      * discriminate.
    + split; [|split; [|split]].
      * split; [auto|discriminate].
      * split; [|discriminate]. intros _. split; [reflexivity|].
        right. now exists (text_of m).
      * discriminate.
      * discriminate.
  - (* no text *)
    pose proof (proj1 (str_truthy_false _) Ht) as He.
    split; [|split; [|split]].
    + split; [congruence|]. intros [_ H]. contradiction.
    + split; [congruence|].
      intros [_ [H|[t [H1 H2]]]]; [discriminate|].
      injection H1 as <-. contradiction.
    + discriminate.
    + discriminate.
Qed.

Section StoredRecords.

Variable cfg : Config.
Variable ext : Externals.
Variable P : MessageRow -> Prop.
Hypothesis P_built : forall rows m c, P (message_data_for ext rows m c).

Lemma keeps_rows_of_keeps {A} (c : M A) :
  stable (keeps messages) c -> stable (keeps_rows P) c.
Proof. intros H s. unfold keeps_rows. rewrite (H s). auto. Qed.

Lemma insert_message_row_Forall r rows :
  P r -> Forall P rows -> Forall P (insert_message_row r rows).
Proof.
  intros Hr Hrows. unfold insert_message_row.
  destruct (existsb _ rows); [assumption|].
  apply Forall_app. split; [assumption|]. now constructor.
Qed.

Lemma message_keeps_rows rules m c n :
  stable (keeps_rows P) (process_message cfg ext rules m c n).
Proof.
  intros s Hs.
  destruct (process_message_rows cfg ext rules m c n s) as [->| ->];
    [assumption|].
  now apply insert_message_row_Forall.
Qed.

Lemma update_keeps_rows c t :
  stable (keeps_rows P) (update_channel_last_fetched c t).
Proof.
  apply keeps_rows_of_keeps. unfold update_channel_last_fetched.
  frame_solve F_messages.
Qed.

Lemma channel_pass_keeps_rows rules ci :
  stable (keeps_rows P) (channel_pass cfg ext rules ci).
Proof.
  unfold channel_pass.
  apply (stable_bind (keeps_rows_frame P)).
  - apply (@collect_loop_stable cfg ext rules _ (keeps_rows_frame P)).
    intros. apply message_keeps_rows.
  - intros [[latest processed] collected].
    apply (stable_bind (keeps_rows_frame P)).
    + destruct latest; [apply update_keeps_rows|].
      apply (stable_ret (keeps_rows_frame P)).
    + intros _. apply keeps_rows_of_keeps. frame_solve F_messages.
Qed.

Lemma process_channel_keeps_rows rules ci :
  stable (keeps_rows P) (process_channel cfg ext rules ci).
Proof.
  unfold process_channel.
  apply (stable_bind (keeps_rows_frame P)).
  - apply keeps_rows_of_keeps. frame_leaf.
  - intros _. apply (stable_try (keeps_rows_frame P)).
    + apply (stable_bind (keeps_rows_frame P));
        [apply channel_pass_keeps_rows|].
      intros. apply (stable_ret (keeps_rows_frame P)).
    + intros _. apply keeps_rows_of_keeps. frame_leaf.
Qed.

Lemma process_channels_keeps_rows rules chans :
  stable (keeps_rows P) (process_channels cfg ext rules chans).
Proof.
  induction chans as [|ci rest IH]; cbn [process_channels].
  - apply (stable_ret (keeps_rows_frame P)).
  - apply (stable_bind (keeps_rows_frame P));
      [apply process_channel_keeps_rows | intros _; exact IH].
Qed.

Lemma run_keeps_rows : stable (keeps_rows P) (run cfg ext).
Proof.
  unfold run.
  apply (stable_bind (keeps_rows_frame P)).
  { apply keeps_rows_of_keeps. unfold get_active_exclusion_rules.
    frame_solve F_messages. }
  intros rules.
  apply (stable_bind (keeps_rows_frame P));
    [apply (stable_io_point (keeps_rows_frame P))|].
  intros _.
  apply (stable_bind (keeps_rows_frame P)).
  { apply keeps_rows_of_keeps. unfold get_all_channels.
    frame_solve F_messages. }
  intros [|ci chans]; [apply (stable_ret (keeps_rows_frame P))|].
  apply process_channels_keeps_rows.
Qed.

End StoredRecords.

(** C7, as stated, fails: the third post of the sample backlog repeats the
    text of the first; it is stored flagged as duplicate, its text absent,
    and with its fingerprint present. *)
Lemma duplicate_keeps_fingerprint_counterexample :
  option_map is_duplicate (lookup_message 42 3 (messages sample_replayed))
  = Some true
  /\ option_map message_text (lookup_message 42 3 (messages sample_replayed))
     = Some None
  /\ option_map text_hash (lookup_message 42 3 (messages sample_replayed))
     = Some (Some (md5_hexdigest (sample_ext sample_backlog) text50)).
Proof. vm_compute. repeat split. Qed.

(** C7 (amended).  Every record a run stores has a fingerprint if and only
    if it is the record of a non-forward, text-bearing post, duplicate or
    not: a record flagged as duplicate keeps its fingerprint and has no
    text, a forward has neither.  This holds of the whole [messages] table
    after a run, under any faults, if it held before; and the record
    [process_message] hands back has a fingerprint exactly when the post
    is not a forward and its text is non-empty. *)
Theorem fingerprint_presence (cfg : Config) (ext : Externals) (s : Store) :
  Forall fingerprint_rule (messages s) ->
  Forall fingerprint_rule (messages (snd (run cfg ext s)))
  /\ (forall rules m c n s0 d s1,
         process_message cfg ext rules m c n s0 = (Ret (Some d), s1) ->
         (text_hash d <> None <-> is_forward m = false /\ text_of m <> "")
         /\ (is_duplicate d = true ->
             text_hash d <> None /\ message_text d = None)).
Proof.
  intros Hs. split.
  - apply (@run_keeps_rows cfg ext fingerprint_rule); [|assumption].
    intros rows m c. apply built_row_fingerprint.
  - intros rules m c n s0 d s1 H.
    apply process_message_data in H. subst d.
    destruct (built_row_fingerprint ext (messages s0) m c) as [Hsrc Hrule].
    split; [exact Hsrc|]. apply Hrule.
Qed.

(** The sample run from the sample store, whose [messages] table is
    empty. *)
Lemma fingerprint_presence_witness :
  Forall fingerprint_rule
    (messages (snd (run default_cfg (sample_ext sample_backlog) sample_store))).
Proof.
  apply (proj1 (@fingerprint_presence default_cfg (sample_ext sample_backlog)
                  sample_store (Forall_nil _))).
Defined.

(* ===================================================================== *)
(** * Both tables after one post, under any schedule of faults *)

Section Tables.

Variable cfg : Config.
Variable ext : Externals.
Variable rules : list ExclusionRule.

Lemma insert_message_keeps_images r :
  stable (keeps images) (insert_message r).
Proof. unfold insert_message. frame_solve F_images. Qed.

Lemma duplicate_check_keeps_images f t :
  stable (keeps images) (duplicate_check ext f t).
Proof. unfold duplicate_check, find_duplicate. frame_solve F_images. Qed.

(** The photo stage leaves [images] as it was or inserts one row, owned
    by the post at hand. *)
Lemma photo_images m c n s :
  images (snd (process_single_photo cfg ext m c n s)) = images s
  \/ exists i,
      message_channel_id i = c /\ message_message_id i = m_id m
      /\ images (snd (process_single_photo cfg ext m c n s)) =
         insert_image_row i (images s).
Proof.
  destruct s as [ms ims cs rs fs tr].
  unfold process_single_photo.
  destruct (message_photo m) as [p|]; [|now left].
  unfold bind, image_exists, bind, io_point, emit, ret.
  destruct fs as [|[|] fs]; run; try (now left).
  - destruct (has_file_id (str_of_int (photo_id p)) ims); [now left|].
    rewrite download_and_compress_photo_returns. run.
    destruct (asset_data cfg ext m n (str_of_int (photo_id p)))
      as [[[[[path o] cz] w] h]|]; [|now left].
    unfold insert_image, bind, io_point, emit. run.
    right. eexists. split; [|split]; [| |reflexivity]; reflexivity.
  - destruct (has_file_id (str_of_int (photo_id p)) ims); [now left|].
    rewrite download_and_compress_photo_returns. run.
    destruct (asset_data cfg ext m n (str_of_int (photo_id p)))
      as [[[[[path o] cz] w] h]|]; [|now left].
    unfold insert_image, bind, io_point, emit. run.
    destruct fs as [|[|] fs]; run; try (now left);
      right; eexists; (split; [|split]; [| |reflexivity]; reflexivity).
Qed.

(** One post, any faults: both tables are left as they were, or the
    record of [message_data_for] is inserted and then at most one image
    row, owned by this post. *)
Lemma process_message_tables m c n s :
  let s' := snd (process_message cfg ext rules m c n s) in
  (messages s' = messages s /\ images s' = images s)
  \/ (messages s' =
      insert_message_row (message_data_for ext (messages s) m c) (messages s)
      /\ (images s' = images s
          \/ exists i,
              message_channel_id i = c /\ message_message_id i = m_id m
              /\ images s' = insert_image_row i (images s))).
Proof.
  cbv zeta.
  destruct (process_message cfg ext rules m c n s) as [r s'] eqn:H.
  cbn [snd]. unfold process_message in H.
  destruct (should_collect_message cfg ext rules m) as [[|] reason];
    cbn [negb] in H.
  2: { unfold ret in H. injection H as _ <-. now left. }
  assert (Hphoto :
            forall s2 out s3,
              (if (has_photo m && negb (is_forward m))%bool
               then process_single_photo cfg ext m c n else ret tt) s2
              = (out, s3) ->
              messages s3 = messages s2
              /\ (images s3 = images s2
                  \/ exists i,
                      message_channel_id i = c /\ message_message_id i = m_id m
                      /\ images s3 = insert_image_row i (images s2))).
  { intros s2 out s3 Hp.
    pose proof (photo_stage_keeps_messages cfg ext
                  (has_photo m && negb (is_forward m)) m c n s2) as Hk.
    rewrite Hp in Hk. cbn [snd] in Hk. split; [exact Hk|].
    destruct (has_photo m && negb (is_forward m))%bool.
    - pose proof (photo_images m c n s2) as Hi. rewrite Hp in Hi. exact Hi.
    - unfold ret in Hp. injection Hp as _ <-. now left. }
  assert (Hdup :
            forall out s1,
              duplicate_check ext (is_forward m)
                (if is_forward m then None else Some (or_empty (m_text m))) s
              = (out, s1) ->
              messages s1 = messages s /\ images s1 = images s).
  { intros out s1 Hd.
    pose proof (duplicate_check_keeps_messages ext (is_forward m)
                  (if is_forward m then None else Some (or_empty (m_text m)))
                  s) as H1.
    pose proof (duplicate_check_keeps_images (is_forward m)
                  (if is_forward m then None else Some (or_empty (m_text m)))
                  s) as H2.
    rewrite Hd in H1, H2. auto. }
  assert (Hins :
            forall r0 s1 out s2,
              insert_message r0 s1 = (out, s2) -> images s2 = images s1).
  { intros r0 s1 out s2 Hi.
    pose proof (insert_message_keeps_images r0 s1) as Hk.
    rewrite Hi in Hk. exact Hk. }
  destruct r as [a|e].
  - apply bind_returns in H. destruct H as [a0 [s1 [Hd H]]].
    destruct (@duplicate_check_inv ext m c _ _ _ Hd) as [_ Hrow].
    destruct (Hdup _ _ Hd) as [Hms1 Him1].
    destruct a0 as [[[[hash is_dup] dup_c] dup_m] stored_text].
    cbv beta iota in H. rewrite Hrow in H.
    apply bind_returns in H. destruct H as [[] [s2 [Hi H]]].
    apply bind_returns in H. destruct H as [[] [s3 [Hp H]]].
    unfold ret in H. injection H as _ <-.
    pose proof (Hins _ _ _ _ Hi) as Him2.
    apply insert_message_outcome in Hi.
    destruct (Hphoto _ _ _ Hp) as [Hms3 Him3].
    right. split; [now rewrite Hms3, Hi, Hms1|].
    rewrite <- Him1, <- Him2. exact Him3.
  - apply bind_raises in H. destruct H as [Hd|[a0 [s1 [Hd H]]]].
    + left. now apply Hdup in Hd.
    + destruct (@duplicate_check_inv ext m c _ _ _ Hd) as [_ Hrow].
      destruct (Hdup _ _ Hd) as [Hms1 Him1].
      destruct a0 as [[[[hash is_dup] dup_c] dup_m] stored_text].
      cbv beta iota in H. rewrite Hrow in H.
      apply bind_raises in H. destruct H as [Hi|[[] [s2 [Hi H]]]].
      * left. pose proof (Hins _ _ _ _ Hi) as Him2.
        apply insert_message_outcome in Hi. split; congruence.
      * pose proof (Hins _ _ _ _ Hi) as Him2.
        apply insert_message_outcome in Hi.
        apply bind_raises in H. destruct H as [Hp|[[] [s3 [Hp H]]]];
          [|discriminate].
        destruct (Hphoto _ _ _ Hp) as [Hms3 Him3].
        right. split; [now rewrite Hms3, Hi, Hms1|].
        rewrite <- Him1, <- Him2. exact Him3.
Qed.

End Tables.

(* ===================================================================== *)
(** * What a whole run keeps *)

Section RunStable.

Variable cfg : Config.
Variable ext : Externals.
Variable R : Store -> Store -> Prop.
Hypothesis F : frame R.
Hypothesis R_tables :
  forall s s', messages s' = messages s -> images s' = images s -> R s s'.
Hypothesis R_message :
  forall rules m c n, stable R (process_message cfg ext rules m c n).

Lemma stable_of_tables {A} (c : M A) :
  stable (keeps messages) c -> stable (keeps images) c -> stable R c.
Proof. intros H1 H2 s. apply R_tables; [apply H1 | apply H2]. Qed.

Lemma emit_stable e : stable R (emit e).
Proof. apply stable_of_tables; frame_leaf. Qed.

Lemma update_stable c t : stable R (update_channel_last_fetched c t).
Proof.
  apply stable_of_tables; unfold update_channel_last_fetched;
    [frame_solve F_messages | frame_solve F_images].
Qed.

Lemma channel_pass_stable rules ci :
  stable R (channel_pass cfg ext rules ci).
Proof.
  unfold channel_pass.
  apply (stable_bind F).
  - apply (@collect_loop_stable cfg ext rules _ F). intros. apply R_message.
  - intros [[latest processed] collected].
    apply (stable_bind F).
    + destruct latest; [apply update_stable | apply (stable_ret F)].
    + intros _. apply (stable_bind F); [apply emit_stable|].
      intros _. apply (stable_ret F).
Qed.

Lemma process_channel_stable rules ci :
  stable R (process_channel cfg ext rules ci).
Proof.
  unfold process_channel.
  apply (stable_bind F); [apply emit_stable|]. intros _.
  apply (stable_try F).
  - apply (stable_bind F); [apply channel_pass_stable|].
    intros. apply (stable_ret F).
  - intros _. apply emit_stable.
Qed.

Lemma process_channels_stable rules chans :
  stable R (process_channels cfg ext rules chans).
Proof.
  induction chans as [|ci rest IH]; cbn [process_channels].
  - apply (stable_ret F).
  - apply (stable_bind F); [apply process_channel_stable | intros _; exact IH].
Qed.

Lemma run_stable : stable R (run cfg ext).
Proof.
  unfold run.
  apply (stable_bind F).
  { apply stable_of_tables; unfold get_active_exclusion_rules;
      [frame_solve F_messages | frame_solve F_images]. }
  intros rules.
  apply (stable_bind F); [apply (stable_io_point F)|]. intros _.
  apply (stable_bind F).
  { apply stable_of_tables; unfold get_all_channels;
      [frame_solve F_messages | frame_solve F_images]. }
  intros [|ci chans]; [apply (stable_ret F)|].
  apply process_channels_stable.
Qed.

End RunStable.

Lemma keeps_table_frame (Q : list MessageRow -> Prop) : frame (keeps_table Q).
Proof. split; unfold keeps_table; cbn; auto. Qed.

Lemma keeps_image_table_frame (Q : list ImageRow -> Prop) :
  frame (keeps_image_table Q).
Proof. split; unfold keeps_image_table; cbn; auto. Qed.

(** A property of [messages] that survives the insertion of the record of
    any post survives a run, whatever the faults. *)
Lemma run_keeps_table (cfg : Config) (ext : Externals)
      (Q : list MessageRow -> Prop) :
  (forall rows m c,
      Q rows -> Q (insert_message_row (message_data_for ext rows m c) rows)) ->
  stable (keeps_table Q) (run cfg ext).
Proof.
  intros HQ. apply (@run_stable cfg ext _ (keeps_table_frame Q)).
  - intros s s' Hm _. unfold keeps_table. now rewrite Hm.
  - intros rules m c n s Hs.
    destruct (process_message_rows cfg ext rules m c n s) as [->| ->]; auto.
Qed.

(** A property of [images] that survives any insert-or-ignore survives a
    run, whatever the faults. *)
Lemma run_keeps_image_table (cfg : Config) (ext : Externals)
      (Q : list ImageRow -> Prop) :
  (forall rows i, Q rows -> Q (insert_image_row i rows)) ->
  stable (keeps_image_table Q) (run cfg ext).
Proof.
  intros HQ. apply (@run_stable cfg ext _ (keeps_image_table_frame Q)).
  - intros s s' _ Hi. unfold keeps_image_table. now rewrite Hi.
  - intros rules m c n s Hs.
    destruct (process_message_tables cfg ext rules m c n s)
      as [[_ Hi]|[_ [Hi|[i [_ [_ Hi]]]]]];
      unfold keeps_image_table; rewrite Hi; auto.
Qed.

(* ===================================================================== *)
(** * Invariants of the two tables over a run *)

Lemma NoDup_snoc {A} (l : list A) (a : A) :
  NoDup l -> ~ In a l -> NoDup (l ++ [a]).
Proof.
  induction 1 as [|x l Hx Hl IH]; intros Ha; cbn.
  - constructor; [intros []|constructor].
  - constructor.
    + intros Hin. apply in_app_or in Hin. destruct Hin as [Hin|[<-|[]]].
      * contradiction.
      * apply Ha. now left.
    + apply IH. intros Hin. apply Ha. now right.
Qed.

Lemma same_key_absent c i rows :
  existsb (same_key c i) rows = false -> ~ In (c, i) (map message_key rows).
Proof.
  intros H Hin. apply in_map_iff in Hin. destruct Hin as [r [Hk Hr]].
  assert (Ht : existsb (same_key c i) rows = true).
  { apply existsb_exists. exists r. split; [assumption|].
    unfold message_key in Hk. injection Hk as <- <-.
    unfold same_key. now rewrite !Z.eqb_refl. }
  congruence.
Qed.

Lemma insert_message_row_unique_keys r rows :
  unique_keys rows -> unique_keys (insert_message_row r rows).
Proof.
  unfold unique_keys, insert_message_row. intros H.
  destruct (existsb (same_key (channel_id r) (message_id r)) rows) eqn:E;
    [assumption|].
  rewrite map_app. cbn [map]. apply NoDup_snoc; [assumption|].
  now apply same_key_absent.
Qed.

Lemma has_file_id_absent f rows :
  has_file_id f rows = false -> ~ In f (map file_id rows).
Proof.
  intros H Hin. apply in_map_iff in Hin. destruct Hin as [i [Hf Hi]].
  assert (Ht : has_file_id f rows = true).
  { apply existsb_exists. exists i. split; [assumption|].
    subst f. apply String.eqb_refl. }
  congruence.
Qed.

Lemma insert_image_row_unique_ids i rows :
  unique_file_ids rows -> unique_file_ids (insert_image_row i rows).
Proof.
  unfold unique_file_ids, insert_image_row. intros H.
  destruct (has_file_id (file_id i) rows) eqn:E; [assumption|].
  rewrite map_app. cbn [map]. apply NoDup_snoc; [assumption|].
  now apply has_file_id_absent.
Qed.

(** A record built while no stored record answers for its fingerprint is
    the only candidate for it once inserted. *)
Lemma insert_built_row_unique_originals (ext : Externals) rows m c :
  unique_originals rows ->
  unique_originals (insert_message_row (message_data_for ext rows m c) rows).
Proof.
  intros Hu. unfold insert_message_row.
  destruct (existsb _ rows); [assumption|].
  set (d := message_data_for ext rows m c).
  assert (Hd : forall h r, In r rows -> duplicate_candidate h r = true ->
                           duplicate_candidate h d = true -> False).
  { intros h r Hin Hr Hc. unfold d, duplicate_candidate, message_data_for in Hc.
    cbn [text_hash is_duplicate] in Hc.
    destruct (negb (is_forward m) && str_truthy (text_of m))%bool;
      [|discriminate].
    cbn [option_string_eqb] in Hc.
    apply Bool.andb_true_iff in Hc. destruct Hc as [Hh Hdup].
    apply String.eqb_eq in Hh. rewrite Hh in Hdup.
    unfold select_duplicate in Hdup.
    destruct (find (duplicate_candidate h) rows) eqn:Hf; [discriminate|].
    apply (find_none _ _ Hf) in Hin. congruence. }
  intros h r1 r2 H1 H2 Hc1 Hc2.
  apply in_app_or in H1. apply in_app_or in H2.
  destruct H1 as [H1|[<-|[]]], H2 as [H2|[<-|[]]].
  - now apply (Hu h).
  - exfalso. now apply (Hd h r1).
  - exfalso. now apply (Hd h r2).
  - reflexivity.
Qed.

(** X1.  A run never updates or deletes a stored post or image: whatever
    the platform serves and whichever calls fault, both tables after the
    run are the tables before it with rows appended. *)
Theorem stored_rows_append_only (cfg : Config) (ext : Externals) (s : Store) :
  (exists added, messages (snd (run cfg ext s)) = (messages s ++ added)%list)
  /\ (exists added, images (snd (run cfg ext s)) = (images s ++ added)%list).
Proof.
  split.
  - apply (@run_stable cfg ext _ F_grow_messages).
    + intros s0 s' Hm _. exists []. unfold grows. now rewrite Hm, app_nil_r.
    + intros. apply message_grows_messages.
  - apply (@run_stable cfg ext _ F_grow_images).
    + intros s0 s' _ Hi. exists []. unfold grows. now rewrite Hi, app_nil_r.
    + intros. apply message_grows_images.
Qed.

(** X2.  The primary keys stay keys: if no two stored posts share
    [(channel_id, message_id)] and no two images share a file id before a
    run, the same holds after it, under any faults. *)
Theorem primary_keys_stay_unique (cfg : Config) (ext : Externals) (s : Store) :
  unique_keys (messages s) ->
  unique_file_ids (images s) ->
  unique_keys (messages (snd (run cfg ext s)))
  /\ unique_file_ids (images (snd (run cfg ext s))).
Proof.
  intros Hk Hf. split.
  - apply (@run_keeps_table cfg ext unique_keys); [|assumption].
    intros rows m c. apply insert_message_row_unique_keys.
  - apply (@run_keeps_image_table cfg ext unique_file_ids); [|assumption].
    intros rows i. apply insert_image_row_unique_ids.
Qed.

Lemma primary_keys_stay_unique_witness :
  unique_keys
    (messages (snd (run default_cfg (sample_ext sample_backlog) sample_store)))
  /\ unique_file_ids
       (images (snd (run default_cfg (sample_ext sample_backlog) sample_store))).
Proof.
  apply (@primary_keys_stay_unique default_cfg (sample_ext sample_backlog)
           sample_store); constructor.
Defined.

(** X3.  The duplicate index stays a function: if at most one stored
    record per fingerprint has its [is_duplicate] flag unset before a run,
    the same holds after it, under any faults; so the answer of
    [find_duplicate] does not depend on which matching row the store
    returns. *)
Theorem one_original_per_fingerprint (cfg : Config) (ext : Externals)
        (s : Store) :
  unique_originals (messages s) ->
  unique_originals (messages (snd (run cfg ext s))).
Proof.
  apply (@run_keeps_table cfg ext unique_originals).
  intros rows m c. apply insert_built_row_unique_originals.
Qed.

Lemma one_original_per_fingerprint_witness :
  unique_originals (messages sample_store)
  /\ unique_originals
       (messages (snd (run default_cfg (sample_ext sample_backlog)
                         sample_store))).
Proof.
  assert (H0 : unique_originals (messages sample_store)).
  { change (unique_originals []). intros h r1 r2 H. destruct H. }
  split; [exact H0|].
  exact (@one_original_per_fingerprint default_cfg
           (sample_ext sample_backlog) sample_store H0).
Defined.

Lemma keeps_owned_frame : frame (keeps_store images_owned).
Proof. split; unfold keeps_store, images_owned; cbn; auto. Qed.

Lemma in_insert_image_row i0 i rows :
  In i0 (insert_image_row i rows) -> In i0 rows \/ i0 = i.
Proof.
  unfold insert_image_row. destruct (has_file_id (file_id i) rows); [auto|].
  intros H. apply in_app_or in H. destruct H as [H|[H|[]]]; auto.
Qed.

(** X4.  Every image belongs to a stored post, before and so after a run,
    under any faults: [process_message] inserts the post first and starts
    the photo stage only once that insert returned. *)
Theorem images_stay_owned (cfg : Config) (ext : Externals) (s : Store) :
  images_owned s -> images_owned (snd (run cfg ext s)).
Proof.
  apply (@run_stable cfg ext _ keeps_owned_frame).
  - intros s0 s' Hm Hi H i Hin. rewrite Hm. apply H. now rewrite <- Hi.
  - intros rules m c n s0 H.
    destruct (process_message_tables cfg ext rules m c n s0)
      as [[Hm Hi]|[Hm [Hi|[i [Hc [Hid Hi]]]]]];
      cbv zeta in *; intros i0 Hin; rewrite Hm; rewrite Hi in Hin.
    + now apply H.
    + apply insert_message_row_keeps_keys. now apply H.
    + apply in_insert_image_row in Hin. destruct Hin as [Hin| ->].
      * apply insert_message_row_keeps_keys. now apply H.
      * rewrite Hc, Hid.
        apply (insert_message_row_has_key (message_data_for ext (messages s0) m c)).
Qed.

Lemma images_stay_owned_witness :
  images_owned sample_store
  /\ images_owned (snd (run default_cfg (sample_ext sample_backlog) sample_store)).
Proof.
  assert (H0 : images_owned sample_store).
  { intros i H. destruct H. }
  split; [exact H0|].
  exact (@images_stay_owned default_cfg (sample_ext sample_backlog)
           sample_store H0).
Defined.

(* ===================================================================== *)
(** * Exclusion rules *)

Section ExclusionRules.

Variable ext : Externals.

(** What one rule says of a text: the test of one round of the loop of
    [should_exclude_message]. *)
Lemma should_exclude_single t r :
  should_exclude_message ext t [r] =
  (let text_to_check := if is_case_sensitive r then t else str_lower ext t in
   let pattern_to_check :=
     if is_case_sensitive r then pattern r else str_lower ext (pattern r) in
   if String.eqb (rule_type r) "exact"
   then String.eqb text_to_check pattern_to_check
   else if String.eqb (rule_type r) "contains"
        then str_in pattern_to_check text_to_check
        else false).
Proof.
  cbn. destruct (String.eqb (rule_type r) "exact").
  - now destruct (String.eqb _ _).
  - destruct (String.eqb (rule_type r) "contains"); [|reflexivity].
    now destruct (str_in _ _).
Qed.

Lemma should_exclude_cons t r rs :
  should_exclude_message ext t (r :: rs) =
  (should_exclude_message ext t [r] || should_exclude_message ext t rs)%bool.
Proof.
  cbn. destruct (String.eqb (rule_type r) "exact").
  - now destruct (String.eqb _ _).
  - destruct (String.eqb (rule_type r) "contains"); [|reflexivity].
    now destruct (str_in _ _).
Qed.

Lemma should_exclude_app t rs1 rs2 :
  should_exclude_message ext t (rs1 ++ rs2) =
  (should_exclude_message ext t rs1 || should_exclude_message ext t rs2)%bool.
Proof.
  induction rs1 as [|r rs1 IH]; [reflexivity|].
  rewrite <- app_comm_cons, should_exclude_cons, IH, Bool.orb_assoc.
  now rewrite <- should_exclude_cons.
Qed.

Lemma should_exclude_permutation t rs rs' :
  Permutation rs rs' ->
  should_exclude_message ext t rs = should_exclude_message ext t rs'.
Proof.
  induction 1 as [|r l l' _ IH|a b l|l l' l'' _ IH1 _ IH2].
  - reflexivity.
  - now rewrite (should_exclude_cons t r l), (should_exclude_cons t r l'), IH.
  - rewrite (should_exclude_cons t b (a :: l)), (should_exclude_cons t a l),
      (should_exclude_cons t a (b :: l)), (should_exclude_cons t b l).
    now rewrite !Bool.orb_assoc, (Bool.orb_comm (should_exclude_message ext t [b])).
  - congruence.
Qed.

End ExclusionRules.

(** X5.  Whether a text is excluded does not depend on the order of the
    rules: a rule list excludes a text exactly when one of its rules alone
    does, a list in another order excludes the same texts, adding rules
    only adds exclusions, and a rule whose kind is neither [exact] nor
    [contains] never excludes anything. *)
Theorem exclusion_is_any_rule (ext : Externals) (t : string)
        (rs rs' : list ExclusionRule) :
  (should_exclude_message ext t rs = true <->
   exists r, In r rs /\ should_exclude_message ext t [r] = true)
  /\ should_exclude_message ext t (rs ++ rs') =
     (should_exclude_message ext t rs || should_exclude_message ext t rs')%bool
  /\ (Permutation rs rs' ->
      should_exclude_message ext t rs = should_exclude_message ext t rs')
  /\ (forall r, String.eqb (rule_type r) "exact" = false ->
                String.eqb (rule_type r) "contains" = false ->
                should_exclude_message ext t (r :: rs) =
                should_exclude_message ext t rs).
Proof.
  split; [|split; [|split]].
  - induction rs as [|r rs IH].
    + split; [discriminate|]. intros [r [[] _]].
    + rewrite should_exclude_cons, Bool.orb_true_iff, IH. split.
      * intros [H|[r' [Hin H]]]; [exists r | exists r']; cbn; auto.
      * intros [r' [[<-|Hin] H]]; [now left|]. right. now exists r'.
  - apply should_exclude_app.
  - apply should_exclude_permutation.
  - intros r H1 H2. rewrite should_exclude_cons, should_exclude_single.
    now rewrite H1, H2.
Qed.

Lemma exclusion_is_any_rule_witness :
  should_exclude_message (sample_ext []) "Subscribe now!"
    [empty_exact_rule; subscribe_rule] =
  should_exclude_message (sample_ext []) "Subscribe now!"
    [subscribe_rule; empty_exact_rule].
Proof.
  apply (proj1 (proj2 (proj2 (exclusion_is_any_rule (sample_ext [])
                                "Subscribe now!"
                                [empty_exact_rule; subscribe_rule]
                                [subscribe_rule; empty_exact_rule])))).
  apply perm_swap.
Defined.

Lemma prefix_spec (p t : string) :
  prefix p t = true <-> exists b, t = p ++ b.
Proof.
  revert t. induction p as [|c p IH]; intros t.
  - split; [intros _; now exists t | intros _; now destruct t].
  - destruct t as [|c' t]; cbn.
    + split; [discriminate|]. intros [b H]. discriminate.
    + destruct (Ascii.ascii_dec c c') as [->|Hne].
      * rewrite IH. split; intros [b H]; exists b; [now rewrite H|].
        now injection H.
      * split; [discriminate|]. intros [b H]. injection H as H _. congruence.
Qed.

Lemma str_in_spec (p t : string) :
  str_in p t = true <-> exists a b, t = a ++ p ++ b.
Proof.
  induction t as [|c t IH].
  - cbn [str_in]. destruct (prefix p "") eqn:Hp.
    + split; [|reflexivity]. intros _. apply prefix_spec in Hp.
      destruct Hp as [b Hb]. now exists "", b.
    + split; [discriminate|]. intros [a [b H]].
      destruct a; [|discriminate]. cbn in H.
      assert (Ht : prefix p "" = true) by (apply prefix_spec; now exists b).
      congruence.
  - cbn [str_in]. destruct (prefix p (String c t)) eqn:Hp.
    + split; [|reflexivity]. intros _. apply prefix_spec in Hp.
      destruct Hp as [b Hb]. now exists "", b.
    + rewrite IH. split.
      * intros [a [b H]]. exists (String c a), b. cbn. now rewrite H.
      * intros [a [b H]]. destruct a as [|c' a].
        -- cbn in H.
           assert (Ht : prefix p (String c t) = true)
             by (apply prefix_spec; now exists b).
           congruence.
        -- cbn in H. injection H as _ H. now exists a, b.
Qed.

Lemma should_exclude_in (ext : Externals) (t : string) (r : ExclusionRule)
      (rs : list ExclusionRule) :
  In r rs ->
  should_exclude_message ext t [r] = true ->
  should_exclude_message ext t rs = true.
Proof.
  induction rs as [|r0 rs IH]; [intros []|].
  intros [->|Hin] H; rewrite should_exclude_cons.
  - now rewrite H.
  - rewrite (IH Hin H). apply Bool.orb_true_r.
Qed.

(** X6.  A case-sensitive [contains] rule excludes exactly the texts in
    which its pattern occurs as a contiguous run, a case-sensitive [exact]
    rule exactly the text equal to its pattern.  So with a case-sensitive
    [contains] rule of empty pattern among the active rules, every post
    with a non-empty text is dropped, photo or not. *)
Theorem case_sensitive_rule_matches (cfg : Config) (ext : Externals)
        (r : ExclusionRule) (t : string) :
  is_case_sensitive r = true ->
  (rule_type r = "contains" ->
   (should_exclude_message ext t [r] = true <->
    exists a b, t = a ++ pattern r ++ b))
  /\ (rule_type r = "exact" ->
      (should_exclude_message ext t [r] = true <-> t = pattern r))
  /\ (rule_type r = "contains" -> pattern r = "" ->
      forall rules m,
        In r rules -> text_of m <> "" -> collects cfg ext rules m = false).
Proof.
  intros Hcs. split; [|split].
  - intros Hty. rewrite should_exclude_single, Hcs, Hty. cbn.
    apply str_in_spec.
  - intros Hty. rewrite should_exclude_single, Hcs, Hty. cbn.
    apply String.eqb_eq.
  - intros Hty Hpat rules m Hin Hne.
    assert (Hex : should_exclude_message ext (text_of m) rules = true).
    { apply (should_exclude_in ext (text_of m) r rules Hin).
      rewrite should_exclude_single, Hcs, Hty, Hpat. cbn.
      apply str_in_spec. now exists "", (text_of m). }
    rewrite collects_closed_form. unfold excluded.
    apply str_truthy_true in Hne. now rewrite Hne, Hex.
Qed.

Lemma case_sensitive_rule_matches_witness :
  collects default_cfg (sample_ext [])
    [ {| pattern := ""; rule_type := "contains"; is_case_sensitive := true |} ]
    (photo_post 2 (Some "Bridge reopened") 110 7001) = false.
Proof.
  refine (proj2 (proj2 (@case_sensitive_rule_matches default_cfg (sample_ext [])
            {| pattern := ""; rule_type := "contains";
               is_case_sensitive := true |} "" eq_refl))
            eq_refl eq_refl _ _ _ _).
  - now left.
  - discriminate.
Defined.

(* ===================================================================== *)
(** * The SQLite backend against the PostgreSQL backend *)

(** X7.  The two backends exclude the same non-empty texts; on the empty
    text the SQLite backend never excludes, which is the guarded test
    [should_collect_message] applies to the PostgreSQL answer.  An empty
    fingerprint, which the SQLite backend gives the empty text, is looked
    up without any store access and never found; any other fingerprint is
    looked up as by the PostgreSQL backend. *)
Theorem sqlite_backend_agrees (ext : Externals) (t : string)
        (rules : list ExclusionRule) (s : Store) :
  sqlite_should_exclude_message ext t rules =
  (str_truthy t && should_exclude_message ext t rules)%bool
  /\ (t <> "" ->
      sqlite_should_exclude_message ext t rules =
      should_exclude_message ext t rules)
  /\ sqlite_find_duplicate (sqlite_calculate_text_hash ext "") s = (Ret None, s)
  /\ (t <> "" -> sqlite_find_duplicate t s = find_duplicate t s).
Proof.
  assert (H1 : sqlite_should_exclude_message ext t rules =
               (str_truthy t && should_exclude_message ext t rules)%bool).
  { unfold sqlite_should_exclude_message.
    destruct (str_truthy t); cbn; [|reflexivity].
    now destruct rules. }
  split; [exact H1|]. split; [|split].
  - intros Hne. apply str_truthy_true in Hne. now rewrite H1, Hne.
  - reflexivity.
  - intros Hne. apply str_truthy_true in Hne.
    unfold sqlite_find_duplicate. now rewrite Hne.
Qed.

(** The empty caption and the empty-pattern rule: the backends differ
    there; on a real text they agree. *)
Lemma sqlite_backend_agrees_witness :
  should_exclude_message (sample_ext []) "" [empty_exact_rule] = true
  /\ sqlite_should_exclude_message (sample_ext []) "" [empty_exact_rule] = false
  /\ sqlite_should_exclude_message (sample_ext []) "Subscribe now!"
       [subscribe_rule] =
     should_exclude_message (sample_ext []) "Subscribe now!" [subscribe_rule].
Proof.
  split; [reflexivity|]. split; [reflexivity|].
  apply (proj1 (proj2 (sqlite_backend_agrees (sample_ext []) "Subscribe now!"
                         [subscribe_rule] empty_store))).
  discriminate.
Defined.

(* ===================================================================== *)
(** * Batch operations of [Database] *)

Lemma dict_get_set_same {V} (k : string) (v : V) (d : dict V) :
  dict_get k (dict_set k v d) = Some v.
Proof.
  induction d as [|[k' v'] d IH]; cbn.
  - now rewrite String.eqb_refl.
  - destruct (String.eqb k' k) eqn:E; cbn; rewrite E; [reflexivity|exact IH].
Qed.

Lemma dict_get_set_other {V} (k k0 : string) (v : V) (d : dict V) :
  k0 <> k -> dict_get k (dict_set k0 v d) = dict_get k d.
Proof.
  intros Hne. induction d as [|[k' v'] d IH]; cbn.
  - destruct (String.eqb k0 k) eqn:E; [|reflexivity].
    apply String.eqb_eq in E. contradiction.
  - destruct (String.eqb k' k0) eqn:E0; cbn.
    + apply String.eqb_eq in E0. subst k'.
      destruct (String.eqb k0 k) eqn:E; [|reflexivity].
      apply String.eqb_eq in E. contradiction.
    + destruct (String.eqb k' k); [reflexivity|exact IH].
Qed.

(** The entry of a fingerprint in the dict built from rows is the key of
    the last row carrying it. *)
Lemma rows_to_dict_get h rows :
  forall d0,
  dict_get h (fold_left (fun d r =>
                           match text_hash r with
                           | Some h' => dict_set h' (channel_id r, message_id r) d
                           | None => d
                           end) rows d0) =
  match find (fun r => option_string_eqb (text_hash r) (Some h)) (rev rows) with
  | Some r => Some (channel_id r, message_id r)
  | None => dict_get h d0
  end.
Proof.
  induction rows as [|r rows IH]; intros d0; [reflexivity|].
  cbn [fold_left rev]. rewrite IH.
  destruct (find _ (rev rows)) as [r'|] eqn:Hf.
  - now rewrite (find_snoc_some _ _ _ Hf).
  - rewrite (find_snoc_none _ _ _ Hf).
    destruct (text_hash r) as [h'|]; cbn [option_string_eqb]; [|reflexivity].
    destruct (String.eqb h' h) eqn:E.
    + apply String.eqb_eq in E. subst h'. apply dict_get_set_same.
    + apply dict_get_set_other. intros ->. now rewrite String.eqb_refl in E.
Qed.

Lemma batch_candidate_spec hashes r :
  batch_candidate hashes r = true <->
  exists h, In h hashes /\ duplicate_candidate h r = true.
Proof.
  unfold batch_candidate, duplicate_candidate. split.
  - intros H. apply Bool.andb_true_iff in H. destruct H as [Hh Hd].
    destruct (text_hash r) as [h|]; [|discriminate].
    apply existsb_exists in Hh. destruct Hh as [h' [Hin He]].
    apply String.eqb_eq in He. subst h'. exists h. split; [assumption|].
    cbn. now rewrite String.eqb_refl.
  - intros [h [Hin H]]. apply Bool.andb_true_iff in H. destruct H as [Hh Hd].
    destruct (text_hash r) as [h'|]; [|discriminate]. cbn in Hh.
    apply String.eqb_eq in Hh. subst h'. rewrite Hd, Bool.andb_true_r.
    apply existsb_exists. exists h. split; [assumption|apply String.eqb_refl].
Qed.

(** X8.  [find_duplicates_batch]: an empty request returns the empty dict
    without touching the store, even if the next call would fault; a
    returned entry is always the key of a stored record with the requested
    fingerprint and an unset [is_duplicate] flag; and when at most one
    record per fingerprint can answer, the entry of each requested
    fingerprint is the answer of [find_duplicate]. *)
Theorem batch_lookup_agrees (hashes : list string) (s s' : Store)
        (d : dict (Z * Z)) :
  find_duplicates_batch [] s = (Ret [], s)
  /\ (find_duplicates_batch hashes s = (Ret d, s') ->
      messages s' = messages s
      /\ (forall h dc dm,
             dict_get h d = Some (dc, dm) ->
             In h hashes
             /\ exists r, In r (messages s) /\ channel_id r = dc
                          /\ message_id r = dm
                          /\ text_hash r = Some h /\ is_duplicate r = false)
      /\ (unique_originals (messages s) ->
          forall h, In h hashes ->
                    dict_get h d = select_duplicate h (messages s))).
Proof.
  split; [reflexivity|]. intros H.
  destruct hashes as [|h0 hs]; [unfold ret in H; injection H as <- <-|].
  { split; [reflexivity|]. split; [discriminate|]. intros _ h []. }
  set (hashes := h0 :: hs) in *.
  cbn [find_duplicates_batch] in H.
  apply bind_returns in H. destruct H as [[] [s1 [Hio H]]].
  injection H as <- <-.
  assert (Hms : messages s1 = messages s).
  { unfold io_point in Hio.
    destruct (faults s) as [|[|] fs]; [injection Hio as <- | discriminate
                                      | injection Hio as <-]; reflexivity. }
  rewrite Hms. unfold rows_to_dict.
  assert (Hget : forall h,
             dict_get h
               (fold_left (fun d r =>
                             match text_hash r with
                             | Some h' => dict_set h' (channel_id r, message_id r) d
                             | None => d
                             end)
                  (filter (batch_candidate hashes) (messages s)) []) =
             match find (fun r => option_string_eqb (text_hash r) (Some h))
                     (rev (filter (batch_candidate hashes) (messages s))) with
             | Some r => Some (channel_id r, message_id r)
             | None => None
             end).
  { intros h. apply rows_to_dict_get. }
  assert (Hsound : forall h r,
             find (fun r => option_string_eqb (text_hash r) (Some h))
               (rev (filter (batch_candidate hashes) (messages s))) = Some r ->
             In h hashes /\ In r (messages s)
             /\ text_hash r = Some h /\ is_duplicate r = false).
  { intros h r Hf. apply find_some in Hf. destruct Hf as [Hin Hh].
    apply in_rev, filter_In in Hin. destruct Hin as [Hin Hb].
    destruct (text_hash r) as [h'|] eqn:Eh; [|discriminate]. cbn in Hh.
    apply String.eqb_eq in Hh. subst h'.
    unfold batch_candidate in Hb. rewrite Eh in Hb.
    apply Bool.andb_true_iff in Hb. destruct Hb as [Hex Hd].
    apply existsb_exists in Hex. destruct Hex as [h' [Hin' He]].
    apply String.eqb_eq in He. subst h'.
    repeat split; auto. now destruct (is_duplicate r). }
  split; [reflexivity|]. split.
  - intros h dc dm Hd. rewrite Hget in Hd.
    destruct (find _ (rev _)) as [r|] eqn:Hf; [|discriminate].
    injection Hd as <- <-.
    destruct (Hsound h r Hf) as [Hin [Hr [Hh Hdup]]].
    split; [assumption|]. now exists r.
  - intros Huniq h Hin. rewrite Hget.
    destruct (find _ (rev _)) as [r|] eqn:Hf.
    + destruct (Hsound h r Hf) as [_ [Hr [Hh Hdup]]].
      assert (Hc : duplicate_candidate h r = true).
      { unfold duplicate_candidate. rewrite Hh, Hdup. cbn.
        now rewrite String.eqb_refl. }
      symmetry. apply (@sole_original_selected h r (messages s)).
      split; [assumption|]. split; [assumption|].
      intros r' Hr' Hc'. now apply (Huniq h).
    + unfold select_duplicate.
      destruct (find (duplicate_candidate h) (messages s)) as [r|] eqn:Hs;
        [|reflexivity].
      exfalso. apply find_some in Hs. destruct Hs as [Hr Hc].
      assert (Hin' : In r (rev (filter (batch_candidate hashes) (messages s)))).
      { apply in_rev. rewrite rev_involutive. apply filter_In.
        split; [assumption|]. apply batch_candidate_spec. now exists h. }
      apply (find_none _ _ Hf) in Hin'.
      unfold duplicate_candidate in Hc. apply Bool.andb_true_iff in Hc.
      destruct Hc as [Hc _]. congruence.
Qed.

Lemma batch_lookup_agrees_witness :
  exists d,
    find_duplicates_batch ["md5:" ++ text50; "md5:unseen"] one_post_store
    = (Ret d, one_post_store)
    /\ dict_get ("md5:" ++ text50) d
       = select_duplicate ("md5:" ++ text50) (messages one_post_store).
Proof.
  eexists. split; [reflexivity|].
  refine (proj2 (proj2 (proj2 (@batch_lookup_agrees
            ["md5:" ++ text50; "md5:unseen"] one_post_store one_post_store _)
            eq_refl)) _ _ _).
  - intros h r1 r2 [<-|[]] [<-|[]] _ _. reflexivity.
  - now left.
Defined.

Lemma bulk_keeps_keys new_rows :
  forall rows c i,
  existsb (same_key c i) rows = true ->
  existsb (same_key c i) (bulk_insert_rows new_rows rows) = true.
Proof.
  induction new_rows as [|a rest IH]; intros rows c i H; [assumption|].
  cbn. apply IH. now apply insert_message_row_keeps_keys.
Qed.

Lemma bulk_keys_present new_rows :
  forall rows r,
  In r new_rows ->
  existsb (same_key (channel_id r) (message_id r))
          (bulk_insert_rows new_rows rows) = true.
Proof.
  induction new_rows as [|a rest IH]; intros rows r Hin; [destruct Hin|].
  destruct Hin as [<-|Hin]; cbn.
  - apply bulk_keeps_keys. apply insert_message_row_has_key.
  - now apply IH.
Qed.

Lemma bulk_fix new_rows rows :
  (forall r, In r new_rows ->
             existsb (same_key (channel_id r) (message_id r)) rows = true) ->
  bulk_insert_rows new_rows rows = rows.
Proof.
  induction new_rows as [|a rest IH]; intros H; [reflexivity|].
  cbn. rewrite (insert_message_row_present a rows); [|apply H; now left].
  apply IH. intros r Hr. apply H. now right.
Qed.

Lemma bulk_unique_keys new_rows :
  forall rows, unique_keys rows -> unique_keys (bulk_insert_rows new_rows rows).
Proof.
  induction new_rows as [|a rest IH]; intros rows H; [assumption|].
  cbn. apply IH. now apply insert_message_row_unique_keys.
Qed.

Lemma insert_each_quiet new_rows :
  forall ms ims cs rs tr,
  exists tr',
    insert_each new_rows (mkStore ms ims cs rs [] tr) =
    (Ret tt, mkStore (bulk_insert_rows new_rows ms) ims cs rs [] tr').
Proof.
  induction new_rows as [|a rest IH]; intros ms ims cs rs tr.
  - exists tr. reflexivity.
  - cbn [insert_each bulk_insert_rows fold_left].
    unfold bind at 1. unfold insert_message, bind, io_point, emit. run.
    apply IH.
Qed.

Lemma bulk_insert_messages_quiet new_rows ms ims cs rs tr :
  bulk_insert_messages new_rows (mkStore ms ims cs rs [] tr) =
  (Ret tt, mkStore (bulk_insert_rows new_rows ms) ims cs rs [] tr).
Proof. destruct new_rows; reflexivity. Qed.

(** X9.  [bulk_insert_messages]: an empty list sends nothing, even if the
    next call would fault; without a fault the table it leaves is the one
    the single inserts of the same rows, in order, leave; inserting the
    same rows a second time changes nothing; keys stay unique; and if the
    call raises the table is left as it was. *)
Theorem bulk_insert_like_single_inserts (new_rows : list MessageRow)
        (s : Store) :
  bulk_insert_messages [] s = (Ret tt, s)
  /\ (faults s = [] ->
      fst (bulk_insert_messages new_rows s) = Ret tt
      /\ fst (insert_each new_rows s) = Ret tt
      /\ messages (snd (bulk_insert_messages new_rows s)) =
         messages (snd (insert_each new_rows s))
      /\ messages (snd (bulk_insert_messages new_rows
                          (snd (bulk_insert_messages new_rows s)))) =
         messages (snd (bulk_insert_messages new_rows s)))
  /\ (unique_keys (messages s) ->
      unique_keys (messages (snd (bulk_insert_messages new_rows s))))
  /\ (forall e s', bulk_insert_messages new_rows s = (Raise e, s') ->
                   messages s' = messages s).
Proof.
  destruct s as [ms ims cs rs fs tr].
  split; [reflexivity|]. split; [|split].
  - cbn [faults]. intros ->.
    destruct (insert_each_quiet new_rows ms ims cs rs tr) as [tr' Hq].
    rewrite Hq, bulk_insert_messages_quiet. cbn [fst snd messages].
    rewrite bulk_insert_messages_quiet. cbn [fst snd messages].
    split; [reflexivity|]. split; [reflexivity|]. split; [reflexivity|].
    apply bulk_fix. intros r Hr. now apply bulk_keys_present.
  - cbn [messages]. intros Hu.
    destruct new_rows as [|a rest]; [exact Hu|].
    cbn [bulk_insert_messages]. unfold bind, io_point.
    destruct fs as [|[|] fs]; run; try exact Hu;
      now apply (bulk_unique_keys (a :: rest)).
  - intros e s' H. destruct new_rows as [|a rest]; [discriminate|].
    cbn [bulk_insert_messages] in H. unfold bind, io_point in H.
    destruct fs as [|[|] fs]; run_in H; try discriminate.
    now injection H as _ <-.
Qed.

(** Two rows with the same key, bulk-inserted into the sample store. *)
Lemma bulk_insert_like_single_inserts_witness :
  messages (snd (bulk_insert_messages [sample_row1; sample_row1] sample_store))
  = messages (snd (insert_each [sample_row1; sample_row1] sample_store))
  /\ unique_keys
       (messages (snd (bulk_insert_messages [sample_row1; sample_row1]
                         sample_store))).
Proof.
  split.
  - apply (proj1 (proj2 (@bulk_insert_like_single_inserts
                           [sample_row1; sample_row1] sample_store))).
    reflexivity.
  - apply (proj1 (proj2 (proj2 (@bulk_insert_like_single_inserts
                                  [sample_row1; sample_row1] sample_store)))).
    constructor.
Defined.

(* ===================================================================== *)
(** * The [channels] table *)

Lemma set_last_fetched_missing cid t rows :
  has_channel cid rows = false -> map (set_last_fetched cid t) rows = rows.
Proof.
  unfold has_channel. induction rows as [|c rows IH]; [reflexivity|].
  cbn. intros H. apply Bool.orb_false_iff in H. destruct H as [Hc Hr].
  unfold set_last_fetched at 1. rewrite Hc. now rewrite IH.
Qed.

Lemma has_channel_set cid cid' t rows :
  has_channel cid (map (set_last_fetched cid' t) rows) = has_channel cid rows.
Proof.
  unfold has_channel. induction rows as [|c rows IH]; [reflexivity|].
  cbn. now rewrite set_last_fetched_id, IH.
Qed.

Lemma watermark_app cid rows c :
  watermark cid (rows ++ [c]) =
  if has_channel cid rows then watermark cid rows
  else if Z.eqb (telegram_channel_id c) cid then last_fetched_datetime c
       else None.
Proof.
  unfold watermark, has_channel. induction rows as [|c0 rows IH]; cbn.
  - now destruct (Z.eqb (telegram_channel_id c) cid).
  - destruct (Z.eqb (telegram_channel_id c0) cid); [reflexivity|exact IH].
Qed.

(** X10.  Channel bookkeeping.  Adding a channel whose id is already in
    [channels] changes nothing, so a watermark once written survives the
    channel being added again; a newly added channel has no watermark, so
    its first pass starts at [START_DATE]; writing the watermark of an id
    that is not in the table changes nothing; and the ids stay unique. *)
Theorem channel_bookkeeping (cfg : Config) (channel_name : string)
        (cid t : Z) (rows : list ChannelRow) :
  (has_channel cid rows = true ->
   add_channel_row channel_name cid rows = rows
   /\ watermark cid
        (add_channel_row channel_name cid (map (set_last_fetched cid t) rows))
      = Some t)
  /\ (has_channel cid rows = false ->
      watermark cid (add_channel_row channel_name cid rows) = None
      /\ has_channel cid (add_channel_row channel_name cid rows) = true
      /\ (forall ci, In ci (add_channel_row channel_name cid rows) ->
                     telegram_channel_id ci = cid ->
                     offset_date cfg ci = START_DATE cfg)
      /\ map (set_last_fetched cid t) rows = rows)
  /\ (NoDup (map telegram_channel_id rows) ->
      NoDup (map telegram_channel_id (add_channel_row channel_name cid rows))
      /\ NoDup (map telegram_channel_id (map (set_last_fetched cid t) rows))).
Proof.
  split; [|split].
  - intros H. unfold add_channel_row. rewrite H, has_channel_set, H.
    split; [reflexivity|]. now apply watermark_set_same.
  - intros H. unfold add_channel_row. rewrite H.
    split; [|split; [|split]].
    + rewrite watermark_app, H. cbn. now rewrite Z.eqb_refl.
    + unfold has_channel. rewrite existsb_snoc. cbn.
      now rewrite Z.eqb_refl, Bool.orb_true_r.
    + intros ci Hin Hid. apply in_app_or in Hin.
      destruct Hin as [Hin|[<-|[]]]; [|reflexivity].
      exfalso. assert (Ht : has_channel cid rows = true).
      { apply existsb_exists. exists ci. split; [assumption|].
        now apply Z.eqb_eq. }
      congruence.
    + now apply set_last_fetched_missing.
  - intros Hnd. split.
    + unfold add_channel_row. destruct (has_channel cid rows) eqn:H;
        [assumption|].
      rewrite map_app. cbn [map telegram_channel_id].
      apply NoDup_snoc; [assumption|].
      intros Hin. apply in_map_iff in Hin. destruct Hin as [ci [Hid Hci]].
      assert (Ht : has_channel cid rows = true).
      { apply existsb_exists. exists ci. split; [assumption|].
        now apply Z.eqb_eq. }
      congruence.
    + rewrite map_map.
      replace (map (fun x => telegram_channel_id (set_last_fetched cid t x)) rows)
        with (map telegram_channel_id rows); [assumption|].
      apply map_ext. intros ci. now rewrite set_last_fetched_id.
Qed.

(** The sample channel, added again after its watermark was set to 130. *)
Lemma channel_bookkeeping_witness :
  add_channel_row "delta_news" 42 [sample_channel] = [sample_channel]
  /\ watermark 42
       (add_channel_row "delta_news" 42
          (map (set_last_fetched 42 130) [sample_channel])) = Some 130
  /\ watermark 7 (add_channel_row "other" 7 [sample_channel]) = None.
Proof.
  destruct (@channel_bookkeeping default_cfg "delta_news" 42 130
              [sample_channel]) as [H1 _].
  destruct (H1 eq_refl) as [Ha Hb].
  destruct (@channel_bookkeeping default_cfg "other" 7 0 [sample_channel])
    as [_ [H2 _]].
  destruct (H2 eq_refl) as [Hc _].
  auto.
Defined.

(* ===================================================================== *)
(** * File ids and file names *)




(** A Latin-1 letter is kept; a slash and the multiplication sign are
    replaced. *)
Lemma sanitize_latin1 :
  sanitize (String (ascii_of_nat 233)
              (String "/" (String (ascii_of_nat 215) "a-b_9")))
  = String (ascii_of_nat 233) (String "_" (String "_" "a-b_9")).
Proof. reflexivity. Qed.





(* ===================================================================== *)
(** * The asset processor *)

(** X12.  [download_and_compress_photo] never raises, whatever the
    download, the decoder, the disk do: it hands back a value and its only
    effect on the store is the download it started.  It hands back [None]
    when the download raises or yields no bytes and when the bytes do not
    decode.  When it hands back image data, the bytes were non-empty and
    decoded, the original size is their length, the reported width is the
    smaller of the decoded width and [MAX_IMAGE_WIDTH], an image no wider
    than that keeps its dimensions, and the path is the sanitized file id
    in the date directory with extension [jpg], or [webp] if [KEEP_WEBP]
    is set. *)
Theorem asset_processor_outcomes (cfg : Config) (ext : Externals)
        (m : Message) (n f : string) (s : Store) :
  download_and_compress_photo cfg ext m n f s =
  (Ret (asset_data cfg ext m n f), set_trace (trace s ++ [EvDownload f]) s)
  /\ (forall e, download_media ext (message_photo m) = Raise e ->
                asset_data cfg ext m n f = None)
  /\ (download_media ext (message_photo m) = Ret None ->
      asset_data cfg ext m n f = None)
  /\ (download_media ext (message_photo m) = Ret (Some "") ->
      asset_data cfg ext m n f = None)
  /\ (forall bytes e,
         download_media ext (message_photo m) = Ret (Some bytes) ->
         image_open ext bytes = Raise e ->
         asset_data cfg ext m n f = None)
  /\ (forall path o cz w h,
         asset_data cfg ext m n f = Some (path, o, cz, w, h) ->
         exists bytes img dir,
           download_media ext (message_photo m) = Ret (Some bytes)
           /\ bytes <> ""
           /\ image_open ext bytes = Ret img
           /\ image_dir ext (m_date m) n = Ret dir
           /\ o = len bytes /\ 0 < o
           /\ w = Z.min (img_width img) (MAX_IMAGE_WIDTH cfg)
           /\ (img_width img <= MAX_IMAGE_WIDTH cfg -> h = img_height img)
           /\ (path = dir ++ "/" ++ sanitize f ++ ".jpg"
               \/ (KEEP_WEBP cfg = true
                   /\ path = dir ++ "/" ++ sanitize f ++ ".webp"))).
Proof.
  split; [apply download_and_compress_photo_returns|].
  unfold asset_data, download_and_compress_photo, try_except,
    download_and_compress_body, bind, emit, lift, ret, get_file_path.
  cbn.
  destruct (download_media ext (message_photo m)) as [[bytes|]|e0]; cbn.
  2: { repeat (split; [intros; try reflexivity; discriminate|]).
       intros; discriminate. }
  2: { repeat (split; [intros; try reflexivity; discriminate|]).
       intros; discriminate. }
  split; [discriminate|]. split; [discriminate|].
  destruct (str_truthy bytes) eqn:Hb; cbn.
  2: { split; [reflexivity|]. split; [reflexivity|]. intros; discriminate. }
  split; [intros H; injection H as ->; discriminate|].
  destruct (image_open ext bytes) as [img|e1] eqn:Ho; cbn.
  2: { split; [reflexivity|]. intros; discriminate. }
  split; [intros b e [= <-] Hr; congruence|].
  assert (Hrgb : img_width (to_rgb img) = img_width img
                 /\ img_height (to_rgb img) = img_height img).
  { unfold to_rgb.
    destruct (_ || _)%bool; cbn; [auto|].
    destruct (negb _); cbn; auto. }
  destruct Hrgb as [Hrw Hrh].
  set (keep := (String.eqb _ "webp" && KEEP_WEBP cfg)%bool).
  assert (Hkeep : keep = true -> KEEP_WEBP cfg = true).
  { unfold keep. intros H. apply Bool.andb_true_iff in H. now destruct H. }
  assert (Hsize : img_width (if keep then img else to_rgb img) = img_width img
                  /\ img_height (if keep then img else to_rgb img)
                     = img_height img).
  { destruct keep; auto. }
  destruct Hsize as [Hsw Hsh].
  set (img1 := if keep then img else to_rgb img) in *.
  clearbody img1.
  destruct (negb keep && negb (String.eqb (img_mode img) "RGB")
            || Z.ltb (MAX_IMAGE_WIDTH cfg) (img_width img))%bool; cbn;
    [destruct (image_load ext img) as [[]|e4]; cbn; [|intros; discriminate]|];
    (destruct (Z.ltb_spec (MAX_IMAGE_WIDTH cfg) (img_width img)) as [Hlt|Hge];
     cbn;
     [ unfold image_resize;
       destruct (Z.leb (MAX_IMAGE_WIDTH cfg) 0
                 || Z.leb (scaled_height ext (img_height img)
                             (MAX_IMAGE_WIDTH cfg) (img_width img)) 0)%bool;
       cbn; [intros; discriminate|]
     | ];
     (destruct (image_dir ext (m_date m) n) as [dir|e2]; cbn;
      [|intros; discriminate];
      destruct (image_save ext _ _ _) as [z|e3]; cbn; [|intros; discriminate];
      intros path o cz w h [= <- <- <- <- <-];
      exists bytes, img, dir;
      split; [reflexivity|]; split; [now apply str_truthy_true|];
      split; [exact Ho|]; split; [reflexivity|]; split; [reflexivity|];
      split;
      [ unfold len; destruct bytes; [discriminate|]; cbn [String.length]; lia
      | split; [cbn; lia|]; split; [cbn; intros; lia|];
        destruct keep; [right; split; [now apply Hkeep|reflexivity]
                       |now left] ])).
Qed.

(** An image that would be resized to a height of zero is given up:
    Pillow refuses the size, and the handler hands back nothing. *)
Lemma strip_is_given_up :
  asset_data default_cfg (strip_ext [])
    (photo_post 2 (Some "Bridge reopened") 110 7001) "delta_news" "7001"
  = None.
Proof. vm_compute. reflexivity. Qed.

(** A platform that is offline, and one that serves an 800x600 JPEG. *)
Lemma asset_processor_outcomes_witness :
  asset_data default_cfg (offline_ext [])
    (photo_post 2 (Some "Bridge reopened") 110 7001) "delta_news" "7001"
  = None
  /\ exists bytes img dir,
      download_media (sample_ext [])
        (message_photo (photo_post 2 (Some "Bridge reopened") 110 7001))
      = Ret (Some bytes)
      /\ bytes <> ""
      /\ image_open (sample_ext []) bytes = Ret img
      /\ image_dir (sample_ext []) 110 "delta_news" = Ret dir
      /\ 8 = len bytes /\ 0 < 8
      /\ 800 = Z.min (img_width img) (MAX_IMAGE_WIDTH default_cfg)
      /\ (img_width img <= MAX_IMAGE_WIDTH default_cfg -> 600 = img_height img)
      /\ ("2025/05/01/delta_news/7001.jpg"
          = dir ++ "/" ++ sanitize "7001" ++ ".jpg"
          \/ (KEEP_WEBP default_cfg = true
              /\ "2025/05/01/delta_news/7001.jpg"
                 = dir ++ "/" ++ sanitize "7001" ++ ".webp")).
Proof.
  split.
  - apply (proj1 (proj2 (@asset_processor_outcomes default_cfg (offline_ext [])
                           (photo_post 2 (Some "Bridge reopened") 110 7001)
                           "delta_news" "7001" empty_store))
             (AssetError "connection reset")).
    reflexivity.
  - apply (proj2 (proj2 (proj2 (proj2 (proj2
             (@asset_processor_outcomes default_cfg (sample_ext [])
                (photo_post 2 (Some "Bridge reopened") 110 7001)
                "delta_news" "7001" empty_store)))))
             "2025/05/01/delta_news/7001.jpg" 8 4 800 600).
    vm_compute. reflexivity.
Defined.


(* ===================================================================== *)
(** * Failures of the asset stage and of a channel pass *)

Definition F_assets : frame (keeps (fun s => asset_events (trace s))) :=
  keeps_frame (fun s => asset_events (trace s)) (fun _ _ => eq_refl).

Section AssetStage.

Variable cfg : Config.
Variable ext : Externals.
Variable rules : list ExclusionRule.

Lemma insert_message_keeps_assets r :
  stable (keeps (fun s => asset_events (trace s))) (insert_message r).
Proof. unfold insert_message. frame_solve F_assets. Qed.

Lemma duplicate_check_keeps_assets f t :
  stable (keeps (fun s => asset_events (trace s))) (duplicate_check ext f t).
Proof. unfold duplicate_check, find_duplicate. frame_solve F_assets. Qed.

(** One collected post, any faults: once [process_message] is over, the
    record is stored, or the call raised before any asset work. *)
Lemma process_message_stored m c n s :
  collects cfg ext rules m = true ->
  existsb (same_key c (m_id m))
          (messages (snd (process_message cfg ext rules m c n s))) = true
  \/ (asset_events (trace (snd (process_message cfg ext rules m c n s)))
      = asset_events (trace s)
      /\ exists e, fst (process_message cfg ext rules m c n s) = Raise e).
Proof.
  intros Hc.
  destruct (process_message cfg ext rules m c n s) as [r s'] eqn:H.
  cbn [fst snd]. unfold process_message in H. unfold collects in Hc.
  destruct (should_collect_message cfg ext rules m) as [b reason].
  cbn [fst] in Hc. subst b. cbn [negb] in H.
  set (f := is_forward m) in H.
  assert (Hkey : forall row s1 s2,
             channel_id row = c -> message_id row = m_id m ->
             insert_message row s1 = (Ret tt, s2) ->
             existsb (same_key c (m_id m)) (messages s2) = true).
  { intros row s1 s2 Hrc Hrm Hi. apply insert_message_outcome in Hi.
    rewrite Hi, <- Hrc, <- Hrm. apply insert_message_row_has_key. }
  destruct r as [a|e].
  - left.
    apply bind_returns in H. destruct H as [a0 [s1 [Hd H]]].
    destruct a0 as [[[[hash is_dup] dup_c] dup_m] stored_text].
    cbv beta iota in H.
    apply bind_returns in H. destruct H as [[] [s2 [Hi H]]].
    apply bind_returns in H. destruct H as [[] [s3 [Hp H]]].
    unfold ret in H. injection H as _ <-.
    pose proof (photo_stage_keeps_messages cfg ext
                  (has_photo m && negb f)%bool m c n s2) as Hk.
    rewrite Hp in Hk. cbn [snd] in Hk. rewrite Hk.
    refine (Hkey _ _ _ _ _ Hi); reflexivity.
  - apply bind_raises in H. destruct H as [H|[a0 [s1 [Hd H]]]].
    + right. split; [|now exists e].
      pose proof (duplicate_check_keeps_assets f
                    (if f then None else Some (or_empty (m_text m))) s) as Hk.
      rewrite H in Hk. exact Hk.
    + pose proof (duplicate_check_keeps_assets f
                    (if f then None else Some (or_empty (m_text m))) s) as Hk1.
      rewrite Hd in Hk1. unfold keeps in Hk1. cbn [snd] in Hk1.
      destruct a0 as [[[[hash is_dup] dup_c] dup_m] stored_text].
      cbv beta iota in H.
      apply bind_raises in H. destruct H as [H|[[] [s2 [Hi H]]]].
      * right. split; [|now exists e].
        pose proof (insert_message_keeps_assets
                      {| channel_id := c; message_id := m_id m;
                         message_text := stored_text;
                         message_datetime := m_date m;
                         has_media := has_photo m;
                         is_duplicate := is_dup; is_forwarded := f;
                         duplicate_of_channel_id := dup_c;
                         duplicate_of_message_id := dup_m;
                         forward_from_channel_id := extract_forward_channel m;
                         forward_from_message_id := extract_forward_post m;
                         text_hash := hash;
                         grouped_id := extract_grouped_id m |} s1) as Hk2.
        rewrite H in Hk2. unfold keeps in Hk2. cbn [snd] in Hk2.
        now rewrite Hk2.
      * left.
        apply bind_raises in H. destruct H as [H|[[] [s3 [_ H]]]];
          [|discriminate].
        pose proof (photo_stage_keeps_messages cfg ext
                      (has_photo m && negb f)%bool m c n s2) as Hk.
        rewrite H in Hk. cbn [snd] in Hk. rewrite Hk.
        refine (Hkey _ _ _ _ _ Hi); reflexivity.
Qed.

End AssetStage.

(** X13.  Asset work on a post starts only once its record is stored, and
    nothing that happens afterwards removes the record.  For a collected,
    non-forward photo post, under any faults: if [process_message] hands
    the record back, or if any asset event (image query, download, image
    insert) was issued, the post's key is stored.  Without a store fault:
    a post whose photo object is missing is stored and then makes
    [process_message] raise, [images] and the asset log untouched; and
    when [process_message] returns on a post whose asset processor handed
    back nothing, [images] is left as it was. *)
Theorem asset_failure_leaves_post (cfg : Config) (ext : Externals)
        (rules : list ExclusionRule) (m : Message) (c : Z) (n : string)
        (s : Store) :
  collects cfg ext rules m = true ->
  has_photo m = true ->
  is_forward m = false ->
  let out := process_message cfg ext rules m c n s in
  (forall d, fst out = Ret (Some d) ->
             existsb (same_key c (m_id m)) (messages (snd out)) = true)
  /\ (asset_events (trace (snd out)) <> asset_events (trace s) ->
      existsb (same_key c (m_id m)) (messages (snd out)) = true)
  /\ (faults s = [] -> message_photo m = None ->
      fst out = Raise photo_missing_error
      /\ existsb (same_key c (m_id m)) (messages (snd out)) = true
      /\ images (snd out) = images s
      /\ asset_events (trace (snd out)) = asset_events (trace s))
  /\ (faults s = [] ->
      forall p d,
        message_photo m = Some p ->
        fst out = Ret (Some d) ->
        asset_data cfg ext m n (str_of_int (photo_id p)) = None ->
        images (snd out) = images s).
Proof.
  intros Hc Hp Hf out.
  pose proof (process_message_stored cfg ext rules m c n s Hc) as Hs.
  fold out in Hs.
  split; [|split; [|split]].
  - intros d Hd. destruct Hs as [Hs|[_ [e He]]]; [exact Hs|congruence].
  - intros Hne. destruct Hs as [Hs|[Ha _]]; [exact Hs|contradiction].
  - intros Hq Hph. unfold out. destruct s as [ms ims cs rs fs tr].
    cbn [faults] in Hq. subst fs. rewrite process_message_quiet.
    unfold aborts, tables_after, post_events, images_after, photo_events.
    rewrite Hc, Hp, Hf, Hph. cbn [fst snd negb andb messages images trace].
    split; [reflexivity|].
    split; [apply (insert_message_row_has_key (message_data_for ext ms m c))|].
    split; [reflexivity|].
    rewrite !asset_events_app.
    destruct (str_truthy (text_of m)); cbn; now rewrite app_nil_r.
  - intros Hq p d Hph Hd Ha. unfold out in *. destruct s as [ms ims cs rs fs tr].
    cbn [faults] in Hq. subst fs. rewrite process_message_quiet.
    unfold tables_after, images_after.
    rewrite Hc, Hf, Hph, Ha. cbn [fst snd images].
    now destruct (has_file_id _ ims).
Qed.

(** A photo post whose photo object is missing: it is stored, and the
    call raises. *)
Lemma asset_failure_leaves_post_witness :
  fst (process_message default_cfg (offline_ext sample_backlog)
         [subscribe_rule]
         (expired_photo_post 2 (Some text50) 110)
         42 "delta_news" sample_store) = Raise photo_missing_error
  /\ existsb (same_key 42 2)
       (messages (snd (process_message default_cfg
                         (offline_ext sample_backlog) [subscribe_rule]
                         (expired_photo_post 2 (Some text50) 110)
                         42 "delta_news" sample_store))) = true.
Proof.
  destruct (proj1 (proj2 (proj2
              (@asset_failure_leaves_post default_cfg
                 (offline_ext sample_backlog) [subscribe_rule]
                 (expired_photo_post 2 (Some text50) 110)
                 42 "delta_news" sample_store
                 eq_refl eq_refl eq_refl)))
              eq_refl eq_refl) as [H1 [H2 _]].
  split; [exact H1|exact H2].
Defined.

Section Isolation.

Variable cfg : Config.
Variable ext : Externals.
Variable rules : list ExclusionRule.

Lemma update_keeps_starts c t :
  stable (keeps (fun s => channel_starts (trace s)))
         (update_channel_last_fetched c t).
Proof. unfold update_channel_last_fetched. frame_solve F_starts. Qed.

Lemma channel_pass_keeps_starts ci :
  stable (keeps (fun s => channel_starts (trace s)))
         (channel_pass cfg ext rules ci).
Proof.
  unfold channel_pass.
  apply (stable_bind F_starts).
  - apply (@collect_loop_stable cfg ext rules _ F_starts).
    intros. apply message_keeps_starts.
  - intros [[latest processed] collected].
    apply (stable_bind F_starts).
    + destruct latest; [apply update_keeps_starts|apply (stable_ret F_starts)].
    + intros _. frame_solve F_starts.
Qed.

(** A pass that raises has not written the watermark. *)
Lemma channel_pass_abort ci s e s1 :
  channel_pass cfg ext rules ci s = (Raise e, s1) ->
  channels s1 = channels s
  /\ watermark_updates (trace s1) = watermark_updates (trace s).
Proof.
  unfold channel_pass. intros H.
  pose proof (@collect_loop_stable cfg ext rules _ F_channels
                (message_keeps_channels cfg ext rules)
                (iter_messages ext (name ci) (offset_date cfg ci))
                (telegram_channel_id ci) (name ci) (None, 0, 0) s) as Hch.
  pose proof (@collect_loop_stable cfg ext rules _ F_updates
                (message_keeps_updates cfg ext rules)
                (iter_messages ext (name ci) (offset_date cfg ci))
                (telegram_channel_id ci) (name ci) (None, 0, 0) s) as Hup.
  unfold keeps in Hch, Hup.
  apply bind_raises in H. destruct H as [H|[st [s2 [Hloop H]]]].
  - rewrite H in Hch, Hup. auto.
  - rewrite Hloop in Hch, Hup. cbn [snd] in Hch, Hup.
    destruct st as [[latest processed] collected].
    apply bind_raises in H. destruct H as [H|[[] [s3 [_ H]]]].
    + destruct latest as [t|]; [|discriminate].
      unfold update_channel_last_fetched in H.
      apply bind_raises in H. destruct H as [H|[[] [s4 [_ H]]]].
      * unfold io_point in H.
        destruct (faults s2) as [|[|] fs]; try discriminate.
        injection H as _ <-. auto.
      * apply bind_raises in H. destruct H as [H|[[] [s5 [_ H]]]];
          discriminate.
    + apply bind_raises in H. destruct H as [H|[[] [s4 [_ H]]]]; discriminate.
Qed.

(** [process_channel] catches whatever the pass raises. *)
Lemma process_channel_returns ci s :
  exists s',
    process_channel cfg ext rules ci s = (Ret tt, s')
    /\ channel_starts (trace s') =
       (channel_starts (trace s) ++ [telegram_channel_id ci])%list.
Proof.
  unfold process_channel, bind at 1, emit at 1.
  set (s0 := set_trace
               (trace s ++ [EvProcessingChannel (telegram_channel_id ci)]) s).
  assert (H0 : channel_starts (trace s0) =
               (channel_starts (trace s) ++ [telegram_channel_id ci])%list).
  { unfold s0. cbn. now rewrite channel_starts_app. }
  pose proof (channel_pass_keeps_starts ci s0) as Hk. unfold keeps in Hk.
  unfold try_except, bind.
  destruct (channel_pass cfg ext rules ci s0) as [[st|e] s1]; cbn [snd] in Hk.
  - exists s1. split; [reflexivity|]. now rewrite Hk.
  - unfold emit. eexists. split; [reflexivity|].
    cbn. rewrite channel_starts_app, Hk, H0. cbn. now rewrite app_nil_r.
Qed.

Lemma process_channels_returns chans :
  forall s,
  exists s',
    process_channels cfg ext rules chans s = (Ret tt, s')
    /\ channel_starts (trace s') =
       (channel_starts (trace s) ++ map telegram_channel_id chans)%list.
Proof.
  induction chans as [|ci rest IH]; intros s.
  - exists s. split; [reflexivity|]. cbn. now rewrite app_nil_r.
  - destruct (process_channel_returns ci s) as [s1 [H1 Hs1]].
    destruct (IH s1) as [s2 [H2 Hs2]].
    exists s2. cbn [process_channels]. unfold bind. rewrite H1.
    split; [exact H2|]. rewrite Hs2, Hs1, <- app_assoc. reflexivity.
Qed.

End Isolation.

(** X14.  A channel whose pass raises, whatever the cause: the [channels]
    table is as before the pass (no watermark was written), the posts
    stored before the failure stay stored, and the channel loop goes on
    with the remaining channels from the store the failure left, plus one
    error entry in the log.  The loop itself returns, having entered every
    channel of its list in order. *)
Theorem channel_failure_isolated (cfg : Config) (ext : Externals)
        (rules : list ExclusionRule) (ci : ChannelRow)
        (rest : list ChannelRow) (s : Store) (e : exn) (s1 : Store) :
  channel_pass cfg ext rules ci
    (snd (emit (EvProcessingChannel (telegram_channel_id ci)) s))
  = (Raise e, s1) ->
  channels s1 = channels s
  /\ watermark_updates (trace s1) = watermark_updates (trace s)
  /\ (exists added, messages s1 = (messages s ++ added)%list)
  /\ process_channels cfg ext rules (ci :: rest) s =
     process_channels cfg ext rules rest
       (snd (emit (EvChannelError (telegram_channel_id ci)) s1))
  /\ exists s',
      process_channels cfg ext rules (ci :: rest) s = (Ret tt, s')
      /\ channel_starts (trace s') =
         (channel_starts (trace s)
            ++ telegram_channel_id ci :: map telegram_channel_id rest)%list.
Proof.
  intros H.
  destruct (channel_pass_abort cfg ext rules ci _ H) as [Hc Hu].
  split; [exact Hc|]. split.
  { rewrite Hu. cbn. rewrite watermark_updates_app. cbn.
    now rewrite app_nil_r. }
  split.
  { assert (Hg : grows messages
                   (snd (emit (EvProcessingChannel (telegram_channel_id ci)) s))
                   s1).
    { pose proof (@channel_pass_stable cfg ext _ F_grow_messages) as Hs.
      assert (Ht : forall a b : Store,
                 messages b = messages a -> images b = images a ->
                 grows messages a b).
      { intros a b Hm _. exists []. now rewrite Hm, app_nil_r. }
      specialize (Hs Ht (message_grows_messages cfg ext) rules ci
                     (snd (emit (EvProcessingChannel (telegram_channel_id ci)) s))).
      rewrite H in Hs. exact Hs. }
    exact Hg. }
  split.
  { cbn [process_channels]. unfold process_channel, bind at 1 2, emit at 1.
    unfold try_except, bind at 1.
    unfold emit in H. cbn [snd] in H. rewrite H. reflexivity. }
  destruct (process_channels_returns cfg ext rules (ci :: rest) s)
    as [s' [Hr Hs]].
  exists s'. split; [exact Hr|exact Hs].
Qed.

(** Two channels; the platform drops the connection after the first post
    of the first channel has been stored. *)
Lemma channel_failure_isolated_witness :
  let s := set_faults [false; false; false; true] sample_store in
  let other := {| telegram_channel_id := 43; name := "coast_news";
                  last_fetched_datetime := None |} in
  let s1 := snd (channel_pass default_cfg (sample_ext sample_backlog)
                   [subscribe_rule] sample_channel
                   (snd (emit (EvProcessingChannel 42) s))) in
  channel_pass default_cfg (sample_ext sample_backlog) [subscribe_rule]
    sample_channel (snd (emit (EvProcessingChannel 42) s))
  = (Raise PlatformError, s1)
  /\ channels s1 = channels s
  /\ (exists added, messages s1 = (messages s ++ added)%list)
  /\ exists s',
      process_channels default_cfg (sample_ext sample_backlog)
        [subscribe_rule] [sample_channel; other] s = (Ret tt, s')
      /\ channel_starts (trace s') = (channel_starts (trace s) ++ [42; 43])%list.
Proof.
  intros s other s1.
  assert (H : channel_pass default_cfg (sample_ext sample_backlog)
                [subscribe_rule] sample_channel
                (snd (emit (EvProcessingChannel
                              (telegram_channel_id sample_channel)) s))
              = (Raise PlatformError, s1))
    by (vm_compute; reflexivity).
  split; [exact H|].
  destruct (@channel_failure_isolated default_cfg (sample_ext sample_backlog)
              [subscribe_rule] sample_channel [other] s PlatformError s1 H)
    as [Hc [_ [Hm [_ Hr]]]].
  split; [exact Hc|]. split; [exact Hm|exact Hr].
Defined.

(* ===================================================================== *)
(** * Dropped posts, and a run without faults *)

Section Dropped.

Variable cfg : Config.
Variable ext : Externals.
Variable rules : list ExclusionRule.

(** A post the evaluator drops: no store call, no event, no record. *)
Lemma process_message_dropped m c n s :
  collects cfg ext rules m = false ->
  process_message cfg ext rules m c n s = (Ret None, s).
Proof.
  unfold collects, process_message. intros H.
  destruct (should_collect_message cfg ext rules m) as [b reason].
  cbn [fst] in H. subst b. reflexivity.
Qed.

Lemma process_message_quiet_faults m c n s :
  faults s = [] ->
  faults (snd (process_message cfg ext rules m c n s)) = []
  /\ fst (process_message cfg ext rules m c n s) =
     if aborts cfg ext rules m then Raise photo_missing_error
     else Ret (if collects cfg ext rules m
               then Some (message_data_for ext (messages s) m c) else None).
Proof.
  destruct s as [ms ims cs rs fs tr]. cbn [faults]. intros ->.
  rewrite process_message_quiet. split; reflexivity.
Qed.

(** With no fault pending, the store a loop leaves does not depend on the
    posts the evaluator drops, nor on the counters it starts from. *)
Lemma collect_loop_skips_dropped stream c n :
  forall st st' s,
    faults s = [] ->
    snd (collect_loop cfg ext rules stream c n st s) =
    snd (collect_loop cfg ext rules (collected_of cfg ext rules stream)
           c n st' s).
Proof.
  unfold collected_of.
  induction stream as [|m rest IH]; intros st st' s Hs.
  - cbn [filter collect_loop]. unfold bind.
    rewrite (io_point_quiet _ s Hs). reflexivity.
  - cbn [filter]. destruct (collects cfg ext rules m) eqn:Hc.
    + cbn [collect_loop]. unfold bind at 1 3.
      rewrite (io_point_quiet _ s Hs).
      destruct st as [[l p] k]. destruct st' as [[l' p'] k'].
      unfold bind.
      destruct (process_message_quiet_faults m c n s Hs) as [Hf Hr].
      rewrite Hc in Hr.
      destruct (process_message cfg ext rules m c n s) as [r s1].
      cbn [fst snd] in Hf, Hr. subst r.
      destruct (aborts cfg ext rules m); [reflexivity|].
      apply IH. exact Hf.
    + cbn [collect_loop]. unfold bind at 1.
      rewrite (io_point_quiet _ s Hs).
      destruct st as [[l p] k].
      unfold bind. rewrite (process_message_dropped m c n s Hc).
      apply IH. exact Hs.
Qed.

Lemma collected_of_idem stream :
  collected_of cfg ext rules (collected_of cfg ext rules stream) =
  collected_of cfg ext rules stream.
Proof.
  unfold collected_of. induction stream as [|m rest IH]; [reflexivity|].
  cbn [filter]. destruct (collects cfg ext rules m) eqn:Hc; [|exact IH].
  cbn [filter]. rewrite Hc, IH. reflexivity.
Qed.

(** The posts the evaluator drops never make a pass raise. *)
Lemma completes_collected stream :
  completes cfg ext rules (collected_of cfg ext rules stream) =
  completes cfg ext rules stream.
Proof.
  unfold completes, collected_of.
  induction stream as [|m rest IH]; [reflexivity|].
  cbn [filter forallb]. destruct (collects cfg ext rules m) eqn:Hc.
  - cbn [forallb]. now rewrite IH.
  - rewrite IH. unfold aborts. rewrite Hc. reflexivity.
Qed.

Lemma collect_loop_quiet_result stream c n st s :
  faults s = [] ->
  fst (collect_loop cfg ext rules stream c n st s) =
  if completes cfg ext rules stream
  then Ret (pass_state_after cfg ext rules stream st)
  else Raise photo_missing_error.
Proof.
  destruct s as [ms ims cs rs fs tr]. cbn [faults]. intros ->.
  destruct (collect_loop_quiet cfg ext rules stream c n st ms ims cs rs tr)
    as [tr' H].
  rewrite H. reflexivity.
Qed.

End Dropped.

(** X15.  A post the evaluator drops costs no store call and leaves the
    store untouched, even with faults pending.  With no fault pending, a
    pass over a stream leaves exactly the store, log included, that a pass
    over the collected posts alone leaves, and the two end the same way:
    either both raise, with the same exception, or both return, with the
    same latest time; the [processed] counter returned is then the length
    of the stream, the [collected] counter the number of collected
    posts. *)
Theorem dropped_posts_leave_nothing (cfg : Config) (ext : Externals)
        (rules : list ExclusionRule) (stream : list Message) (c : Z)
        (n : string) (s : Store) :
  faults s = [] ->
  let kept := collected_of cfg ext rules stream in
  let full_pass := collect_loop cfg ext rules stream c n (None, 0, 0) s in
  let kept_pass := collect_loop cfg ext rules kept c n (None, 0, 0) s in
  (forall m s0, collects cfg ext rules m = false ->
                process_message cfg ext rules m c n s0 = (Ret None, s0))
  /\ snd full_pass = snd kept_pass
  /\ (forall e, fst full_pass = Raise e <-> fst kept_pass = Raise e)
  /\ (forall latest processed collected,
         fst full_pass = Ret (latest, processed, collected) ->
         processed = Z.of_nat (List.length stream)
         /\ collected = Z.of_nat (List.length kept)
         /\ fst kept_pass =
            Ret (latest, Z.of_nat (List.length kept),
                 Z.of_nat (List.length kept))).
Proof.
  intros Hs kept full_pass kept_pass. split.
  { intros m s0. apply process_message_dropped. }
  split.
  { apply collect_loop_skips_dropped. exact Hs. }
  unfold full_pass, kept_pass.
  rewrite !collect_loop_quiet_result by exact Hs.
  pose proof (completes_collected cfg ext rules stream) as Hcc.
  fold kept in Hcc. rewrite !Hcc. clear Hcc.
  split.
  { intros e. destruct (completes cfg ext rules stream);
      split; intros H; try discriminate; exact H. }
  intros latest processed collected H.
  destruct (completes cfg ext rules stream); [|discriminate].
  injection H as H.
  pose proof (pass_state_after_spec cfg ext rules stream None 0 0) as H1.
  pose proof (pass_state_after_spec cfg ext rules kept None 0 0) as H2.
  cbn zeta in H1, H2.
  assert (Hidem : collected_of cfg ext rules kept = kept)
    by apply collected_of_idem.
  rewrite Hidem in H2. fold kept in H1.
  rewrite H in H1.
  destruct (pass_state_after cfg ext rules kept (None, 0, 0))
    as [[l2 p2] k2].
  cbn [fst snd] in H1, H2.
  destruct H1 as [Hp1 [Hk1 [Hn1 Hl1]]]. destruct H2 as [Hp2 [Hk2 [Hn2 Hl2]]].
  assert (Hl : l2 = latest).
  { assert (Hcase : kept = [] \/ exists front m, kept = (front ++ [m])%list).
    { generalize kept. intros K. induction K as [|x K _] using rev_ind;
        [now left | right; now exists K, x]. }
    destruct Hcase as [He|[front [m He]]].
    - now rewrite (Hn1 He), (Hn2 He).
    - now rewrite (Hl1 _ _ He), (Hl2 _ _ He). }
  subst l2. subst kept. split; [lia|]. split; [lia|].
  rewrite Hp2, Hk2. reflexivity.
Qed.

(** The sample backlog: five posts, of which the short note is dropped. *)
Lemma dropped_posts_leave_nothing_witness :
  faults sample_store = []
  /\ snd (collect_loop default_cfg (sample_ext sample_backlog)
            [subscribe_rule] sample_backlog 42 "delta_news" (None, 0, 0)
            sample_store) =
     snd (collect_loop default_cfg (sample_ext sample_backlog)
            [subscribe_rule]
            (collected_of default_cfg (sample_ext sample_backlog)
               [subscribe_rule] sample_backlog)
            42 "delta_news" (None, 0, 0) sample_store).
Proof.
  split; [reflexivity|].
  apply (proj1 (proj2 (@dropped_posts_leave_nothing default_cfg
                         (sample_ext sample_backlog) [subscribe_rule]
                         sample_backlog 42 "delta_news" sample_store
                         eq_refl))).
Defined.

(** X16.  A run with no fault pending returns normally and enters every
    channel of the table once, in table order.  Exclusion rules that are
    not active play no part: two stores with the same posts, images and
    channels and the same active rules end with the same posts and
    images. *)
Theorem inactive_rules_are_ignored (cfg : Config) (ext : Externals)
        (s s2 : Store) :
  faults s = [] ->
  faults s2 = [] ->
  messages s2 = messages s ->
  images s2 = images s ->
  channels s2 = channels s ->
  filter is_active (exclusion_rules s2) = filter is_active (exclusion_rules s) ->
  fst (run cfg ext s) = Ret tt
  /\ channel_starts (trace (snd (run cfg ext s))) =
     (channel_starts (trace s) ++ map telegram_channel_id (channels s))%list
  /\ messages (snd (run cfg ext s2)) = messages (snd (run cfg ext s))
  /\ images (snd (run cfg ext s2)) = images (snd (run cfg ext s)).
Proof.
  destruct s as [ms ims cs rs fs tr]. destruct s2 as [ms2 ims2 cs2 rs2 fs2 tr2].
  cbn [faults messages images channels exclusion_rules trace].
  intros -> -> -> -> -> Hr.
  assert (Hrun : forall rs0 tr0,
             run cfg ext (mkStore ms ims cs rs0 [] tr0) =
             process_channels cfg ext (map rule (filter is_active rs0)) cs
               (mkStore ms ims cs rs0 [] tr0)).
  { intros rs0 tr0.
    unfold run, bind, get_active_exclusion_rules, get_all_channels, io_point.
    cbn. now destruct cs. }
  rewrite !Hrun, Hr.
  destruct (process_channels_quiet cfg ext (map rule (filter is_active rs))
              cs ms ims cs rs tr) as [cs1 [tr1 H1]].
  destruct (process_channels_quiet cfg ext (map rule (filter is_active rs))
              cs ms ims cs rs2 tr2) as [cs2 [tr2' H2]].
  destruct (process_channels_returns cfg ext (map rule (filter is_active rs))
              cs (mkStore ms ims cs rs [] tr)) as [s' [H3 H4]].
  rewrite H2. rewrite H1 in *. injection H3 as <-.
  cbn [fst snd messages images trace] in *.
  split; [reflexivity|]. split; [exact H4|]. split; reflexivity.
Qed.

(** The sample store, and the same store with a retired rule added. *)
Lemma inactive_rules_are_ignored_witness :
  messages (snd (run default_cfg (sample_ext sample_backlog)
                   {| messages := []; images := [];
                      channels := [sample_channel];
                      exclusion_rules :=
                        [ {| rule_id := 2;
                             rule := {| pattern := "Flood";
                                        rule_type := "contains";
                                        is_case_sensitive := true |};
                             is_active := false |};
                          {| rule_id := 1; rule := subscribe_rule;
                             is_active := true |} ];
                      faults := []; trace := [] |})) =
  messages (snd (run default_cfg (sample_ext sample_backlog) sample_store)).
Proof.
  apply (proj1 (proj2 (proj2 (@inactive_rules_are_ignored default_cfg
           (sample_ext sample_backlog) sample_store
           {| messages := []; images := [];
              channels := [sample_channel];
              exclusion_rules :=
                [ {| rule_id := 2;
                     rule := {| pattern := "Flood";
                                rule_type := "contains";
                                is_case_sensitive := true |};
                     is_active := false |};
                  {| rule_id := 1; rule := subscribe_rule;
                     is_active := true |} ];
              faults := []; trace := [] |}
           eq_refl eq_refl eq_refl eq_refl eq_refl eq_refl)))).
Defined.

(* ===================================================================== *)
(** * References between the tables *)

Lemma has_channel_ids cid rows rows' :
  map telegram_channel_id rows' = map telegram_channel_id rows ->
  has_channel cid rows' = has_channel cid rows.
Proof.
  unfold has_channel. revert rows'.
  induction rows as [|c rows IH]; intros [|c' rows'] H; try discriminate.
  - reflexivity.
  - cbn in H. injection H as Hc Hr. cbn. now rewrite Hc, (IH _ Hr).
Qed.

Lemma has_channel_in cid rows :
  In cid (map telegram_channel_id rows) -> has_channel cid rows = true.
Proof.
  unfold has_channel. intros H. apply in_map_iff in H.
  destruct H as [c [<- Hin]]. apply existsb_exists. exists c.
  split; [assumption|apply Z.eqb_refl].
Qed.

Lemma set_last_fetched_name cid t c : name (set_last_fetched cid t c) = name c.
Proof.
  unfold set_last_fetched. now destruct (Z.eqb (telegram_channel_id c) cid).
Qed.

Lemma in_insert_message_row r d rows :
  In r (insert_message_row d rows) -> In r rows \/ r = d.
Proof.
  unfold insert_message_row. destruct (existsb _ rows); [now left|].
  intros H. apply in_app_or in H. destruct H as [H|[H|[]]]; auto.
Qed.

Section ChannelsOfRun.

Variable cfg : Config.
Variable ext : Externals.
Variable allowed : list Z.

Lemma within_frame : frame (within allowed).
Proof.
  split; unfold within.
  - intros s. split; [reflexivity|]. split; [reflexivity|]. now left.
  - intros a b c [Hi1 [Hn1 Hm1]] [Hi2 [Hn2 Hm2]].
    split; [now rewrite Hi2|]. split; [now rewrite Hn2|].
    intros r Hr. destruct (Hm2 r Hr) as [H|H]; [now apply Hm1|now right].
  - intros s l. cbn. split; [reflexivity|]. split; [reflexivity|]. now left.
Qed.

Lemma within_of_channels s s' :
  channels s' = channels s ->
  (forall r, In r (messages s') -> In r (messages s) \/ In (channel_id r) allowed) ->
  within allowed s s'.
Proof. intros Hc Hm. unfold within. rewrite Hc. auto. Qed.

Lemma message_within rules m c n :
  In c allowed -> stable (within allowed) (process_message cfg ext rules m c n).
Proof.
  intros Hc s. apply within_of_channels.
  - apply (message_keeps_channels cfg ext rules m c n s).
  - intros r Hr.
    destruct (process_message_rows cfg ext rules m c n s) as [H|H];
      rewrite H in Hr; [now left|].
    apply in_insert_message_row in Hr. destruct Hr as [Hr| ->]; [now left|].
    right. exact Hc.
Qed.

Lemma collect_loop_within rules c n :
  In c allowed ->
  forall stream st,
    stable (within allowed) (collect_loop cfg ext rules stream c n st).
Proof.
  intros Hc stream. induction stream as [|m rest IH]; intros st;
    cbn [collect_loop].
  - frame_steps within_frame.
  - destruct st as [[latest processed] collected].
    apply (stable_bind within_frame);
      [apply (stable_io_point within_frame)|intros _].
    apply (stable_bind within_frame);
      [now apply message_within|intros [d|]]; apply IH.
Qed.

Lemma emit_within e : stable (within allowed) (emit e).
Proof.
  intros s. apply within_of_channels; [reflexivity|]. intros r Hr. now left.
Qed.

Lemma update_within c t :
  stable (within allowed) (update_channel_last_fetched c t).
Proof.
  unfold update_channel_last_fetched.
  apply (stable_bind within_frame);
    [apply (stable_io_point within_frame)|intros _].
  apply (stable_bind within_frame); [apply emit_within|intros _].
  intros s. unfold within. cbn. rewrite !map_map.
  split; [|split].
  - apply map_ext. intros a. apply set_last_fetched_id.
  - apply map_ext. intros a. apply set_last_fetched_name.
  - intros r Hr. now left.
Qed.

Lemma channel_pass_within rules ci :
  In (telegram_channel_id ci) allowed ->
  stable (within allowed) (channel_pass cfg ext rules ci).
Proof.
  intros Hc. unfold channel_pass.
  apply (stable_bind within_frame); [now apply collect_loop_within|].
  intros [[latest processed] collected].
  apply (stable_bind within_frame).
  - destruct latest; [apply update_within|apply (stable_ret within_frame)].
  - intros _. apply (stable_bind within_frame); [apply emit_within|].
    intros _. apply (stable_ret within_frame).
Qed.

Lemma process_channel_within rules ci :
  In (telegram_channel_id ci) allowed ->
  stable (within allowed) (process_channel cfg ext rules ci).
Proof.
  intros Hc. unfold process_channel.
  apply (stable_bind within_frame); [apply emit_within|]. intros _.
  apply (stable_try within_frame).
  - apply (stable_bind within_frame); [now apply channel_pass_within|].
    intros. apply (stable_ret within_frame).
  - intros _. apply emit_within.
Qed.

Lemma process_channels_within rules chans :
  (forall ci, In ci chans -> In (telegram_channel_id ci) allowed) ->
  stable (within allowed) (process_channels cfg ext rules chans).
Proof.
  induction chans as [|ci rest IH]; intros H; cbn [process_channels].
  - apply (stable_ret within_frame).
  - apply (stable_bind within_frame).
    + apply process_channel_within. apply H. now left.
    + intros _. apply IH. intros c Hin. apply H. now right.
Qed.

End ChannelsOfRun.

(** A run works on the channels of the table it loaded. *)
Lemma run_within (cfg : Config) (ext : Externals) (s : Store) :
  within (map telegram_channel_id (channels s)) s (snd (run cfg ext s)).
Proof.
  set (L := map telegram_channel_id (channels s)).
  assert (Hloop : forall rules l,
             within L s
               (snd (process_channels cfg ext rules (channels s)
                       (set_faults l s)))).
  { intros rules l.
    apply (frame_trans (within_frame L)) with (set_faults l s);
      [apply (frame_faults (within_frame L))|].
    assert (Hs : within L (set_faults l s)
                   (snd (process_channels cfg ext rules
                           (channels (set_faults l s)) (set_faults l s)))).
    { apply process_channels_within. intros ci Hin.
      unfold L. apply in_map. destruct s; exact Hin. }
    destruct s; exact Hs. }
  assert (Hloop0 : forall rules,
             within L s (snd (process_channels cfg ext rules (channels s) s))).
  { intros rules.
    apply process_channels_within. intros ci Hin. unfold L. now apply in_map. }
  pose proof (frame_refl (within_frame L) s) as Hrefl.
  pose proof (frame_faults (within_frame L) s) as Hfaults.
  unfold run, bind, get_active_exclusion_rules, get_all_channels, io_point, ret.
  destruct s as [ms ims cs rs fs tr].
  cbn [faults channels set_faults messages images exclusion_rules trace] in *.
  destruct fs as [|[|] [|[|] [|[|] fs]]]; cbn [fst snd faults set_faults channels];
    try apply Hrefl; try apply Hfaults;
    (destruct cs as [|ci cs];
     [ first [apply Hrefl | apply Hfaults]
     | first [apply Hloop0 | apply Hloop] ]).
Qed.

(** The record of a post marked duplicate names the record the lookup
    found. *)
Lemma insert_built_row_targets (ext : Externals) rows m c :
  targets_resolve rows ->
  targets_resolve (insert_message_row (message_data_for ext rows m c) rows).
Proof.
  intros H. unfold insert_message_row.
  destruct (existsb _ rows); [assumption|].
  intros r Hin Hdup. apply in_app_or in Hin. destruct Hin as [Hin|[<-|[]]].
  - destruct (H r Hin Hdup) as [o [Ho Hrest]].
    exists o. split; [apply in_or_app; now left|exact Hrest].
  - unfold message_data_for in *.
    cbn [is_duplicate duplicate_of_channel_id duplicate_of_message_id
         text_hash] in *.
    destruct (negb (is_forward m) && str_truthy (text_of m))%bool;
      [|discriminate].
    destruct (select_duplicate (md5_hexdigest ext (text_of m)) rows)
      as [[dc dm]|] eqn:Hs; [|discriminate].
    destruct (select_duplicate_sound _ _ Hs) as [o [Ho [Hc [Hm [Hh Hd]]]]].
    exists o. split; [apply in_or_app; now left|].
    cbn [option_map fst snd]. rewrite Hc, Hm.
    repeat split; auto. discriminate.
Qed.

Lemma map_pair_eq {A B C} (f : A -> B) (g : A -> C) (l l' : list A) :
  map f l' = map f l -> map g l' = map g l ->
  map (fun a => (f a, g a)) l' = map (fun a => (f a, g a)) l.
Proof.
  revert l'. induction l as [|a l IH]; intros [|a' l'] Hf Hg;
    try discriminate; [reflexivity|].
  cbn in *. injection Hf as Hf1 Hf2. injection Hg as Hg1 Hg2.
  now rewrite Hf1, Hg1, (IH _ Hf2 Hg2).
Qed.

(** X17.  A run never adds, removes or renames a channel: after it the
    table holds the same (id, name) pairs as before, whatever the order
    in which the store returns its rows; it writes watermarks and nothing
    else.  Every post it stores carries the id of a channel of the table,
    so if every stored post belonged to a channel of the table before the
    run, the same holds after it.  Under any faults. *)
Theorem channel_references_kept (cfg : Config) (ext : Externals) (s : Store) :
  Permutation
    (map (fun c => (telegram_channel_id c, name c))
         (channels (snd (run cfg ext s))))
    (map (fun c => (telegram_channel_id c, name c)) (channels s))
  /\ (forall cid, has_channel cid (channels (snd (run cfg ext s)))
                  = has_channel cid (channels s))
  /\ (forall r, In r (messages (snd (run cfg ext s))) ->
                In r (messages s)
                \/ has_channel (channel_id r) (channels s) = true)
  /\ (posts_have_channels s -> posts_have_channels (snd (run cfg ext s))).
Proof.
  destruct (run_within cfg ext s) as [Hi [Hn Hm]].
  split.
  { rewrite (map_pair_eq _ _ _ _ Hi Hn). apply Permutation_refl. }
  split.
  { intros cid. apply has_channel_ids. exact Hi. }
  split.
  - intros r Hr. destruct (Hm r Hr) as [H|H]; [now left|].
    right. now apply has_channel_in.
  - intros H r Hr. rewrite (has_channel_ids _ _ _ Hi).
    destruct (Hm r Hr) as [Hin|Hin]; [now apply H|now apply has_channel_in].
Qed.

(** The sample run. *)
Lemma channel_references_kept_witness :
  posts_have_channels sample_store
  /\ posts_have_channels
       (snd (run default_cfg (sample_ext sample_backlog) sample_store)).
Proof.
  assert (H : posts_have_channels sample_store) by (intros r []).
  split; [exact H|].
  exact (proj2 (proj2 (proj2 (@channel_references_kept default_cfg
                                (sample_ext sample_backlog) sample_store))) H).
Defined.

(** X18.  If every stored record marked duplicate names a stored record
    with the key in its [duplicate_of] columns, the same fingerprint and an
    unset [is_duplicate] flag, the same holds after a run, under any
    faults: a duplicate never points at a missing post, at another
    duplicate, or at a post with a different text. *)
Theorem duplicates_name_their_original (cfg : Config) (ext : Externals)
        (s : Store) :
  targets_resolve (messages s) ->
  targets_resolve (messages (snd (run cfg ext s))).
Proof.
  apply (@run_keeps_table cfg ext targets_resolve).
  intros rows m c. apply insert_built_row_targets.
Qed.

(** The sample run. *)
Lemma duplicates_name_their_original_witness :
  targets_resolve (messages sample_store)
  /\ targets_resolve
       (messages (snd (run default_cfg (sample_ext sample_backlog)
                         sample_store))).
Proof.
  assert (H : targets_resolve (messages sample_store)) by (intros r []).
  split; [exact H|].
  exact (@duplicates_name_their_original default_cfg
           (sample_ext sample_backlog) sample_store H).
Defined.

(* ===================================================================== *)
(** * The reader's lookup of an original *)

Lemma unique_keys_eq rows r1 r2 :
  unique_keys rows -> In r1 rows -> In r2 rows ->
  message_key r1 = message_key r2 -> r1 = r2.
Proof.
  unfold unique_keys. induction rows as [|r rows IH]; [intros _ []|].
  cbn [map]. intros Hnd [H1|H1] [H2|H2] Hk.
  - congruence.
  - subst r1. exfalso. apply NoDup_cons_iff in Hnd. destruct Hnd as [Hn _].
    apply Hn. rewrite Hk. now apply in_map.
  - subst r2. exfalso. apply NoDup_cons_iff in Hnd. destruct Hnd as [Hn _].
    apply Hn. rewrite <- Hk. now apply in_map.
  - apply IH; auto. now apply NoDup_cons_iff in Hnd.
Qed.

Lemma same_key_spec cid mid r :
  same_key cid mid r = true <-> message_key r = (cid, mid).
Proof.
  unfold same_key, message_key. rewrite Bool.andb_true_iff, !Z.eqb_eq.
  split; [intros [-> ->]; reflexivity|intros [= -> ->]; auto].
Qed.

Lemma filter_head_in {A} (f : A -> bool) (l : list A) (a : A) :
  In a l -> f a = true -> exists b rest, filter f l = b :: rest.
Proof.
  intros Hin Hf.
  destruct (filter f l) as [|b rest] eqn:H; [|eauto].
  assert (Hm : In a (filter f l)) by (apply filter_In; auto).
  rewrite H in Hm. destruct Hm.
Qed.

(** X19.  [get_original_message] on a store whose keys are unique, whose
    duplicates name their original and whose posts belong to channels of
    the table: for every stored duplicate, the lookup of the key in its
    [duplicate_of] columns returns a row, and that row is the record of the
    stored original: same key, text and time, an unset [is_duplicate] flag
    and the duplicate's fingerprint.  The lookup of a key that is not
    stored returns [None].  The lookup never changes the store. *)
Theorem original_of_duplicate_found (s : Store) (r : MessageRow) :
  unique_keys (messages s) ->
  targets_resolve (messages s) ->
  posts_have_channels s ->
  faults s = [] ->
  In r (messages s) ->
  is_duplicate r = true ->
  (exists o dc dm om,
      In o (messages s)
      /\ is_duplicate o = false
      /\ text_hash o = text_hash r
      /\ duplicate_of_channel_id r = Some dc
      /\ duplicate_of_message_id r = Some dm
      /\ get_original_message dc dm s = (Ret (Some om), s)
      /\ om_channel_id om = channel_id o
      /\ om_message_id om = message_id o
      /\ channel_id o = dc
      /\ message_id o = dm
      /\ om_message_text om = message_text o
      /\ om_message_datetime om = message_datetime o
      /\ In (om_channel_name om) (map name (channels s)))
  /\ (forall cid mid,
         existsb (same_key cid mid) (messages s) = false ->
         get_original_message cid mid s = (Ret None, s)).
Proof.
  intros Hu Ht Hc Hf Hin Hdup. split.
  - destruct (Ht r Hin Hdup) as [o [Ho [Hdc [Hdm [Hod [Hh _]]]]]].
    assert (Hfilter : filter (same_key (channel_id o) (message_id o))
                        (messages s) = [o]).
    { clear - Hu Ho. revert Hu Ho. generalize (messages s) as rows.
      induction rows as [|a rows IH]; [intros _ []|].
      intros Hu Ho. cbn [filter].
      destruct (same_key (channel_id o) (message_id o) a) eqn:Hk.
      - apply same_key_spec in Hk.
        assert (Ha : a = o).
        { apply (unique_keys_eq Hu); [now left|exact Ho|exact Hk]. }
        subst a. f_equal.
        apply NoDup_cons_iff in Hu. destruct Hu as [Hn _].
        destruct (filter (same_key (channel_id o) (message_id o)) rows)
          as [|b rest] eqn:Hb; [reflexivity|].
        exfalso. apply Hn.
        assert (Hb' : In b (filter (same_key (channel_id o) (message_id o)) rows))
          by (rewrite Hb; now left).
        apply filter_In in Hb'. destruct Hb' as [Hb1 Hb2].
        apply same_key_spec in Hb2.
        assert (Hbo : message_key b = message_key o) by exact Hb2.
        rewrite <- Hbo. now apply in_map.
      - destruct Ho as [->|Ho].
        + unfold same_key in Hk. now rewrite !Z.eqb_refl in Hk.
        + apply IH; [|exact Ho]. unfold unique_keys in *.
          now apply NoDup_cons_iff in Hu. }
    pose proof (Hc o Ho) as Hch. unfold has_channel in Hch.
    apply existsb_exists in Hch. destruct Hch as [c [Hcin Hceq]].
    assert (Hceq' : Z.eqb (channel_id o) (telegram_channel_id c) = true)
      by (now rewrite Z.eqb_sym).
    destruct (filter_head_in
                (fun c => Z.eqb (channel_id o) (telegram_channel_id c))
                (channels s) c Hcin Hceq') as [c0 [rest Hc0]].
    exists o, (channel_id o), (message_id o).
    eexists. split; [exact Ho|]. split; [exact Hod|]. split; [exact Hh|].
    split; [exact Hdc|]. split; [exact Hdm|]. split.
    { unfold get_original_message, bind. rewrite (io_point_quiet _ s Hf).
      unfold original_rows. rewrite Hfilter. cbn [flat_map].
      rewrite Hc0. cbn [map app hd_error]. reflexivity. }
    cbn. repeat split; try reflexivity.
    apply in_map.
    assert (H0 : In c0 (filter (fun c => Z.eqb (channel_id o)
                                           (telegram_channel_id c))
                          (channels s))) by (rewrite Hc0; now left).
    now apply filter_In in H0.
  - intros cid mid Hne.
    unfold get_original_message, bind. rewrite (io_point_quiet _ s Hf).
    unfold original_rows.
    assert (Hnil : filter (same_key cid mid) (messages s) = []).
    { destruct (filter (same_key cid mid) (messages s)) as [|b rest] eqn:Hb;
        [reflexivity|].
      assert (Hb' : In b (filter (same_key cid mid) (messages s)))
        by (rewrite Hb; now left).
      apply filter_In in Hb'. destruct Hb' as [Hb1 Hb2].
      assert (Hex : existsb (same_key cid mid) (messages s) = true)
        by (apply existsb_exists; eauto).
      congruence. }
    rewrite Hnil. reflexivity.
Qed.

(** The store the sample run leaves: the third post repeats the text of
    the first and is stored as its duplicate. *)
Lemma original_of_duplicate_found_witness :
  let s := snd (run default_cfg (sample_ext sample_backlog) sample_store) in
  let r := nth 2 (messages s) sample_row1 in
  is_duplicate r = true
  /\ exists o dc dm om,
      In o (messages s)
      /\ is_duplicate o = false
      /\ text_hash o = text_hash r
      /\ duplicate_of_channel_id r = Some dc
      /\ duplicate_of_message_id r = Some dm
      /\ get_original_message dc dm s = (Ret (Some om), s)
      /\ om_channel_id om = channel_id o
      /\ om_message_id om = message_id o
      /\ channel_id o = dc
      /\ message_id o = dm
      /\ om_message_text om = message_text o
      /\ om_message_datetime om = message_datetime o
      /\ In (om_channel_name om) (map name (channels s)).
Proof.
  intros s r.
  assert (Hu : unique_keys (messages s)).
  { apply (@run_keeps_table default_cfg (sample_ext sample_backlog)
             unique_keys).
    - intros rows m c. apply insert_message_row_unique_keys.
    - apply NoDup_nil. }
  assert (Ht : targets_resolve (messages s)).
  { apply (@run_keeps_table default_cfg (sample_ext sample_backlog)
             targets_resolve).
    - intros rows m c. apply insert_built_row_targets.
    - intros x []. }
  assert (Hc : posts_have_channels s).
  { intros x Hx.
    destruct (run_within default_cfg (sample_ext sample_backlog) sample_store)
      as [Hi [_ Hm]].
    rewrite (has_channel_ids _ _ _ Hi).
    destruct (Hm x Hx) as [[]|Hin]. now apply has_channel_in. }
  assert (Hf : faults s = []) by (vm_compute; reflexivity).
  assert (Hr : In r (messages s)).
  { apply nth_In. vm_compute. lia. }
  assert (Hd : is_duplicate r = true) by (vm_compute; reflexivity).
  split; [exact Hd|].
  exact (proj1 (@original_of_duplicate_found s r Hu Ht Hc Hf Hr Hd)).
Defined.

(* ===================================================================== *)
(** * The viewer: pages, groups and favourites *)

(** X20.  Pagination of the news list, for a page size of at least one and
    a non-negative total: [total_pages] is the least number of pages that
    hold [total] entries; it is zero exactly when there is nothing to
    show; and the offset of page [page] lies before the end of the list
    exactly when [page] is at most [total_pages]. *)
Theorem pagination_covers (total page_size page : Z) :
  1 <= page_size ->
  0 <= total ->
  1 <= page ->
  0 <= total_pages total page_size
  /\ (total_pages total page_size = 0 <-> total = 0)
  /\ (total_pages total page_size - 1) * page_size < total
  /\ total <= total_pages total page_size * page_size
  /\ (forall n, 0 <= n -> total <= n * page_size ->
                total_pages total page_size <= n)
  /\ (page_offset page page_size < total <->
      page <= total_pages total page_size).
Proof.
  intros Hps Ht Hp. unfold total_pages, page_offset.
  pose proof (Z.div_mod (total + page_size - 1) page_size) as Hdm.
  pose proof (Z.mod_pos_bound (total + page_size - 1) page_size) as Hmod.
  set (n := (total + page_size - 1) / page_size) in *.
  set (r := (total + page_size - 1) mod page_size) in *.
  assert (Hd : total + page_size - 1 = page_size * n + r) by (apply Hdm; lia).
  assert (Hr : 0 <= r < page_size) by (apply Hmod; lia).
  assert (Hlo : (n - 1) * page_size < total) by nia.
  assert (Hhi : total <= n * page_size) by nia.
  assert (Hn : 0 <= n) by nia.
  split; [exact Hn|]. split.
  { split; intros H; nia. }
  split; [exact Hlo|]. split; [exact Hhi|]. split.
  { intros k Hk Hkt. nia. }
  split; intros H; nia.
Qed.

(** Forty-one entries in pages of twenty: three pages. *)
Lemma pagination_covers_witness :
  total_pages 41 20 = 3
  /\ (page_offset 3 20 < 41 <-> 3 <= total_pages 41 20).
Proof.
  split; [reflexivity|].
  apply (@pagination_covers 41 20 3); lia.
Defined.

Lemma dict_get_none_keys {V} (k : string) (d : dict V) :
  dict_get k d = None <-> ~ In k (map fst d).
Proof.
  induction d as [|[k' v'] d IH]; cbn.
  - split; [intros _ []|reflexivity].
  - destruct (String.eqb k' k) eqn:E.
    + apply String.eqb_eq in E. split; [discriminate|]. intros H.
      exfalso. apply H. now left.
    + apply String.eqb_neq in E. rewrite IH. split.
      * intros H [H1|H1]; [contradiction|now apply H].
      * intros H H1. apply H. now right.
Qed.

Lemma dict_set_absent {V} (k : string) (v : V) (d : dict V) :
  dict_get k d = None -> dict_set k v d = (d ++ [(k, v)])%list.
Proof.
  induction d as [|[k' v'] d IH]; cbn; [reflexivity|].
  destruct (String.eqb k' k); [discriminate|]. intros H. now rewrite IH.
Qed.

Lemma dict_set_present_keys {V} (k : string) (v : V) (d : dict V) :
  dict_get k d <> None -> map fst (dict_set k v d) = map fst d.
Proof.
  induction d as [|[k' v'] d IH]; cbn; [congruence|].
  destruct (String.eqb k' k) eqn:E; cbn; [reflexivity|].
  intros H. now rewrite IH.
Qed.

Lemma with_images_same (g : NewsGroup) : with_images (ng_images g) g = g.
Proof. now destruct g. Qed.

Section Grouping.

Variable isoformat : Z -> string.

(** One row: the entry of its group is made or merged, the others stay. *)
Lemma group_step_get d msg k :
  dict_get k (group_step isoformat d msg) =
  if String.eqb (nr_group_key msg) k
  then Some (merge_row msg
               match dict_get (nr_group_key msg) d with
               | Some g => g
               | None => new_group isoformat msg
               end)
  else dict_get k d.
Proof.
  unfold group_step.
  set (key := nr_group_key msg).
  set (g0 := match dict_get key d with
             | Some g => g
             | None => new_group isoformat msg
             end).
  set (d1 := match dict_get key d with
             | None => dict_set key (new_group isoformat msg) d
             | Some _ => d
             end).
  assert (H1 : dict_get key d1 = Some g0).
  { unfold d1, g0. destruct (dict_get key d) eqn:E; [exact E|].
    apply dict_get_set_same. }
  assert (H1' : forall k', key <> k' -> dict_get k' d1 = dict_get k' d).
  { intros k' Hne. unfold d1. destruct (dict_get key d); [reflexivity|].
    now apply dict_get_set_other. }
  set (g1 := with_images (ng_images g0 ++ nr_images msg) g0).
  set (d2 := match nr_images msg with
             | [] => d1
             | _ :: _ =>
                 match dict_get key d1 with
                 | Some g => dict_set key
                               (with_images (ng_images g ++ nr_images msg) g) d1
                 | None => d1
                 end
             end).
  assert (H2 : dict_get key d2 = Some g1).
  { unfold d2, g1. destruct (nr_images msg) as [|i imgs] eqn:Ei.
    - rewrite app_nil_r, with_images_same. exact H1.
    - rewrite H1. apply dict_get_set_same. }
  assert (H2' : forall k', key <> k' -> dict_get k' d2 = dict_get k' d).
  { intros k' Hne. unfold d2. destruct (nr_images msg) as [|i imgs].
    - now apply H1'.
    - rewrite H1. rewrite dict_get_set_other by assumption. now apply H1'. }
  rewrite H2. unfold merge_row. fold g1.
  destruct (String.eqb key k) eqn:Ek.
  - apply String.eqb_eq in Ek. subst k.
    destruct (str_truthy (or_empty (nr_message_text msg))
              && negb (str_truthy (ng_message_text g1)))%bool.
    + apply dict_get_set_same.
    + exact H2.
  - apply String.eqb_neq in Ek.
    destruct (str_truthy (or_empty (nr_message_text msg))
              && negb (str_truthy (ng_message_text g1)))%bool.
    + rewrite dict_get_set_other by assumption. now apply H2'.
    + now apply H2'.
Qed.

(** One row: a new key goes to the end, a known key keeps its place. *)
Lemma group_step_keys d msg :
  map fst (group_step isoformat d msg) =
  match dict_get (nr_group_key msg) d with
  | None => (map fst d ++ [nr_group_key msg])%list
  | Some _ => map fst d
  end.
Proof.
  unfold group_step.
  set (key := nr_group_key msg).
  set (d1 := match dict_get key d with
             | None => dict_set key (new_group isoformat msg) d
             | Some _ => d
             end).
  assert (K1 : map fst d1 = match dict_get key d with
                            | None => (map fst d ++ [key])%list
                            | Some _ => map fst d
                            end).
  { unfold d1. destruct (dict_get key d) eqn:E; [reflexivity|].
    rewrite (dict_set_absent _ _ _ E), map_app. reflexivity. }
  assert (H1 : dict_get key d1 <> None).
  { unfold d1. destruct (dict_get key d) eqn:E; [congruence|].
    rewrite dict_get_set_same. discriminate. }
  set (d2 := match nr_images msg with
             | [] => d1
             | _ :: _ =>
                 match dict_get key d1 with
                 | Some g => dict_set key
                               (with_images (ng_images g ++ nr_images msg) g) d1
                 | None => d1
                 end
             end).
  assert (K2 : map fst d2 = map fst d1).
  { unfold d2. destruct (nr_images msg); [reflexivity|].
    destruct (dict_get key d1) eqn:E; [|reflexivity].
    apply dict_set_present_keys. congruence. }
  assert (H2 : dict_get key d2 <> None).
  { unfold d2. destruct (nr_images msg); [exact H1|].
    destruct (dict_get key d1) eqn:E; [|congruence].
    rewrite dict_get_set_same. discriminate. }
  rewrite <- K1, <- K2.
  destruct (dict_get key d2) as [g|] eqn:E; [|reflexivity].
  destruct (str_truthy (or_empty (nr_message_text msg))
            && negb (str_truthy (ng_message_text g)))%bool; [|reflexivity].
  apply dict_set_present_keys. congruence.
Qed.

Lemma group_messages_snoc rows msg :
  group_messages isoformat (rows ++ [msg]) =
  group_step isoformat (group_messages isoformat rows) msg.
Proof. unfold group_messages. now rewrite fold_left_app. Qed.

Lemma rows_of_group_snoc k rows msg :
  rows_of_group k (rows ++ [msg]) =
  (rows_of_group k rows
     ++ if String.eqb (nr_group_key msg) k then [msg] else [])%list.
Proof. unfold rows_of_group. rewrite filter_app. reflexivity. Qed.

(** The entry of a group is the entry of its first row with the rows of
    the group merged in, in fetch order. *)
Lemma group_messages_get rows k :
  dict_get k (group_messages isoformat rows) =
  match rows_of_group k rows with
  | [] => None
  | first :: rest =>
      Some (fold_left (fun g m => merge_row m g) (first :: rest)
                      (new_group isoformat first))
  end.
Proof.
  induction rows as [|msg rows IH] using rev_ind; [reflexivity|].
  rewrite group_messages_snoc, group_step_get, rows_of_group_snoc.
  destruct (String.eqb (nr_group_key msg) k) eqn:Ek.
  - apply String.eqb_eq in Ek. subst k. rewrite IH.
    destruct (rows_of_group (nr_group_key msg) rows) as [|first rest].
    + reflexivity.
    + cbn [app]. rewrite app_comm_cons, fold_left_app. reflexivity.
  - rewrite app_nil_r. exact IH.
Qed.

Lemma first_occurrences_snoc keys k :
  first_occurrences (keys ++ [k]) =
  if in_dec string_dec k keys then first_occurrences keys
  else (first_occurrences keys ++ [k])%list.
Proof.
  unfold first_occurrences. rewrite rev_app_distr. cbn [rev app nodup].
  destruct (in_dec string_dec k (rev keys)) as [Hi|Hn];
    destruct (in_dec string_dec k keys) as [Hi'|Hn']; try reflexivity.
  - exfalso. apply Hn'. now apply in_rev.
  - exfalso. apply Hn. now apply in_rev in Hi'.
Qed.

Lemma rows_of_group_nil k rows :
  rows_of_group k rows = [] <-> ~ In k (map nr_group_key rows).
Proof.
  unfold rows_of_group. split.
  - intros H Hin. apply in_map_iff in Hin. destruct Hin as [r [Hk Hr]].
    assert (Hm : In r (filter (fun r => String.eqb (nr_group_key r) k) rows)).
    { apply filter_In. split; [assumption|]. now apply String.eqb_eq. }
    rewrite H in Hm. destruct Hm.
  - intros H.
    destruct (filter (fun r => String.eqb (nr_group_key r) k) rows)
      as [|r rest] eqn:E; [reflexivity|].
    exfalso. apply H.
    assert (Hm : In r (filter (fun r => String.eqb (nr_group_key r) k) rows))
      by (rewrite E; now left).
    apply filter_In in Hm. destruct Hm as [Hr Hk].
    apply String.eqb_eq in Hk. subst k. now apply in_map.
Qed.

Lemma group_messages_keys rows :
  map fst (group_messages isoformat rows) =
  first_occurrences (map nr_group_key rows).
Proof.
  induction rows as [|msg rows IH] using rev_ind; [reflexivity|].
  rewrite group_messages_snoc, group_step_keys, map_app.
  cbn [map]. rewrite first_occurrences_snoc, <- IH.
  rewrite group_messages_get.
  destruct (in_dec string_dec (nr_group_key msg) (map nr_group_key rows))
    as [Hi|Hn].
  - destruct (rows_of_group (nr_group_key msg) rows) eqn:E; [|reflexivity].
    exfalso. now apply (proj1 (rows_of_group_nil _ _) E).
  - apply rows_of_group_nil in Hn. now rewrite Hn.
Qed.

End Grouping.

Lemma merge_row_fields msg g :
  ng_id (merge_row msg g) = ng_id g
  /\ ng_channel_id (merge_row msg g) = ng_channel_id g
  /\ ng_message_id (merge_row msg g) = ng_message_id g
  /\ ng_message_datetime (merge_row msg g) = ng_message_datetime g
  /\ ng_is_favorited (merge_row msg g) = ng_is_favorited g
  /\ ng_images (merge_row msg g) = (ng_images g ++ nr_images msg)%list
  /\ ng_message_text (merge_row msg g) =
     if str_truthy (ng_message_text g) then ng_message_text g
     else or_empty (nr_message_text msg).
Proof.
  unfold merge_row. cbn [with_images ng_message_text].
  destruct (str_truthy (ng_message_text g)) eqn:Eg;
    destruct (str_truthy (or_empty (nr_message_text msg))) eqn:Em;
    cbn; repeat split; try reflexivity.
  apply str_truthy_false in Eg. apply str_truthy_false in Em. congruence.
Qed.

Lemma merged_fields rows :
  forall g,
    let g' := fold_left (fun g m => merge_row m g) rows g in
    ng_id g' = ng_id g
    /\ ng_channel_id g' = ng_channel_id g
    /\ ng_message_id g' = ng_message_id g
    /\ ng_message_datetime g' = ng_message_datetime g
    /\ ng_is_favorited g' = ng_is_favorited g
    /\ ng_images g' = (ng_images g ++ flat_map nr_images rows)%list
    /\ ng_message_text g' =
       if str_truthy (ng_message_text g) then ng_message_text g
       else first_text rows.
Proof.
  induction rows as [|m rows IH]; intros g; cbn zeta.
  - cbn. rewrite app_nil_r. repeat split; try reflexivity.
    unfold first_text. cbn.
    destruct (str_truthy (ng_message_text g)) eqn:E; [reflexivity|].
    now apply str_truthy_false in E.
  - cbn [fold_left flat_map].
    destruct (IH (merge_row m g)) as [H1 [H2 [H3 [H4 [H5 [H6 H7]]]]]].
    destruct (merge_row_fields m g) as [M1 [M2 [M3 [M4 [M5 [M6 M7]]]]]].
    cbn zeta in *.
    rewrite H1, H2, H3, H4, H5, H6, H7, M1, M2, M3, M4, M5, M6, M7.
    rewrite <- app_assoc.
    repeat split; try reflexivity.
    unfold first_text. cbn [find].
    destruct (str_truthy (ng_message_text g)) eqn:Eg; [now rewrite Eg|].
    destruct (str_truthy (or_empty (nr_message_text m))) eqn:Em; reflexivity.
Qed.

(** X21.  The grouping loop of [get_raw_news].  The groups come out in the
    order in which their keys first occur among the fetched rows, one per
    key.  The entry of a group takes its id, channel, post id, time and
    favourite flag from the first row of the group; its images are the
    images of all rows of the group, in fetch order; and its text is the
    first non-empty text among those rows, the empty string if there is
    none. *)
Theorem groups_collect_their_rows (isoformat : Z -> string)
        (rows : list NewsRow) :
  map fst (group_messages isoformat rows) =
  first_occurrences (map nr_group_key rows)
  /\ forall k g,
      dict_get k (group_messages isoformat rows) = Some g ->
      exists first rest,
        rows_of_group k rows = first :: rest
        /\ ng_id g = nr_id first
        /\ ng_channel_id g = nr_channel_id first
        /\ ng_message_id g = nr_message_id first
        /\ ng_message_datetime g = isoformat (nr_message_datetime first)
        /\ ng_is_favorited g = nr_is_favorited first
        /\ ng_images g = flat_map nr_images (first :: rest)
        /\ ng_message_text g = first_text (first :: rest).
Proof.
  split; [apply group_messages_keys|].
  intros k g H. rewrite group_messages_get in H.
  destruct (rows_of_group k rows) as [|first rest]; [discriminate|].
  injection H as <-. exists first, rest. split; [reflexivity|].
  destruct (merged_fields (first :: rest) (new_group isoformat first))
    as [H1 [H2 [H3 [H4 [H5 [H6 H7]]]]]].
  cbn zeta in *. cbn [fold_left] in *. rewrite H1, H2, H3, H4, H5, H6, H7.
  cbn [new_group ng_id ng_channel_id ng_message_id ng_message_datetime
       ng_is_favorited ng_images ng_message_text app].
  repeat split; try reflexivity.
  unfold first_text. cbn [find].
  destruct (str_truthy (or_empty (nr_message_text first))); reflexivity.
Qed.

(** The sample rows: the album takes the caption of its second row. *)
Lemma groups_collect_their_rows_witness :
  exists g first rest,
    dict_get "555" (group_messages str_of_int sample_news_rows) = Some g
    /\ rows_of_group "555" sample_news_rows = first :: rest
    /\ ng_id g = nr_id first
    /\ ng_images g = flat_map nr_images (first :: rest)
    /\ ng_message_text g = first_text (first :: rest).
Proof.
  assert (H : exists g,
             dict_get "555" (group_messages str_of_int sample_news_rows)
             = Some g) by (eexists; vm_compute; reflexivity).
  destruct H as [g Hg].
  destruct (proj2 (@groups_collect_their_rows str_of_int sample_news_rows)
              "555" g Hg)
    as [first [rest [Hr [Hid [_ [_ [_ [_ [Hi Ht]]]]]]]]].
  exists g, first, rest. auto.
Defined.

Lemma is_favorite_app u m favs f :
  is_favorite u m (favs ++ [f])%list =
  (is_favorite u m favs || (Z.eqb (fst f) u && Z.eqb (snd f) m))%bool.
Proof.
  unfold is_favorite. rewrite existsb_app. cbn.
  now rewrite Bool.orb_false_r.
Qed.

Lemma is_favorite_filter u m u0 m0 favs :
  is_favorite u m
    (filter (fun f => negb (Z.eqb (fst f) u0 && Z.eqb (snd f) m0)) favs) =
  (is_favorite u m favs && negb (Z.eqb u u0 && Z.eqb m m0))%bool.
Proof.
  unfold is_favorite. induction favs as [|[a b] favs IH]; [reflexivity|].
  cbn [filter existsb fst snd].
  destruct (Z.eqb a u0 && Z.eqb b m0)%bool eqn:E0; cbn [negb].
  - rewrite IH.
    apply Bool.andb_true_iff in E0. destruct E0 as [Ha Hb].
    apply Z.eqb_eq in Ha. apply Z.eqb_eq in Hb. subst a b.
    rewrite (Z.eqb_sym u0 u), (Z.eqb_sym m0 m).
    destruct (Z.eqb u u0 && Z.eqb m m0)%bool; cbn;
      [now rewrite Bool.andb_false_r|reflexivity].
  - cbn [existsb fst snd]. rewrite IH.
    destruct (Z.eqb a u && Z.eqb b m)%bool eqn:E1; cbn; [|reflexivity].
    apply Bool.andb_true_iff in E1. destruct E1 as [Ha Hb].
    apply Z.eqb_eq in Ha. apply Z.eqb_eq in Hb. subst a b.
    rewrite E0. cbn. now rewrite Bool.orb_true_r || reflexivity.
Qed.

Lemma filter_absent u m favs :
  is_favorite u m favs = false ->
  filter (fun f => negb (Z.eqb (fst f) u && Z.eqb (snd f) m)) favs = favs.
Proof.
  unfold is_favorite. induction favs as [|f favs IH]; [reflexivity|].
  cbn [existsb filter]. intros H. apply Bool.orb_false_iff in H.
  destruct H as [H1 H2]. rewrite H1. cbn [negb]. now rewrite IH.
Qed.

Lemma toggle_favorite_in_range u m favs :
  int4 u = true -> int4 m = true ->
  toggle_favorite u m favs =
  if is_favorite u m favs
  then (Ret ("removed", false),
        filter (fun f => negb (Z.eqb (fst f) u && Z.eqb (snd f) m)) favs)
  else (Ret ("added", true), (favs ++ [(u, m)])%list).
Proof. intros Hu Hm. unfold toggle_favorite. now rewrite Hu, Hm. Qed.

(** X22.  [toggle_favorite].  A user or message id outside the range of an
    [INTEGER] column makes the call raise, and the table is left as it
    was.  Within the range: the flag in the response is the state of the
    pair after the call; the call flips the state of the pair it is given
    and of no other; it keeps the pairs of the table distinct; two calls
    in a row bring every pair back to the state it had, and leave the
    table itself unchanged if the pair was not in it. *)
Theorem toggle_favorite_flips (u m : Z) (favs : favorites) :
  ((int4 u && int4 m)%bool = false ->
   toggle_favorite u m favs = (Raise DataError, favs))
  /\ (int4 u = true -> int4 m = true ->
      let after := snd (toggle_favorite u m favs) in
      (exists status,
          fst (toggle_favorite u m favs)
          = Ret (status, is_favorite u m after))
      /\ is_favorite u m after = negb (is_favorite u m favs)
      /\ (forall u' m', (u', m') <> (u, m) ->
                        is_favorite u' m' after = is_favorite u' m' favs)
      /\ (NoDup favs -> NoDup after)
      /\ (forall u' m',
             is_favorite u' m' (snd (toggle_favorite u m after)) =
             is_favorite u' m' favs)
      /\ (is_favorite u m favs = false ->
          snd (toggle_favorite u m after) = favs)).
Proof.
  split.
  { intros H. unfold toggle_favorite. now rewrite H. }
  intros Hu Hm. cbn zeta.
  assert (Hother : forall u' m' : Z,
             (u', m') <> (u, m) -> (Z.eqb u' u && Z.eqb m' m)%bool = false).
  { intros u' m' Hne. apply Bool.andb_false_iff.
    destruct (Z.eqb u' u) eqn:E1; [|now left]. right.
    apply Z.eqb_eq in E1. subst u'. apply Z.eqb_neq. congruence. }
  rewrite !(toggle_favorite_in_range u m) by assumption.
  destruct (is_favorite u m favs) eqn:E; cbn [fst snd negb].
  - assert (Hoff : is_favorite u m
                     (filter (fun f => negb (Z.eqb (fst f) u
                                              && Z.eqb (snd f) m)) favs)
                   = false).
    { rewrite is_favorite_filter, !Z.eqb_refl. cbn.
      now rewrite Bool.andb_false_r. }
    rewrite Hoff. cbn [snd].
    split; [now exists "removed"|]. split; [reflexivity|]. split.
    { intros u' m' Hne. rewrite is_favorite_filter, (Hother _ _ Hne).
      cbn. now rewrite Bool.andb_true_r. }
    split.
    { intros Hnd. now apply NoDup_filter. }
    split; [|discriminate].
    intros u' m'.
    rewrite is_favorite_app, is_favorite_filter. cbn [fst snd].
    rewrite (Z.eqb_sym u u'), (Z.eqb_sym m m').
    destruct (Z.eqb u' u && Z.eqb m' m)%bool eqn:E'; cbn.
    + rewrite Bool.andb_false_r. cbn.
      apply Bool.andb_true_iff in E'. destruct E' as [Hu' Hm'].
      apply Z.eqb_eq in Hu'. apply Z.eqb_eq in Hm'. subst u' m'.
      now rewrite E.
    + now rewrite Bool.andb_true_r, Bool.orb_false_r.
  - assert (Hon : is_favorite u m (favs ++ [(u, m)])%list = true).
    { rewrite is_favorite_app. cbn [fst snd]. rewrite !Z.eqb_refl.
      now rewrite Bool.orb_true_r. }
    rewrite Hon. cbn [snd].
    assert (Hback : filter (fun f => negb (Z.eqb (fst f) u && Z.eqb (snd f) m))
                      (favs ++ [(u, m)])%list = favs).
    { rewrite filter_app. cbn [filter fst snd]. rewrite !Z.eqb_refl.
      cbn [andb negb]. rewrite app_nil_r. now apply filter_absent. }
    rewrite Hback.
    split; [now exists "added"|]. split; [reflexivity|]. split.
    { intros u' m' Hne. rewrite is_favorite_app. cbn [fst snd].
      rewrite (Z.eqb_sym u u'), (Z.eqb_sym m m'), (Hother _ _ Hne).
      now rewrite Bool.orb_false_r. }
    split.
    { intros Hnd. apply NoDup_snoc; [assumption|].
      intros Hin.
      assert (Hex : is_favorite u m favs = true).
      { unfold is_favorite. apply existsb_exists. exists (u, m).
        split; [assumption|]. cbn. now rewrite !Z.eqb_refl. }
      congruence. }
    split; [reflexivity|]. intros _. reflexivity.
Qed.

(** A table of two favourites: one of them toggled, and a call with a
    message id past the [INTEGER] range. *)
Lemma toggle_favorite_flips_witness :
  toggle_favorite 1 2147483648 [(1, 9); (2, 9)]
  = (Raise DataError, [(1, 9); (2, 9)])
  /\ NoDup (snd (toggle_favorite 1 9 [(1, 9); (2, 9)]))
  /\ is_favorite 2 9 (snd (toggle_favorite 1 9 [(1, 9); (2, 9)])) =
     is_favorite 2 9 [(1, 9); (2, 9)].
Proof.
  split.
  - apply (proj1 (@toggle_favorite_flips 1 2147483648 [(1, 9); (2, 9)])).
    reflexivity.
  - destruct (proj2 (@toggle_favorite_flips 1 9 [(1, 9); (2, 9)])
                eq_refl eq_refl) as [_ [_ [Ho [Hn _]]]].
    split.
    + apply Hn. constructor.
      * intros [H|[]]. discriminate.
      * constructor; [intros []|constructor].
    + apply Ho. discriminate.
Defined.

(* ===================================================================== *)
(** * Filters and lookups over time *)

(** X23.  The rule evaluator is monotone in its settings: a post collected
    under a list of exclusion rules is collected under any shorter list
    the first was extended from, and a post collected under a minimum
    length is collected under any smaller one.  The decision depends only
    on the text of the post and on whether it carries a photo, so other
    media play no part, and for a photo post the minimum length plays no
    part either. *)
Theorem filters_are_monotone (cfg cfg' : Config) (ext : Externals)
        (rules more : list ExclusionRule) (m m' : Message) :
  (collects cfg ext (rules ++ more) m = true ->
   collects cfg ext rules m = true)
  /\ (MIN_TEXT_LENGTH cfg <= MIN_TEXT_LENGTH cfg' ->
      collects cfg' ext rules m = true ->
      collects cfg ext rules m = true)
  /\ (m_text m' = m_text m -> has_photo m' = has_photo m ->
      collects cfg ext rules m' = collects cfg ext rules m)
  /\ (has_photo m = true ->
      collects cfg' ext rules m = collects cfg ext rules m).
Proof.
  rewrite !collects_closed_form. unfold excluded, text_of.
  split; [|split; [|split]].
  - rewrite should_exclude_app.
    destruct (str_truthy (or_empty (m_text m)));
      destruct (should_exclude_message ext (or_empty (m_text m)) rules);
      destruct (should_exclude_message ext (or_empty (m_text m)) more);
      cbn; auto; discriminate.
  - intros Hle.
    destruct (negb (str_truthy (or_empty (m_text m))
                    && should_exclude_message ext (or_empty (m_text m)) rules));
      cbn [andb]; [|auto].
    destruct (has_photo m); cbn [orb]; [auto|].
    rewrite !Z.leb_le. lia.
  - intros Ht Hp. now rewrite Ht, Hp.
  - intros Hp. rewrite Hp. reflexivity.
Qed.

(** The short note of the sample backlog is collected once the minimum
    length is lowered to its ten characters, and stays collected when the
    minimum is lowered further. *)
Lemma filters_are_monotone_witness :
  collects {| MIN_TEXT_LENGTH := 10; START_DATE := 0; MAX_IMAGE_WIDTH := 1280;
              IMAGE_QUALITY := 75; KEEP_WEBP := true |}
           (sample_ext sample_backlog) [subscribe_rule]
           (text_post 5 "Short note" 140) = true
  /\ collects {| MIN_TEXT_LENGTH := 5; START_DATE := 0; MAX_IMAGE_WIDTH := 1280;
                 IMAGE_QUALITY := 75; KEEP_WEBP := true |}
              (sample_ext sample_backlog) [subscribe_rule]
              (text_post 5 "Short note" 140) = true.
Proof.
  split; [reflexivity|].
  apply (proj1 (proj2 (@filters_are_monotone
           {| MIN_TEXT_LENGTH := 5; START_DATE := 0; MAX_IMAGE_WIDTH := 1280;
              IMAGE_QUALITY := 75; KEEP_WEBP := true |}
           {| MIN_TEXT_LENGTH := 10; START_DATE := 0; MAX_IMAGE_WIDTH := 1280;
              IMAGE_QUALITY := 75; KEEP_WEBP := true |}
           (sample_ext sample_backlog) [subscribe_rule] []
           (text_post 5 "Short note" 140) (text_post 5 "Short note" 140)))).
  - cbn. lia.
  - reflexivity.
Defined.

Lemma find_app_some {A} (f : A -> bool) (l l' : list A) (a : A) :
  find f l = Some a -> find f (l ++ l') = Some a.
Proof.
  induction l as [|x l IH]; cbn; [discriminate|].
  destruct (f x); [auto|exact IH].
Qed.

Lemma existsb_app_true {A} (f : A -> bool) (l l' : list A) :
  existsb f l = true -> existsb f (l ++ l') = true.
Proof. intros H. now rewrite existsb_app, H. Qed.

(** X24.  What the store answers once, it answers for good: across a run,
    under any faults, a fingerprint that had an original keeps that same
    original, a key that was stored keeps its stored record (a post that
    is served again with another text does not replace it), and a file id
    that was stored stays stored.  After the run the three queries return
    those answers. *)
Theorem stored_answers_are_permanent (cfg : Config) (ext : Externals)
        (s : Store) :
  let s' := snd (run cfg ext s) in
  (forall h k,
      select_duplicate h (messages s) = Some k ->
      select_duplicate h (messages s') = Some k
      /\ (faults s' = [] -> fst (find_duplicate h s') = Ret (Some k)))
  /\ (forall c i r,
         lookup_message c i (messages s) = Some r ->
         lookup_message c i (messages s') = Some r)
  /\ (forall f,
         has_file_id f (images s) = true ->
         has_file_id f (images s') = true
         /\ (faults s' = [] -> fst (image_exists f s') = Ret true)).
Proof.
  cbn zeta.
  assert (Hm : exists added,
             messages (snd (run cfg ext s)) = (messages s ++ added)%list).
  { apply (@run_stable cfg ext _ F_grow_messages).
    - intros s0 s1 H _. exists []. unfold grows. now rewrite H, app_nil_r.
    - intros. apply message_grows_messages. }
  assert (Hi : exists added,
             images (snd (run cfg ext s)) = (images s ++ added)%list).
  { apply (@run_stable cfg ext _ F_grow_images).
    - intros s0 s1 _ H. exists []. unfold grows. now rewrite H, app_nil_r.
    - intros. apply message_grows_images. }
  destruct Hm as [am Hm]. destruct Hi as [ai Hi].
  split; [|split].
  - intros h k H.
    assert (H' : select_duplicate h (messages (snd (run cfg ext s))) = Some k).
    { rewrite Hm. unfold select_duplicate in *.
      destruct (find (duplicate_candidate h) (messages s)) as [r|] eqn:E;
        [|discriminate].
      now rewrite (find_app_some _ _ am E). }
    split; [exact H'|].
    intros Hf. unfold find_duplicate, bind.
    rewrite (io_point_quiet _ _ Hf). cbn. now rewrite H'.
  - intros c i r H. rewrite Hm. unfold lookup_message in *.
    now apply find_app_some.
  - intros f H.
    assert (H' : has_file_id f (images (snd (run cfg ext s))) = true).
    { rewrite Hi. unfold has_file_id in *. now apply existsb_app_true. }
    split; [exact H'|].
    intros Hf. unfold image_exists, bind.
    rewrite (io_point_quiet _ _ Hf). unfold emit.
    cbn -[has_file_id]. now rewrite H'.
Qed.

(** The store the first sample post was collected into, run over the
    sample backlog: the fingerprint of the flood warning keeps post 1 as
    its original. *)
Lemma stored_answers_are_permanent_witness :
  select_duplicate (md5_hexdigest (sample_ext sample_backlog) text50)
    (messages one_post_store) = Some (42, 1)
  /\ select_duplicate (md5_hexdigest (sample_ext sample_backlog) text50)
       (messages (snd (run default_cfg (sample_ext sample_backlog)
                         one_post_store))) = Some (42, 1).
Proof.
  assert (H : select_duplicate
                (md5_hexdigest (sample_ext sample_backlog) text50)
                (messages one_post_store) = Some (42, 1))
    by (vm_compute; reflexivity).
  split; [exact H|].
  exact (proj1 (proj1 (@stored_answers_are_permanent default_cfg
                         (sample_ext sample_backlog) one_post_store)
                  _ _ H)).
Defined.
